(** * Query-intent resolver and tabular execution engine

    A shallow embedding of [AdvancedExcelChatbot.natural_language_query] and
    the functions it calls (backend/services/langchain_excel.py):
    [_parse_natural_language_query], the four extraction passes, the time
    filter and the per-intent executors.

    Modelling conventions.
    - Python [str] values are Rocq [string]s; [str.lower] and the character
      classes of [re] are modelled on the ASCII range (other characters are
      left untouched by [lower] and belong to no class).
    - Python [int] is [Z]; Python and NumPy floats are exact rationals [Q]
      (rounding is not modelled; every value of the scenarios is an integer
      well below 2^53, where both agree).
    - A pandas DataFrame is an object on a heap; every pandas operation the
      executors use on a frame ([copy], boolean indexing, [nlargest],
      [head]) allocates a new frame and leaves its operand alone, while
      plain assignment ([filtered_df = df]) only copies the reference.  The
      grouped frame of [groupby], which has another shape, is kept as a
      value outside the heap.
    - pandas itself is not part of the repository: its operations follow
      its documented behaviour (comparison of a column with a number,
      [nlargest] with [keep='first'], [groupby] with sorted keys, the
      reductions of a numeric column that skip nulls).
    - Python exceptions are the left summand of the result of a computation;
      [try ... except Exception] is [catch]. *)

From Stdlib Require Import Bool Arith ZArith QArith Qminmax List Ascii String Lia.
From Stdlib Require Import Permutation Sorted Qround.
Import ListNotations.

Local Open Scope string_scope.
Local Open Scope list_scope.

(** ** Strings *)

Module Str.

(** [c.lower()] on one ASCII character. *)
Definition lower_char (c : ascii) : ascii :=
  let n := nat_of_ascii c in
  if (65 <=? n)%nat && (n <=? 90)%nat then ascii_of_nat (n + 32) else c.

(** [s.lower()]. *)
Fixpoint lower (s : string) : string :=
  match s with
  | EmptyString => EmptyString
  | String c t => String (lower_char c) (lower t)
  end.

(** [sub in s]: raw substring containment, true for the empty [sub]. *)
Fixpoint str_in (sub s : string) : bool :=
  if String.prefix sub s then true
  else match s with
       | EmptyString => false
       | String _ t => str_in sub t
       end.

(** [any(k in s for k in ks)]. *)
Definition any_in (ks : list string) (s : string) : bool :=
  existsb (fun k => str_in k s) ks.

(** [\d] and [\s] of the [re] module, on ASCII.  For a [str] pattern
    [\s] is [str.isspace], which on ASCII is tab..carriage return
    (9..13), the four separators 28..31 and the space. *)
Definition is_digit (c : ascii) : bool :=
  let n := nat_of_ascii c in (48 <=? n)%nat && (n <=? 57)%nat.

Definition is_space (c : ascii) : bool :=
  let n := nat_of_ascii c in
  ((9 <=? n)%nat && (n <=? 13)%nat) || ((28 <=? n)%nat && (n <=? 32)%nat).

(** The longest prefix of [s] made of characters in the class [p], and
    what follows it: a greedy [p*]. *)
Fixpoint span (p : ascii -> bool) (s : string) : string * string :=
  match s with
  | EmptyString => (EmptyString, EmptyString)
  | String c t =>
      if p c then let (a, b) := span p t in (String c a, b)
      else (EmptyString, s)
  end.

Fixpoint drop (n : nat) (s : string) : string :=
  match n, s with
  | O, _ => s
  | S k, String _ t => drop k t
  | S _, EmptyString => EmptyString
  end.

Definition is_empty (s : string) : bool :=
  match s with EmptyString => true | _ => false end.

(** An anchored match of [\d+(?:\.\d+)?] at the start of [s]: the text
    matched.  Both repetitions are greedy and nothing follows them in the
    patterns below, so the first attempt of the backtracking matcher is
    its answer. *)
Definition match_number (s : string) : option string :=
  let (ds, r) := span is_digit s in
  if is_empty ds then None
  else match r with
       | String "." r' =>
           let (fs, _) := span is_digit r' in
           if is_empty fs then Some ds else Some (ds ++ "." ++ fs)%string
       | _ => Some ds
       end.

(** An anchored match of [op\s*(\d+(?:\.\d+)?)] at the start of [s]:
    group 1 and the length of the whole match.  [\s*] gives back nothing
    useful on backtracking, since the number starts with a digit. *)
Definition match_comparison (op s : string) : option (string * nat) :=
  if String.prefix op s then
    let (ws, r) := span is_space (drop (String.length op) s) in
    match match_number r with
    | Some m => Some (m, String.length op + String.length ws + String.length m)%nat
    | None => None
    end
  else None.

(** [re.findall] for a pattern whose matches are never empty: scan from
    the left, and after a match resume at its end ([skip] counts the
    characters of the current match still to pass). *)
Fixpoint findall_from (try : string -> option (string * nat))
         (skip : nat) (s : string) : list string :=
  match s with
  | EmptyString => []
  | String _ t =>
      match skip with
      | S k => findall_from try k t
      | O =>
          match try s with
          | Some (m, len) => m :: findall_from try (Nat.pred len) t
          | None => findall_from try 0 t
          end
      end
  end.

Definition findall (try : string -> option (string * nat)) (s : string)
  : list string :=
  findall_from try 0 s.

(** [re.findall(r'\d+(?:\.\d+)?', s)]. *)
Definition findall_numbers (s : string) : list string :=
  findall (fun x => match match_number x with
                    | Some m => Some (m, String.length m)
                    | None => None
                    end) s.

(** [re.findall(op + r'\s*(\d+(?:\.\d+)?)', s)]. *)
Definition findall_comparison (op s : string) : list string :=
  findall (match_comparison op) s.

Definition digit_val (c : ascii) : Z := Z.of_nat (nat_of_ascii c) - 48.

(** [int(s)] for a string of decimal digits. *)
Fixpoint int_of_digits_acc (acc : Z) (s : string) : Z :=
  match s with
  | EmptyString => acc
  | String c t => int_of_digits_acc (10 * acc + digit_val c) t
  end.

Definition int_of_digits (s : string) : Z := int_of_digits_acc 0 s.

End Str.

(** ** Data model *)

(** A number read from the query text: [int(m)] or [float(m)]. *)
Inductive pyval : Type :=
| PInt (z : Z)
| PFloat (q : Q).

Definition pyval_Q (v : pyval) : Q :=
  match v with
  | PInt z => inject_Z z
  | PFloat q => q
  end.

(** The inferred kind of a column: [np.number], [datetime64], [object]. *)
Inductive dtype : Type := DNumeric | DDateTime | DObject.

Definition dtype_eqb (a b : dtype) : bool :=
  match a, b with
  | DNumeric, DNumeric | DDateTime, DDateTime | DObject, DObject => true
  | _, _ => false
  end.

Record Timestamp : Type := { ts_year : Z; ts_month : Z; ts_day : Z }.

(** A cell: a number, a timestamp, a text, or null (NaN, NaT, None). *)
Inductive cell : Type :=
| CNum (q : Q)
| CDate (t : Timestamp)
| CText (s : string)
| CNull.

(** A frame: its columns in declaration order with their kinds, and its
    rows in order, each row holding one cell per column. *)
Record DataFrame : Type := {
  df_columns : list (string * dtype);
  df_rows : list (list cell)
}.

Definition column_names (df : DataFrame) : list string :=
  map fst (df_columns df).

(** [col in l] for a list of strings. *)
Definition mem (x : string) (l : list string) : bool :=
  existsb (String.eqb x) l.

(** The position of the column [col] and its kind, for a frame whose
    columns have distinct names, as every loaded table has: for pandas a
    name carried by two columns selects a frame, not a column, and
    [load_excel_file] fails on such a sheet in [_analyze_sheet], at its
    [df[col].dtype], before the table is stored among the sheets.  A
    frame with a repeated name is outside the model: the name would be
    resolved here to the first column that carries it, which is not what
    pandas does. *)
Fixpoint find_column (col : string) (cs : list (string * dtype)) (i : nat)
  : option (nat * dtype) :=
  match cs with
  | [] => None
  | (c, t) :: rest =>
      if String.eqb col c then Some (i, t) else find_column col rest (S i)
  end.

(** [df.select_dtypes(include=[k]).columns]. *)
Definition select_dtypes (k : dtype) (df : DataFrame) : list string :=
  map fst (filter (fun c => dtype_eqb (snd c) k) (df_columns df)).

(** ** Parsing the query *)

Inductive cmp_op : Type := OpGt | OpLt | OpGe | OpLe | OpEq.

Record Condition : Type := { operator : cmp_op; value : pyval }.

Record TimeFilters : Type := { quarter : option Z; month : option Z }.

Record ParsedQuery : Type := {
  type : string;
  original_query : string;
  columns : list string;
  values : list pyval;
  conditions : list Condition;
  time_filters : TimeFilters;
  aggregation_type : string
}.

(** One entry of the [patterns] dictionary: the [keywords] the classifier
    reads, and the other lists the entry holds ([time_patterns],
    [comparison_patterns], [patterns]), which no code reads. *)
Record PatternInfo : Type := {
  keywords : list string;
  unread_patterns : list string
}.

Definition patterns : list (string * PatternInfo) :=
  [ ("aggregation",
     {| keywords := ["sum"; "total"; "average"; "mean"; "count"; "max"; "min";
                     "highest"; "lowest"];
        unread_patterns :=
          ["q1"; "q2"; "q3"; "q4"; "january"; "february"; "march"; "april";
           "may"; "june"; "july"; "august"; "september"; "october";
           "november"; "december"] |});
    ("filter",
     {| keywords := ["show"; "find"; "filter"; "where"; "above"; "below";
                     "greater"; "less"; "equal"];
        unread_patterns :=
          [">\s*(\d+(?:\.\d+)?)"; "<\s*(\d+(?:\.\d+)?)"; "=\s*(\d+(?:\.\d+)?)"] |});
    ("groupby",
     {| keywords := ["by"; "group"; "each"; "per"; "for each"; "grouped by"];
        unread_patterns := [] |});
    ("top_n",
     {| keywords := ["top"; "highest"; "best"; "leading"];
        unread_patterns := ["top\s+(\d+)"; "(\d+)\s+highest"; "(\d+)\s+best"] |}) ].

(** The loop that determines the query type: the first entry of [ps], in
    declaration order, one of whose keywords occurs in the lower-cased
    text; ['general'] when the loop ends without a [break]. *)
Fixpoint first_matching_type (ps : list (string * PatternInfo))
         (query_lower : string) : string :=
  match ps with
  | [] => "general"
  | (qtype, pattern_info) :: rest =>
      if Str.any_in (keywords pattern_info) query_lower then qtype
      else first_matching_type rest query_lower
  end.

Definition classify (query : string) : string :=
  first_matching_type patterns (Str.lower query).

Definition column_synonyms : list (string * list string) :=
  [ ("revenue", ["sales"; "income"; "earnings"]);
    ("profit", ["margin"; "gain"; "earnings"]);
    ("cost", ["expense"; "expenditure"]);
    ("date", ["time"; "period"; "month"; "year"]);
    ("product", ["item"; "goods"; "merchandise"]);
    ("customer", ["client"; "buyer"; "user"]) ].

(** [for col in df.columns: if p col: if col not in columns: append]. *)
Definition append_new (p : string -> bool) (names : list string)
           (columns : list string) : list string :=
  fold_left (fun acc col => if p col && negb (mem col acc) then acc ++ [col]
                            else acc) names columns.

Definition _extract_columns_from_query (query : string) (df : DataFrame)
  : list string :=
  let query_lower := Str.lower query in
  let direct :=
    filter (fun col => Str.str_in (Str.lower col) query_lower)
           (column_names df) in
  fold_left
    (fun columns '(synonym, variants) =>
       if Str.any_in variants query_lower
       then append_new (fun col => Str.str_in synonym (Str.lower col))
                       (column_names df) columns
       else columns)
    column_synonyms direct.

(** [float(m)] for [m] matching [\d+\.\d+], as the exact decimal. *)
Definition float_of_decimal (m : string) : Q :=
  let (ds, r) := Str.span Str.is_digit m in
  let fs := Str.drop 1 r in
  Qred (Qmake (Str.int_of_digits (ds ++ fs)%string)
              (Pos.pow 10 (Pos.of_nat (String.length fs)))).

(** [float(m) if '.' in m else int(m)]. *)
Definition number_of_match (m : string) : pyval :=
  if Str.str_in "." m then PFloat (float_of_decimal m)
  else PInt (Str.int_of_digits m).

Definition _extract_values_from_query (query : string) : list pyval :=
  map number_of_match (Str.findall_numbers query).

(** The [comparisons] list: the literal each pattern starts with, before
    [\s*(\d+(?:\.\d+)?)], and the operator it stands for. *)
Definition comparisons : list (string * cmp_op) :=
  [ (">", OpGt); ("<", OpLt); (">=", OpGe); ("<=", OpLe); ("=", OpEq) ].

Definition _extract_conditions_from_query (query : string) : list Condition :=
  flat_map
    (fun '(pattern, op) =>
       map (fun m => {| operator := op; value := number_of_match m |})
           (Str.findall_comparison pattern query))
    comparisons.

Definition quarters : list (string * Z) :=
  [ ("q1", 1); ("q2", 2); ("q3", 3); ("q4", 4) ]%Z.

Definition months : list (string * Z) :=
  [ ("january", 1); ("february", 2); ("march", 3); ("april", 4); ("may", 5);
    ("june", 6); ("july", 7); ("august", 8); ("september", 9);
    ("october", 10); ("november", 11); ("december", 12) ]%Z.

(** [for k, num in table.items(): if k in query_lower: slot = num]: every
    hit overwrites the slot, so the last one stays. *)
Definition last_hit (table : list (string * Z)) (query_lower : string)
  : option Z :=
  fold_left (fun slot '(k, num) =>
               if Str.str_in k query_lower then Some num else slot)
            table None.

Definition _extract_time_filters (query : string) : TimeFilters :=
  let query_lower := Str.lower query in
  {| quarter := last_hit quarters query_lower;
     month := last_hit months query_lower |}.

Definition _extract_aggregation_type (query : string) : string :=
  let query_lower := Str.lower query in
  if Str.any_in ["sum"; "total"; "add"] query_lower then "sum"
  else if Str.any_in ["average"; "mean"; "avg"] query_lower then "mean"
  else if Str.any_in ["count"; "number"] query_lower then "count"
  else if Str.any_in ["max"; "highest"; "maximum"] query_lower then "max"
  else if Str.any_in ["min"; "lowest"; "minimum"] query_lower then "min"
  else "sum".

Definition _parse_natural_language_query (query : string) (df : DataFrame)
  : ParsedQuery :=
  {| type := classify query;
     original_query := query;
     columns := _extract_columns_from_query query df;
     values := _extract_values_from_query query;
     conditions := _extract_conditions_from_query query;
     time_filters := _extract_time_filters query;
     aggregation_type := _extract_aggregation_type query |}.

(** ** The store and the computations on it *)

(** The exceptions the modelled code can meet.  [ReferenceLost] stands for
    a reference to an object that is not on the heap, which Python rules
    out; it keeps [read] total. *)
Inductive exn : Type := TypeError | ZeroDivisionError | KeyError | ReferenceLost.

Definition loc : Type := nat.

(** The state of the chatbot object the queries see: [self.sheets], in
    insertion order, each sheet holding a reference to its frame
    ([self.sheets[name]['dataframe']]), and the frames allocated so far. *)
Record Store : Type := {
  sheets : list (string * loc);
  objects : list DataFrame
}.

Definition M (A : Type) : Type := Store -> (exn + A) * Store.

Definition ret {A} (a : A) : M A := fun s => (inr a, s).

Definition bind {A B} (m : M A) (k : A -> M B) : M B :=
  fun s => match m s with
           | (inr a, s') => k a s'
           | (inl e, s') => (inl e, s')
           end.

Definition raise {A} (e : exn) : M A := fun s => (inl e, s).

(** [try: m  except Exception as e: handler e]. *)
Definition catch {A} (m : M A) (handler : exn -> M A) : M A :=
  fun s => match m s with
           | (inr a, s') => (inr a, s')
           | (inl e, s') => handler e s'
           end.

Definition lift {A} (r : exn + A) : M A := fun s => (r, s).

Notation "x <- m ;; k" := (bind m (fun x => k))
  (at level 61, m at next level, right associativity).

(** A new frame object. *)
Definition new_frame (d : DataFrame) : M loc :=
  fun s => (inr (List.length (objects s)),
            {| sheets := sheets s; objects := objects s ++ [d] |}).

(** The frame a reference points to. *)
Definition read (l : loc) : M DataFrame :=
  fun s => match nth_error (objects s) l with
           | Some d => (inr d, s)
           | None => (inl ReferenceLost, s)
           end.

Definition get_sheets : M (list (string * loc)) :=
  fun s => (inr (sheets s), s).

Fixpoint foldM {A B} (f : A -> B -> M A) (l : list B) (a : A) : M A :=
  match l with
  | [] => ret a
  | x :: rest => a' <- f a x ;; foldM f rest a'
  end.

Fixpoint sequence {A} (l : list (exn + A)) : exn + list A :=
  match l with
  | [] => inr []
  | inl e :: _ => inl e
  | inr a :: rest =>
      match sequence rest with
      | inr r => inr (a :: r)
      | inl e => inl e
      end
  end.

(** ** pandas operations *)

Definition compare_num (op : cmp_op) (a b : Q) : bool :=
  match op with
  | OpGt => negb (Qle_bool a b)
  | OpLt => negb (Qle_bool b a)
  | OpGe => Qle_bool b a
  | OpLe => Qle_bool a b
  | OpEq => Qeq_bool a b
  end.

(** One cell of an [object] or numeric column against a number: a null
    compares false, a text is not comparable by order with a number
    ([TypeError]) and is different from it. *)
Definition compare_cell (op : cmp_op) (v : Q) (c : cell) : exn + bool :=
  match c with
  | CNum q => inr (compare_num op q v)
  | CNull => inr false
  | CText _ | CDate _ =>
      match op with
      | OpEq => inr false
      | _ => inl TypeError
      end
  end.

(** [series OP v] for a column of kind [t]: a [datetime64] column refuses
    an order comparison with a number whatever it holds, and is nowhere
    equal to it; the other kinds compare cell by cell. *)
Definition compare_series (t : dtype) (op : cmp_op) (v : Q)
           (cells : list cell) : exn + list bool :=
  match t, op with
  | DDateTime, OpEq => inr (map (fun _ => false) cells)
  | DDateTime, _ => inl TypeError
  | _, _ => sequence (map (compare_cell op v) cells)
  end.

Definition column_cells (i : nat) (rows : list (list cell)) : list cell :=
  map (fun row => nth i row CNull) rows.

(** The rows of [rows] whose mask bit is set. *)
Fixpoint select_rows {A} (mask : list bool) (rows : list A) : list A :=
  match mask, rows with
  | b :: mask', r :: rows' =>
      if b then r :: select_rows mask' rows' else select_rows mask' rows'
  | _, _ => []
  end.

(** Each pandas operation below is given twice: on the value of a frame
    ([frame_...]), and on a reference, where it reads its operand and
    allocates its result. *)

(** The mask [df[col] OP v]; [KeyError] for a column the frame does not
    have. *)
Definition frame_compare (d : DataFrame) (col : string) (op : cmp_op)
           (v : pyval) : exn + list bool :=
  match find_column col (df_columns d) 0 with
  | None => inl KeyError
  | Some (i, t) => compare_series t op (pyval_Q v) (column_cells i (df_rows d))
  end.

Definition series_compare (df : loc) (col : string) (op : cmp_op) (v : pyval)
  : M (list bool) :=
  d <- read df ;; lift (frame_compare d col op v).

Definition frame_select (d : DataFrame) (mask : list bool) : DataFrame :=
  {| df_columns := df_columns d; df_rows := select_rows mask (df_rows d) |}.

(** [df[mask]]: a new frame with the selected rows. *)
Definition getitem_mask (df : loc) (mask : list bool) : M loc :=
  d <- read df ;; new_frame (frame_select d mask).

(** [df.copy()]. *)
Definition copy (df : loc) : M loc :=
  d <- read df ;; new_frame d.

Definition frame_head (d : DataFrame) (n : nat) : DataFrame :=
  {| df_columns := df_columns d; df_rows := firstn n (df_rows d) |}.

(** [df.head(n)]. *)
Definition head (df : loc) (n : nat) : M loc :=
  d <- read df ;; new_frame (frame_head d n).

(** [len(df)]. *)
Definition len (df : loc) : M nat :=
  d <- read df ;; ret (List.length (df_rows d)).

Definition record : Type := list (string * cell).

Definition records_of (d : DataFrame) : list record :=
  map (fun row => combine (column_names d) row) (df_rows d).

(** [df.to_dict('records')]. *)
Definition to_dict_records (df : loc) : M (list record) :=
  d <- read df ;; ret (records_of d).

Definition quarter_of (t : Timestamp) : Z := ((ts_month t - 1) / 3 + 1)%Z.

(** [df[date_col].dt.FIELD == n]: false on a null. *)
Definition dt_field_eq (field : Timestamp -> Z) (n : Z) (c : cell) : bool :=
  match c with
  | CDate t => Z.eqb (field t) n
  | _ => false
  end.

Definition frame_dt_eq (d : DataFrame) (col : string)
           (field : Timestamp -> Z) (n : Z) : exn + list bool :=
  match find_column col (df_columns d) 0 with
  | None => inl KeyError
  | Some (i, _) => inr (map (dt_field_eq field n) (column_cells i (df_rows d)))
  end.

Definition series_dt_eq (df : loc) (col : string) (field : Timestamp -> Z)
           (n : Z) : M (list bool) :=
  d <- read df ;; lift (frame_dt_eq d col field n).

(** *** nlargest *)

(** A value placed in a list sorted by decreasing value, before the first
    element that is not strictly larger: a value goes ahead of the equal
    ones already placed, which come later in the frame. *)
Fixpoint insert_desc (x : nat * Q) (l : list (nat * Q)) : list (nat * Q) :=
  match l with
  | [] => [x]
  | y :: rest =>
      if negb (Qle_bool (snd y) (snd x)) then y :: insert_desc x rest
      else x :: l
  end.

(** A stable sort by decreasing value. *)
Definition sort_desc (l : list (nat * Q)) : list (nat * Q) :=
  fold_right insert_desc [] l.

Definition enumerate {A} (l : list A) : list (nat * A) :=
  combine (seq 0 (List.length l)) l.

(** The row positions that hold a number, with it, and those that do not. *)
Definition valued (cells : list cell) : list (nat * Q) :=
  flat_map (fun '(i, c) => match c with CNum q => [(i, q)] | _ => [] end)
           (enumerate cells).

Definition unvalued (cells : list cell) : list nat :=
  flat_map (fun '(i, c) => match c with CNum _ => [] | _ => [i] end)
           (enumerate cells).

(** The positions [Series.nlargest(n, keep='first')] selects, in the order
    of the result: largest values first, the first occurrence first among
    equal values, and the rows without a value at the end if room is left. *)
Definition nlargest_positions (n : nat) (cells : list cell) : list nat :=
  firstn n (map fst (sort_desc (valued cells)) ++ unvalued cells).

(** [df.nlargest(n, col)].  pandas refuses an [object] column; only the
    numeric case is reached by the executor and modelled here. *)
Definition frame_nlargest (d : DataFrame) (n : Z) (col : string)
  : exn + DataFrame :=
  match find_column col (df_columns d) 0 with
  | Some (i, DNumeric) =>
      inr {| df_columns := df_columns d;
             df_rows :=
               map (fun p => nth p (df_rows d) [])
                   (nlargest_positions (Z.to_nat n)
                                       (column_cells i (df_rows d))) |}
  | Some (_, _) => inl TypeError
  | None => inl KeyError
  end.

Definition nlargest (df : loc) (n : Z) (col : string) : M loc :=
  d <- read df ;;
  top <- lift (frame_nlargest d n col) ;;
  new_frame top.

(** *** Reductions of a numeric column *)

Definition numbers (cells : list cell) : list Q :=
  flat_map (fun c => match c with CNum q => [q] | _ => [] end) cells.

Definition Qsum (xs : list Q) : Q := fold_left Qplus xs 0.

Definition count_of (xs : list Q) : Q := inject_Z (Z.of_nat (List.length xs)).

(** [sum], [mean], [count], [max], [min] of a numeric column; nulls are
    skipped, and the mean and the extremes of no value are NaN. *)
Definition numeric_sum (cells : list cell) : cell :=
  CNum (Qred (Qsum (numbers cells))).

Definition numeric_mean (cells : list cell) : cell :=
  match numbers cells with
  | [] => CNull
  | xs => CNum (Qred (Qsum xs / count_of xs))
  end.

Definition numeric_count (cells : list cell) : cell :=
  CNum (count_of (numbers cells)).

Definition numeric_extreme (pick : Q -> Q -> Q) (cells : list cell) : cell :=
  match numbers cells with
  | [] => CNull
  | x :: xs => CNum (fold_left pick xs x)
  end.

Definition is_aggregation (agg : string) : bool :=
  mem agg ["sum"; "mean"; "count"; "max"; "min"].

Definition numeric_reduce (agg : string) (cells : list cell) : cell :=
  if String.eqb agg "sum" then numeric_sum cells
  else if String.eqb agg "mean" then numeric_mean cells
  else if String.eqb agg "count" then numeric_count cells
  else if String.eqb agg "max" then numeric_extreme Qmax cells
  else numeric_extreme Qmin cells.

(** *** Group keys *)

Definition cell_eqb (a b : cell) : bool :=
  match a, b with
  | CNum x, CNum y => Qeq_bool x y
  | CText x, CText y => String.eqb x y
  | CDate x, CDate y =>
      Z.eqb (ts_year x) (ts_year y) && Z.eqb (ts_month x) (ts_month y)
      && Z.eqb (ts_day x) (ts_day y)
  | CNull, CNull => true
  | _, _ => false
  end.

Fixpoint key_eqb (a b : list cell) : bool :=
  match a, b with
  | [], [] => true
  | x :: a', y :: b' => cell_eqb x y && key_eqb a' b'
  | _, _ => false
  end.

(** The order of group keys: texts by code point, component by
    component.  The cells of an [object] column are texts or nulls, and
    keys with a null are dropped before they are ordered. *)
Definition cell_leb (a b : cell) : bool :=
  match a, b with
  | CText x, CText y => String.leb x y
  | _, _ => true
  end.

Fixpoint key_leb (a b : list cell) : bool :=
  match a, b with
  | x :: a', y :: b' =>
      if cell_eqb x y then key_leb a' b' else cell_leb x y
  | _, _ => true
  end.

Fixpoint insert_key (k : list cell) (ks : list (list cell)) : list (list cell) :=
  match ks with
  | [] => [k]
  | k' :: rest =>
      if key_eqb k k' then ks
      else if key_leb k k' then k :: ks
      else k' :: insert_key k rest
  end.

Definition is_null (c : cell) : bool :=
  match c with CNull => true | _ => false end.

(** The distinct keys without a null, in increasing order. *)
Definition group_keys (keys : list (list cell)) : list (list cell) :=
  fold_left (fun acc k => if existsb is_null k then acc else insert_key k acc)
            keys [].

(** [find_column] for each name of a list; [KeyError] at the first name
    the frame does not have. *)
Definition resolve (d : DataFrame) (cols : list string)
  : exn + list (string * (nat * dtype)) :=
  sequence (map (fun col => match find_column col (df_columns d) 0 with
                            | Some it => inr (col, it)
                            | None => inl KeyError
                            end) cols).

(** ** Results *)

(** The [error] results, by the message they carry; the exception a
    handler caught stands for its [str(e)]. *)
Inductive error_kind : Type :=
| NoExcelFileLoaded
| SheetNotFound (sheet_name : string)
| ErrorProcessingQuery (e : exn)
| NoNumericColumnsForAggregation
| ErrorInAggregation (e : exn)
| ErrorInFiltering (e : exn)
| NoGroupingColumns
| ErrorInGroupby (e : exn)
| NoNumericColumnsForSorting
| ErrorInTopN (e : exn)
| ErrorInComparison (e : exn)
| ErrorInTrend (e : exn)
| ErrorInGeneral (e : exn).

(** A row of a grouped frame: the group key under [(col, '')] and the
    aggregates under [(col, 'sum')], [(col, 'mean')], [(col, 'count')]. *)
Definition grecord : Type := list ((string * string) * cell).

(** The dictionaries the executors return, one constructor per shape.
    The texts built for display only ([formatted_results], [summary] of
    the groupby and top-N results) are left out. *)
Inductive QueryResult : Type :=
| Error (kind : error_kind)
| Aggregation (operation : string) (columns : list string)
              (results : list (string * cell))
              (filtered_rows total_rows : nat)
| Filter (filtered_rows total_rows : nat) (data : list record)
         (columns : list string) (rows_returned : nat)
         (percentage_of_total : Q)
| Groupby (grouping_columns aggregation_columns : list string)
          (data : list grecord) (total_groups : nat)
| TopN (n : Z) (sort_column : string) (data : list record)
| Placeholder (type message : string)
| General (processed_query : string) (data_preview : list record)
          (total_rows total_columns : nat) (columns : list string).

Definition is_error (r : QueryResult) : bool :=
  match r with Error _ => true | _ => false end.

(** [d[k] = v] on a dictionary kept in insertion order. *)
Fixpoint dict_set (k : string) (v : cell) (d : list (string * cell))
  : list (string * cell) :=
  match d with
  | [] => [(k, v)]
  | (k', v') :: rest =>
      if String.eqb k k' then (k, v) :: rest else (k', v') :: dict_set k v rest
  end.

(** Truth value of an optional string: [None] and [''] are false. *)
Definition truthy (s : option string) : bool :=
  match s with
  | Some (String _ _) => true
  | _ => false
  end.

(** ** The executors *)

(** The five-way [if/elif] on [condition['operator']]: every branch is
    [filtered_df = filtered_df[filtered_df[col] OP condition['value']]]. *)
Definition apply_condition (filtered_df : loc) (col : string)
           (condition : Condition) : M loc :=
  mask <- series_compare filtered_df col (operator condition) (value condition) ;;
  getitem_mask filtered_df mask.

Definition _apply_time_filters (df : loc) (tf : TimeFilters) : M loc :=
  match quarter tf, month tf with
  | None, None => ret df
  | _, _ =>
      d <- read df ;;
      match select_dtypes DDateTime d with
      | [] => ret df
      | date_col :: _ =>
          df1 <- match quarter tf with
                 | Some q =>
                     mask <- series_dt_eq df date_col quarter_of q ;;
                     getitem_mask df mask
                 | None => ret df
                 end ;;
          match month tf with
          | Some m =>
              mask <- series_dt_eq df1 date_col ts_month m ;;
              getitem_mask df1 mask
          | None => ret df1
          end
      end
  end.

Definition _execute_filter_query (df : loc) (parsed_query : ParsedQuery)
  : M QueryResult :=
  catch
    (filtered_df <- copy df ;;
     filtered_df <-
       foldM (fun fdf condition =>
                foldM (fun fdf col =>
                         fd <- read fdf ;;
                         if mem col (column_names fd)
                         then apply_condition fdf col condition
                         else ret fdf)
                      (columns parsed_query) fdf)
             (conditions parsed_query) filtered_df ;;
     filtered_rows <- len filtered_df ;;
     total_rows <- len df ;;
     shown <- head filtered_df 20 ;;
     data <- to_dict_records shown ;;
     fd <- read filtered_df ;;
     rows_returned <- len filtered_df ;;
     percentage <-
       (match total_rows with
        | O => raise ZeroDivisionError
        | S _ => ret (Qred (inject_Z (Z.of_nat rows_returned)
                            / inject_Z (Z.of_nat total_rows) * 100))
        end) ;;
     ret (Filter filtered_rows total_rows data (column_names fd)
                 rows_returned percentage))
    (fun e => ret (Error (ErrorInFiltering e))).

Definition first_int_in_range (vs : list pyval) : Z :=
  match find (fun v => match v with
                       | PInt z => (1 <=? z)%Z && (z <=? 100)%Z
                       | PFloat _ => false
                       end) vs with
  | Some (PInt z) => z
  | _ => 5%Z
  end.

(** The columns [cols] or, when there is none, the first numeric column
    of the frame: [if not cols: numeric_cols = ...; cols = [numeric_cols[0]]],
    and nothing when the frame has no numeric column either. *)
Definition or_first_numeric (d : DataFrame) (cols : list string)
  : option (list string) :=
  match cols with
  | [] => match select_dtypes DNumeric d with
          | c :: _ => Some [c]
          | [] => None
          end
  | _ => Some cols
  end.

Definition is_numeric_column (d : DataFrame) (col : string) : bool :=
  match find_column col (df_columns d) 0 with
  | Some (_, DNumeric) => true
  | _ => false
  end.

Definition _execute_top_n_query (df : loc) (parsed_query : ParsedQuery)
  : M QueryResult :=
  catch
    (let n := first_int_in_range (values parsed_query) in
     d <- read df ;;
     let sort_col := find (is_numeric_column d) (columns parsed_query) in
     match (if truthy sort_col then sort_col
            else List.hd_error (select_dtypes DNumeric d)) with
     | None => ret (Error NoNumericColumnsForSorting)
     | Some sort_col =>
         top_n <- nlargest df n sort_col ;;
         data <- to_dict_records top_n ;;
         ret (TopN n sort_col data)
     end)
    (fun e => ret (Error (ErrorInTopN e))).

Definition _execute_comparison_query (df : loc) (parsed_query : ParsedQuery)
  : M QueryResult :=
  catch (ret (Placeholder "comparison" "Comparison queries not yet implemented"))
        (fun e => ret (Error (ErrorInComparison e))).

Definition _execute_trend_query (df : loc) (parsed_query : ParsedQuery)
  : M QueryResult :=
  catch (ret (Placeholder "trend" "Trend analysis not yet implemented"))
        (fun e => ret (Error (ErrorInTrend e))).

Definition _execute_general_query (df : loc) (parsed_query : ParsedQuery)
  : M QueryResult :=
  catch
    (shown <- head df 10 ;;
     data_preview <- to_dict_records shown ;;
     total_rows <- len df ;;
     d <- read df ;;
     ret (General (original_query parsed_query) data_preview total_rows
                  (List.length (df_columns d)) (column_names d)))
    (fun e => ret (Error (ErrorInGeneral e))).

(** ** The executors on frame values: the part that needs no reduction *)

Definition ebind {A B} (r : exn + A) (k : A -> exn + B) : exn + B :=
  match r with
  | inr a => k a
  | inl e => inl e
  end.

Fixpoint efold {A B} (f : A -> B -> exn + A) (l : list B) (a : A) : exn + A :=
  match l with
  | [] => inr a
  | x :: rest => ebind (f a x) (efold f rest)
  end.

(** The result of [try: body  except Exception as e: return error]. *)
Definition handle (k : exn -> error_kind) (r : exn + QueryResult)
  : QueryResult :=
  match r with
  | inr x => x
  | inl e => Error (k e)
  end.

Definition value_condition (d : DataFrame) (col : string) (c : Condition)
  : exn + DataFrame :=
  ebind (frame_compare d col (operator c) (value c))
        (fun mask => inr (frame_select d mask)).

(** The two nested loops over the conditions and the columns; [guard]
    is the test [col in ....columns] of the loop body. *)
Definition value_conditions (guard : DataFrame -> string -> bool)
           (conds : list Condition) (cols : list string) (d : DataFrame)
  : exn + DataFrame :=
  efold (fun fd c =>
           efold (fun fd col =>
                    if guard fd col then value_condition fd col c else inr fd)
                 cols fd)
        conds d.

Definition value_filter (d : DataFrame) (parsed_query : ParsedQuery)
  : QueryResult :=
  handle ErrorInFiltering
    (ebind (value_conditions (fun fd col => mem col (column_names fd))
                             (conditions parsed_query) (columns parsed_query) d)
       (fun fd =>
          match List.length (df_rows d) with
          | O => inl ZeroDivisionError
          | S _ as total_rows =>
              inr (Filter (List.length (df_rows fd)) total_rows
                          (records_of (frame_head fd 20)) (column_names fd)
                          (List.length (df_rows fd))
                          (Qred (inject_Z (Z.of_nat (List.length (df_rows fd)))
                                 / inject_Z (Z.of_nat total_rows) * 100)))
          end)).

Definition value_top_n (d : DataFrame) (parsed_query : ParsedQuery)
  : QueryResult :=
  handle ErrorInTopN
    (let n := first_int_in_range (values parsed_query) in
     let sort_col := find (is_numeric_column d) (columns parsed_query) in
     match (if truthy sort_col then sort_col
            else List.hd_error (select_dtypes DNumeric d)) with
     | None => inr (Error NoNumericColumnsForSorting)
     | Some sort_col =>
         ebind (frame_nlargest d n sort_col)
               (fun top => inr (TopN n sort_col (records_of top)))
     end).

Definition value_general (d : DataFrame) (parsed_query : ParsedQuery)
  : QueryResult :=
  General (original_query parsed_query) (records_of (frame_head d 10))
          (List.length (df_rows d)) (List.length (df_columns d))
          (column_names d).

Section Executor.

(** What pandas computes when it reduces a column that is not numeric
    (texts are concatenated or compared, timestamps averaged, several
    combinations raise) is not fixed by this development: the executors
    are defined for any such reduction. *)
Variable reduce_other : string -> dtype -> list cell -> exn + cell.

(** [series.sum()], [.mean()], [.count()], [.max()], [.min()]. *)
Definition series_reduce (agg : string) (t : dtype) (cells : list cell)
  : exn + cell :=
  match t with
  | DNumeric => inr (numeric_reduce agg cells)
  | _ => reduce_other agg t cells
  end.

Definition _execute_aggregation_query (df : loc) (parsed_query : ParsedQuery)
  : M QueryResult :=
  catch
    (let agg_type := aggregation_type parsed_query in
     d <- read df ;;
     match or_first_numeric d (columns parsed_query) with
     | None => ret (Error NoNumericColumnsForAggregation)
     | Some columns =>
         filtered_df <- _apply_time_filters df (time_filters parsed_query) ;;
         filtered_df <-
           foldM (fun fdf condition =>
                    foldM (fun fdf col =>
                             if mem col (column_names d)
                             then apply_condition fdf col condition
                             else ret fdf)
                          columns fdf)
                 (conditions parsed_query) filtered_df ;;
         fd <- read filtered_df ;;
         results <-
           foldM (fun results col =>
                    match find_column col (df_columns fd) 0 with
                    | Some (i, t) =>
                        if is_aggregation agg_type then
                          v <- lift (series_reduce agg_type t
                                       (column_cells i (df_rows fd))) ;;
                          ret (dict_set col v results)
                        else ret results
                    | None => ret results
                    end)
                 columns [] ;;
         filtered_rows <- len filtered_df ;;
         total_rows <- len df ;;
         ret (Aggregation agg_type columns results filtered_rows total_rows)
     end)
    (fun e => ret (Error (ErrorInAggregation e))).

(** The three aggregates of one column over the rows of one group. *)
Definition group_aggregates (rows : list (list cell))
           (target : string * (nat * dtype)) : exn + grecord :=
  let '(col, (i, t)) := target in
  let cells := column_cells i rows in
  match series_reduce "sum" t cells,
        series_reduce "mean" t cells,
        series_reduce "count" t cells with
  | inr s, inr m, inr c =>
      inr [ ((col, "sum"), s); ((col, "mean"), m); ((col, "count"), c) ]
  | inl e, _, _ | _, inl e, _ | _, _, inl e => inl e
  end.

(** [df.groupby(grouping_cols)[agg_cols].agg(['sum', 'mean', 'count'])
    .reset_index()], as the rows of the grouped frame: one per distinct
    key, in increasing key order, rows with a null in the key dropped. *)
Definition groupby_agg (d : DataFrame) (grouping_cols agg_cols : list string)
  : exn + list grecord :=
  match resolve d grouping_cols, resolve d agg_cols with
  | inr gs, inr targets =>
      let row_key := fun row : list cell =>
                       map (fun g => nth (fst (snd g)) row CNull) gs in
      sequence
        (map (fun key =>
                let rows := filter (fun row => key_eqb (row_key row) key)
                                   (df_rows d) in
                match sequence (map (group_aggregates rows) targets) with
                | inr parts =>
                    inr (combine (map (fun c => (c, "")) grouping_cols) key
                         ++ List.concat parts)
                | inl e => inl e
                end)
             (group_keys (map row_key (df_rows d))))
  | inl e, _ | _, inl e => inl e
  end.

Definition is_object_column (d : DataFrame) (col : string) : bool :=
  match find_column col (df_columns d) 0 with
  | Some (_, DObject) => true
  | _ => false
  end.

Definition _execute_groupby_query (df : loc) (parsed_query : ParsedQuery)
  : M QueryResult :=
  catch
    (d <- read df ;;
     let present := filter (fun col => mem col (column_names d))
                           (columns parsed_query) in
     let grouping_cols := filter (is_object_column d) present in
     let agg_cols := filter (fun col => negb (is_object_column d col))
                            present in
     match grouping_cols with
     | [] => ret (Error NoGroupingColumns)
     | _ =>
         match or_first_numeric d agg_cols with
         | None => ret (Error NoNumericColumnsForAggregation)
         | Some agg_cols =>
             grouped <- lift (groupby_agg d grouping_cols agg_cols) ;;
             ret (Groupby grouping_cols agg_cols (firstn 20 grouped)
                          (List.length grouped))
         end
     end)
    (fun e => ret (Error (ErrorInGroupby e))).

(** [self.sheets[name]['dataframe']]. *)
Fixpoint sheet_frame (name : string) (ss : list (string * loc)) : option loc :=
  match ss with
  | [] => None
  | (k, l) :: rest => if String.eqb name k then Some l else sheet_frame name rest
  end.

Definition natural_language_query (query : string)
           (sheet_name : option string) : M QueryResult :=
  catch
    (ss <- get_sheets ;;
     match ss with
     | [] => ret (Error NoExcelFileLoaded)
     | (first_sheet, _) :: _ =>
         let given := match sheet_name with Some n => n | None => "" end in
         if truthy sheet_name && negb (mem given (map fst ss))
         then ret (Error (SheetNotFound given))
         else
           let name := if truthy sheet_name then given else first_sheet in
           match sheet_frame name ss with
           | None => raise KeyError
           | Some df =>
               d <- read df ;;
               let parsed_query := _parse_natural_language_query query d in
               let t := type parsed_query in
               if String.eqb t "aggregation"
               then _execute_aggregation_query df parsed_query
               else if String.eqb t "filter"
               then _execute_filter_query df parsed_query
               else if String.eqb t "groupby"
               then _execute_groupby_query df parsed_query
               else if String.eqb t "top_n"
               then _execute_top_n_query df parsed_query
               else if String.eqb t "comparison"
               then _execute_comparison_query df parsed_query
               else if String.eqb t "trend"
               then _execute_trend_query df parsed_query
               else _execute_general_query df parsed_query
           end
     end)
    (fun e => ret (Error (ErrorProcessingQuery e))).

(** *** The executors on frame values

    What each executor computes, as a function of the value of the frame
    it is given: the same steps with the allocations left out.  The
    theorems below show that the executors on references return these
    results and only add frames to the store. *)

Definition value_time_filters (d : DataFrame) (tf : TimeFilters)
  : exn + DataFrame :=
  match quarter tf, month tf with
  | None, None => inr d
  | _, _ =>
      match select_dtypes DDateTime d with
      | [] => inr d
      | date_col :: _ =>
          ebind (match quarter tf with
                 | Some q =>
                     ebind (frame_dt_eq d date_col quarter_of q)
                           (fun mask => inr (frame_select d mask))
                 | None => inr d
                 end)
                (fun d1 =>
                   match month tf with
                   | Some m =>
                       ebind (frame_dt_eq d1 date_col ts_month m)
                             (fun mask => inr (frame_select d1 mask))
                   | None => inr d1
                   end)
      end
  end.

Definition value_aggregation (d : DataFrame) (parsed_query : ParsedQuery)
  : QueryResult :=
  handle ErrorInAggregation
    (let agg_type := aggregation_type parsed_query in
     match or_first_numeric d (columns parsed_query) with
     | None => inr (Error NoNumericColumnsForAggregation)
     | Some columns =>
         ebind (value_time_filters d (time_filters parsed_query))
           (fun fd0 =>
         ebind (value_conditions (fun _ col => mem col (column_names d))
                                 (conditions parsed_query) columns fd0)
           (fun fd =>
         ebind (efold (fun results col =>
                         match find_column col (df_columns fd) 0 with
                         | Some (i, t) =>
                             if is_aggregation agg_type then
                               ebind (series_reduce agg_type t
                                        (column_cells i (df_rows fd)))
                                     (fun v => inr (dict_set col v results))
                             else inr results
                         | None => inr results
                         end)
                      columns [])
           (fun results =>
         inr (Aggregation agg_type columns results
                          (List.length (df_rows fd))
                          (List.length (df_rows d))))))
     end).

Definition value_groupby (d : DataFrame) (parsed_query : ParsedQuery)
  : QueryResult :=
  handle ErrorInGroupby
    (let present := filter (fun col => mem col (column_names d))
                           (columns parsed_query) in
     let grouping_cols := filter (is_object_column d) present in
     let agg_cols := filter (fun col => negb (is_object_column d col))
                            present in
     match grouping_cols with
     | [] => inr (Error NoGroupingColumns)
     | _ =>
         match or_first_numeric d agg_cols with
         | None => inr (Error NoNumericColumnsForAggregation)
         | Some agg_cols =>
             ebind (groupby_agg d grouping_cols agg_cols)
                   (fun grouped =>
                      inr (Groupby grouping_cols agg_cols (firstn 20 grouped)
                                   (List.length grouped)))
         end
     end).

(** The result of a query on the frame [d] of the sheet it addresses. *)
Definition value_query (d : DataFrame) (query : string) : QueryResult :=
  let parsed_query := _parse_natural_language_query query d in
  let t := type parsed_query in
  if String.eqb t "aggregation" then value_aggregation d parsed_query
  else if String.eqb t "filter" then value_filter d parsed_query
  else if String.eqb t "groupby" then value_groupby d parsed_query
  else if String.eqb t "top_n" then value_top_n d parsed_query
  else if String.eqb t "comparison"
  then Placeholder "comparison" "Comparison queries not yet implemented"
  else if String.eqb t "trend"
  then Placeholder "trend" "Trend analysis not yet implemented"
  else value_general d parsed_query.

(** The frame a call addresses, by the same steps as
    [natural_language_query], or the error that ends the call before
    any frame is looked at. *)
Definition addressed_frame (s : Store) (sheet_name : option string)
  : error_kind + DataFrame :=
  match sheets s with
  | [] => inl NoExcelFileLoaded
  | (first_sheet, _) :: _ =>
      let given := match sheet_name with Some n => n | None => "" end in
      if truthy sheet_name && negb (mem given (map fst (sheets s)))
      then inl (SheetNotFound given)
      else
        match sheet_frame (if truthy sheet_name then given else first_sheet)
                          (sheets s) with
        | None => inl (ErrorProcessingQuery KeyError)
        | Some df =>
            match nth_error (objects s) df with
            | Some d => inr d
            | None => inl (ErrorProcessingQuery ReferenceLost)
            end
        end
  end.

(** The result of a call of [natural_language_query] in the store [s]. *)
Definition value_natural_language_query (s : Store) (query : string)
           (sheet_name : option string) : QueryResult :=
  match addressed_frame s sheet_name with
  | inr d => value_query d query
  | inl k => Error k
  end.

End Executor.

(** ** Formula generation *)

(** Python's double quote, which some formulas and examples hold. *)
Definition dq : string := String (Ascii.ascii_of_nat 34) EmptyString.

(** One entry of [formula_patterns]. *)
Record FormulaPattern : Type := {
  formula_keywords : list string;
  formula_examples : list string
}.

Definition formula_patterns : list (string * FormulaPattern) :=
  [ ("sum",
     {| formula_keywords := ["sum"; "total"; "add"; "calculate total"];
        formula_examples :=
          [ "=SUM(A2:A100)";
            ("=SUMIF(A2:A100, " ++ dq ++ ">0" ++ dq ++ ", B2:B100)")%string;
            ("=SUMIFS(C2:C100, A2:A100, " ++ dq ++ "Product A" ++ dq
             ++ ", B2:B100, " ++ dq ++ ">100" ++ dq ++ ")")%string ] |});
    ("average",
     {| formula_keywords := ["average"; "mean"; "avg"];
        formula_examples :=
          [ "=AVERAGE(A2:A100)";
            ("=AVERAGEIF(A2:A100, " ++ dq ++ ">0" ++ dq ++ ")")%string;
            ("=AVERAGEIFS(C2:C100, A2:A100, " ++ dq ++ "Product A" ++ dq
             ++ ")")%string ] |});
    ("count",
     {| formula_keywords := ["count"; "number of"; "how many"];
        formula_examples :=
          [ "=COUNT(A2:A100)";
            ("=COUNTIF(A2:A100, " ++ dq ++ "Product A" ++ dq ++ ")")%string;
            ("=COUNTIFS(A2:A100, " ++ dq ++ "Product A" ++ dq
             ++ ", B2:B100, " ++ dq ++ ">100" ++ dq ++ ")")%string ] |});
    ("lookup",
     {| formula_keywords := ["lookup"; "find"; "vlookup"; "hlookup";
                             "index match"];
        formula_examples :=
          [ "=VLOOKUP(A2, B2:D100, 3, FALSE)";
            "=INDEX(C2:C100, MATCH(A2, B2:B100, 0))";
            "=HLOOKUP(A2, B2:D10, 3, FALSE)" ] |});
    ("conditional",
     {| formula_keywords := ["if"; "conditional"; "when"; "based on"];
        formula_examples :=
          [ ("=IF(A2>100, " ++ dq ++ "High" ++ dq ++ ", " ++ dq ++ "Low" ++ dq
             ++ ")")%string;
            ("=IFS(A2>100, " ++ dq ++ "High" ++ dq ++ ", A2>50, " ++ dq
             ++ "Medium" ++ dq ++ ", TRUE, " ++ dq ++ "Low" ++ dq
             ++ ")")%string;
            ("=SWITCH(A2, 1, " ++ dq ++ "One" ++ dq ++ ", 2, " ++ dq ++ "Two"
             ++ dq ++ ", " ++ dq ++ "Other" ++ dq ++ ")")%string ] |});
    ("date",
     {| formula_keywords := ["date"; "time"; "month"; "year"; "quarter"];
        formula_examples :=
          [ "=MONTH(A2)"; "=YEAR(A2)"; "=QUARTER(A2)";
            ("=DATEDIF(A2, B2, " ++ dq ++ "D" ++ dq ++ ")")%string;
            "=EOMONTH(A2, 0)" ] |});
    ("text",
     {| formula_keywords := ["text"; "string"; "concatenate"; "join"];
        formula_examples :=
          [ ("=CONCATENATE(A2, " ++ dq ++ " " ++ dq ++ ", B2)")%string;
            ("=A2&" ++ dq ++ " " ++ dq ++ "&B2")%string;
            "=LEFT(A2, 5)"; "=RIGHT(A2, 3)"; "=MID(A2, 2, 4)"; "=UPPER(A2)";
            "=LOWER(A2)"; "=PROPER(A2)" ] |});
    ("financial",
     {| formula_keywords := ["profit"; "margin"; "percentage"; "rate";
                             "interest"];
        formula_examples :=
          [ "=A2/B2"; "=(A2-B2)/A2"; "=PMT(rate/12, nper*12, pv)";
            "=FV(rate, nper, pmt, pv)"; "=PV(rate, nper, pmt, fv)" ] |}) ].

(** The loop that finds the formula type: the first entry, in declaration
    order, one of whose keywords occurs in the lower-cased request, and
    ['general'] when none does. *)
Fixpoint first_formula_type (ps : list (string * FormulaPattern))
         (request_lower : string) : string :=
  match ps with
  | [] => "general"
  | (formula_type, pattern) :: rest =>
      if Str.any_in (formula_keywords pattern) request_lower then formula_type
      else first_formula_type rest request_lower
  end.

(** [formula_patterns.get(matched_type, {}).get('examples', [])]. *)
Fixpoint examples_of (matched_type : string)
         (ps : list (string * FormulaPattern)) : list string :=
  match ps with
  | [] => []
  | (formula_type, pattern) :: rest =>
      if String.eqb matched_type formula_type then formula_examples pattern
      else examples_of matched_type rest
  end.

Definition tips : list (string * list string) :=
  [ ("sum",
     [ "Use SUMIF for conditional summing";
       "Use SUMIFS for multiple conditions";
       "SUM ignores text and empty cells" ]);
    ("average",
     [ "AVERAGE ignores empty cells";
       "Use AVERAGEIF for conditional averaging";
       "Consider using MEDIAN for skewed data" ]);
    ("lookup",
     [ "VLOOKUP searches left to right only";
       "INDEX-MATCH is more flexible";
       "Always use FALSE for exact matches in VLOOKUP" ]);
    ("conditional",
     [ "Nest IF functions for complex logic";
       "Use IFS for multiple conditions (Excel 2019+)";
       "Consider SWITCH for multiple values" ]);
    ("date",
     [ "Excel stores dates as numbers";
       "Use DATE function to create dates";
       "DATEDIF calculates date differences" ]);
    ("text",
     [ "Use & operator for simple concatenation";
       "TRIM removes extra spaces";
       "SUBSTITUTE replaces text" ]);
    ("financial",
     [ "Use absolute references ($) for constants";
       "PMT calculates loan payments";
       "FV calculates future value" ]) ].

(** [tips.get(formula_type, default)]. *)
Definition _get_formula_usage_tips (formula_type : string) : list string :=
  match find (fun entry => String.eqb formula_type (fst entry)) tips with
  | Some (_, ts) => ts
  | None => [ "Test your formula with sample data";
              "Use F9 to evaluate parts of formulas" ]
  end.

(** The [if/elif] chain on the matched type and, inside each branch, on
    words of the request: the formula and its explanation. *)
Definition formula_and_explanation (matched_type request_lower : string)
  : string * string :=
  let has := fun word => Str.str_in word request_lower in
  if String.eqb matched_type "sum" then
    if has "if" then
      ("=SUMIF(range, criteria, sum_range)",
       "SUMIF adds values in a range that meet a single criterion")
    else if has "ifs" then
      ("=SUMIFS(sum_range, criteria_range1, criteria1, criteria_range2, criteria2)",
       "SUMIFS adds values in a range that meet multiple criteria")
    else ("=SUM(range)", "SUM adds all numbers in a range")
  else if String.eqb matched_type "average" then
    if has "if" then
      ("=AVERAGEIF(range, criteria)",
       "AVERAGEIF calculates the average of values that meet a criterion")
    else ("=AVERAGE(range)",
          "AVERAGE calculates the arithmetic mean of values")
  else if String.eqb matched_type "lookup" then
    if has "vlookup" then
      ("=VLOOKUP(lookup_value, table_array, col_index_num, [range_lookup])",
       "VLOOKUP searches for a value in the first column of a table and returns a value in the same row from another column")
    else if has "index" && has "match" then
      ("=INDEX(return_range, MATCH(lookup_value, lookup_range, 0))",
       "INDEX-MATCH is more flexible than VLOOKUP and can search in any column")
    else ("=VLOOKUP(lookup_value, table_array, col_index_num, FALSE)",
          "VLOOKUP for exact match (recommended)")
  else if String.eqb matched_type "conditional" then
    if has "multiple" || has "several" then
      ("=IFS(condition1, result1, condition2, result2, ...)",
       "IFS evaluates multiple conditions and returns the first TRUE result")
    else ("=IF(condition, value_if_true, value_if_false)",
          "IF performs a logical test and returns one value if TRUE, another if FALSE")
  else if String.eqb matched_type "date" then
    if has "month" then
      ("=MONTH(date)", "MONTH extracts the month number (1-12) from a date")
    else if has "year" then
      ("=YEAR(date)", "YEAR extracts the year from a date")
    else if has "quarter" then
      ("=ROUNDUP(MONTH(date)/3, 0)", "Calculates quarter (1-4) from a date")
    else ("=TODAY()", "TODAY returns the current date")
  else if String.eqb matched_type "text" then
    if has "join" || has "concatenate" then
      (("=CONCATENATE(text1, text2, ...) or =A1&" ++ dq ++ " " ++ dq
        ++ "&B1")%string,
       "Concatenates multiple text strings into one")
    else if has "upper" then ("=UPPER(text)", "Converts text to uppercase")
    else if has "lower" then ("=LOWER(text)", "Converts text to lowercase")
    else ("=LEFT(text, num_chars)",
          "LEFT extracts characters from the beginning of a text string")
  else if String.eqb matched_type "financial" then
    if has "margin" then
      ("=(revenue - cost) / revenue",
       "Profit margin = (Revenue - Cost) / Revenue")
    else if has "percentage" then
      ("=part / total", "Percentage = Part / Total")
    else ("=A2/B2", "Basic division for financial calculations")
  else ("=SUM(A2:A100)", "Basic SUM formula - modify as needed").

(** The dictionary [generate_formula] returns; its body raises nothing, so
    the [error] dictionary of its handler is never returned. *)
Record FormulaResult : Type := {
  formula : string;
  explanation : string;
  category : string;
  examples : list string;
  usage_tips : list string
}.

Definition generate_formula (request : string) : FormulaResult :=
  let request_lower := Str.lower request in
  let matched_type := first_formula_type formula_patterns request_lower in
  let '(formula, explanation) :=
    formula_and_explanation matched_type request_lower in
  {| formula := formula;
     explanation := explanation;
     category := matched_type;
     examples := examples_of matched_type formula_patterns;
     usage_tips := _get_formula_usage_tips matched_type |}.

(** ** Cleaning *)

(** A column taken out of a frame, [df[col]]: its kind and its cells. *)
Definition Series : Type := (dtype * list cell)%type.

(** The list [l] with [x] at the position [i]. *)
Fixpoint set_nth {A} (i : nat) (x : A) (l : list A) : list A :=
  match i, l with
  | O, _ :: rest => x :: rest
  | S k, y :: rest => y :: set_nth k x rest
  | _, [] => []
  end.

Definition frame_getitem (d : DataFrame) (col : string) : exn + Series :=
  match find_column col (df_columns d) 0 with
  | Some (i, t) => inr (t, column_cells i (df_rows d))
  | None => inl KeyError
  end.

(** [df[col] = sr]: the column takes the kind and the cells of the
    series, row by row, a row the series has no cell for getting a null;
    a name the frame does not have becomes a new last column. *)
Definition frame_setitem (d : DataFrame) (col : string) (sr : Series)
  : DataFrame :=
  let cell_at := fun k => nth k (snd sr) CNull in
  match find_column col (df_columns d) 0 with
  | Some (i, _) =>
      {| df_columns := set_nth i (col, fst sr) (df_columns d);
         df_rows := map (fun '(k, row) => set_nth i (cell_at k) row)
                        (enumerate (df_rows d)) |}
  | None =>
      {| df_columns := df_columns d ++ [(col, fst sr)];
         df_rows := map (fun '(k, row) => row ++ [cell_at k])
                        (enumerate (df_rows d)) |}
  end.

(** [df.shape]. *)
Definition frame_shape (d : DataFrame) : nat * nat :=
  (List.length (df_rows d), List.length (df_columns d)).

(** *** drop_duplicates *)

(** Two rows of a frame with [width] columns hold equal cells; nulls are
    equal to each other. *)
Definition row_eqb (width : nat) (a b : list cell) : bool :=
  forallb (fun i => cell_eqb (nth i a CNull) (nth i b CNull)) (seq 0 width).

(** [df.duplicated()], with [keep='first']: the rows equal to a row met
    before. *)
Fixpoint duplicated_from (width : nat) (seen rows : list (list cell))
  : list bool :=
  match rows with
  | [] => []
  | row :: rest =>
      existsb (row_eqb width row) seen
      :: duplicated_from width (seen ++ [row]) rest
  end.

Definition frame_duplicated (d : DataFrame) : list bool :=
  duplicated_from (List.length (df_columns d)) [] (df_rows d).

(** [df.drop_duplicates()]: [df[~df.duplicated()]], and the frame as it is
    when it has no row or no column. *)
Definition frame_drop_duplicates (d : DataFrame) : DataFrame :=
  match df_columns d, df_rows d with
  | [], _ | _, [] => d
  | _, _ => frame_select d (map negb (frame_duplicated d))
  end.

(** *** Missing values *)

(** [df.isnull().sum().sum()]: the nulls of each column, added up. *)
Definition isnull_sum (d : DataFrame) : Z :=
  fold_left Z.add
            (map (fun i => Z.of_nat (List.length
                                       (filter is_null
                                               (column_cells i (df_rows d)))))
                 (seq 0 (List.length (df_columns d))))
            0%Z.

(** [sr.fillna(v)]; filling with NaN changes nothing. *)
Definition fillna (sr : Series) (v : cell) : Series :=
  (fst sr, map (fun c => if is_null c then v else c) (snd sr)).

Definition texts (cells : list cell) : list string :=
  flat_map (fun c => match c with CText s => [s] | _ => [] end) cells.

Definition occurrences (x : string) (xs : list string) : nat :=
  List.length (filter (String.eqb x) xs).

Fixpoint insert_text (x : string) (l : list string) : list string :=
  match l with
  | [] => [x]
  | y :: rest =>
      if String.eqb x y then l
      else if String.leb x y then x :: l
      else y :: insert_text x rest
  end.

(** [sr.mode()] of a column of texts: the texts that occur most often,
    nulls apart, each once and in increasing order. *)
Definition mode (cells : list cell) : list cell :=
  let xs := texts cells in
  let most := fold_right Nat.max 0%nat (map (fun x => occurrences x xs) xs) in
  map CText
      (fold_right insert_text []
                  (filter (fun x => Nat.eqb (occurrences x xs) most) xs)).

(** *** Text *)

(** [c.upper()] on one ASCII character. *)
Definition upper_char (c : ascii) : ascii :=
  let n := nat_of_ascii c in
  if (97 <=? n)%nat && (n <=? 122)%nat then ascii_of_nat (n - 32) else c.

(** The cased characters of ASCII: the letters. *)
Definition is_cased (c : ascii) : bool :=
  let n := nat_of_ascii c in
  ((65 <=? n)%nat && (n <=? 90)%nat) || ((97 <=? n)%nat && (n <=? 122)%nat).

(** [s.title()] on ASCII text: a cased character is put in upper case
    when the character before it is not cased, and in lower case
    otherwise.  The cased characters are the letters [A-Z] and [a-z];
    a character above 127 is kept as it is, so that a text is rendered
    as Python does only when all its characters are ASCII. *)
Fixpoint title_from (previous_is_cased : bool) (s : string) : string :=
  match s with
  | EmptyString => EmptyString
  | String c t =>
      String (if previous_is_cased then Str.lower_char c else upper_char c)
             (title_from (is_cased c) t)
  end.

Definition title (s : string) : string := title_from false s.

Fixpoint lstrip (s : string) : string :=
  match s with
  | EmptyString => EmptyString
  | String c t => if Str.is_space c then lstrip t else s
  end.

Fixpoint rstrip (s : string) : string :=
  match s with
  | EmptyString => EmptyString
  | String c t =>
      match rstrip t with
      | EmptyString => if Str.is_space c then EmptyString
                       else String c EmptyString
      | t' => String c t'
      end
  end.

(** [s.strip()]. *)
Definition strip (s : string) : string := rstrip (lstrip s).

(** [sr.str.strip()] and [sr.str.title()]: element by element on the
    texts, a null staying null. *)
Definition str_map (f : string -> string) (sr : Series) : Series :=
  (DObject, map (fun c => match c with
                          | CText s => CText (f s)
                          | _ => CNull
                          end) (snd sr)).

(** *** Quantiles *)

Fixpoint insert_asc (x : Q) (l : list Q) : list Q :=
  match l with
  | [] => [x]
  | y :: rest => if Qle_bool x y then x :: l else y :: insert_asc x rest
  end.

Definition sort_asc (l : list Q) : list Q := fold_right insert_asc [] l.

(** [sr.quantile(q)] with linear interpolation between the two closest
    ranks of the ordered values; NaN when the column holds no value. *)
Definition quantile (q : Q) (cells : list cell) : option Q :=
  match sort_asc (numbers cells) with
  | [] => None
  | x :: rest =>
      let ordered := x :: rest in
      let h := inject_Z (Z.of_nat (List.length rest)) * q in
      let lo := Z.to_nat (Qfloor h) in
      let a := nth lo ordered x in
      let b := nth (S lo) ordered a in
      Some (Qred (a + (h - inject_Z (Qfloor h)) * (b - a)))
  end.

(** [(sr >= lower_bound) & (sr <= upper_bound)]; a comparison with NaN is
    false everywhere. *)
Definition between (sr : Series) (bounds : option (Q * Q)) : exn + list bool :=
  match bounds with
  | None => inr (map (fun _ => false) (snd sr))
  | Some (lower_bound, upper_bound) =>
      ebind (compare_series (fst sr) OpGe lower_bound (snd sr))
            (fun above =>
               ebind (compare_series (fst sr) OpLe upper_bound (snd sr))
                     (fun below =>
                        inr (map (fun '(x, y) => x && y)
                                 (combine above below))))
  end.

(** *** The cleaning report *)

(** A value of [changes_made]: a count, or [True]. *)
Inductive change : Type :=
| Count (n : Z)
| Flag.

Record CleaningReport : Type := {
  operations_performed : list string;
  changes_made : list (string * change);
  original_shape : nat * nat;
  final_shape : nat * nat
}.

(** [changes_made[k] = v], the dictionary kept in insertion order. *)
Fixpoint changes_set (k : string) (v : change) (d : list (string * change))
  : list (string * change) :=
  match d with
  | [] => [(k, v)]
  | (k', v') :: rest =>
      if String.eqb k k' then (k, v) :: rest
      else (k', v') :: changes_set k v rest
  end.

(** The two lines that end every branch of the loop:
    [operations_performed.append(name)] and [changes_made[key] = v]. *)
Definition performed (name key : string) (v : change)
           (report : CleaningReport) : CleaningReport :=
  {| operations_performed := operations_performed report ++ [name];
     changes_made := changes_set key v (changes_made report);
     original_shape := original_shape report;
     final_shape := final_shape report |}.

Definition with_final_shape (shape : nat * nat) (report : CleaningReport)
  : CleaningReport :=
  {| operations_performed := operations_performed report;
     changes_made := changes_made report;
     original_shape := original_shape report;
     final_shape := shape |}.

(** What [clean_data] returns: one of the two errors found before any
    frame is looked at, the error of the handler, or the report with the
    preview of the cleaned frame.  The [summary] text is left out. *)
Inductive CleanResult : Type :=
| NotCleaned (kind : error_kind)
| ErrorCleaningData (e : exn)
| Cleaned (cleaning_report : CleaningReport) (data_preview : list record).

(** *** Statements on frame objects *)

(** The object at [l] becomes [d]. *)
Definition write (l : loc) (d : DataFrame) : M unit :=
  fun s => match nth_error (objects s) l with
           | Some _ => (inr tt, {| sheets := sheets s;
                                   objects := set_nth l d (objects s) |})
           | None => (inl ReferenceLost, s)
           end.

(** A statement that changes the object [df] in place, as
    [df[col] = ...] does: [f] gives the new content from the old. *)
Definition update (df : loc) (f : DataFrame -> exn + DataFrame) : M unit :=
  d <- read df ;; d' <- lift (f d) ;; write df d'.

(** A statement that makes a new object out of [df], as
    [df.drop_duplicates()] and [df[mask]] do. *)
Definition derive (df : loc) (f : DataFrame -> exn + DataFrame) : M loc :=
  d <- read df ;; d' <- lift (f d) ;; new_frame d'.

(** A value read off the object [df]. *)
Definition inspect {A} (df : loc) (f : DataFrame -> A) : M A :=
  d <- read df ;; ret (f d).

(** The sheets with the frame of the sheet [name] replaced by [df]. *)
Definition repoint (name : string) (df : loc) (ss : list (string * loc))
  : list (string * loc) :=
  map (fun '(k, l) => if String.eqb name k then (k, df) else (k, l)) ss.

(** [self.sheets[name]['dataframe'] = df]. *)
Definition set_sheet (name : string) (df : loc) : M unit :=
  fun s => (inr tt, {| sheets := repoint name df (sheets s);
                       objects := objects s |}).

(** [df[col] = df[col].fillna(df[col].mean())]. *)
Definition fill_with_mean (col : string) (d : DataFrame) : exn + DataFrame :=
  ebind (frame_getitem d col)
        (fun sr => inr (frame_setitem d col
                                      (fillna sr (numeric_mean (snd sr))))).

(** [mode_value = df[col].mode()[0] if len(df[col].mode()) > 0 else
    'Unknown'; df[col] = df[col].fillna(mode_value)]. *)
Definition fill_with_mode (col : string) (d : DataFrame) : exn + DataFrame :=
  ebind (frame_getitem d col)
        (fun sr =>
           let mode_value := match mode (snd sr) with
                             | m :: _ => m
                             | [] => CText "Unknown"
                             end in
           inr (frame_setitem d col (fillna sr mode_value))).

(** [df[col] = df[col].str.strip()] and [df[col] = df[col].str.title()]. *)
Definition str_column (f : string -> string) (col : string) (d : DataFrame)
  : exn + DataFrame :=
  ebind (frame_getitem d col)
        (fun sr => inr (frame_setitem d col (str_map f sr))).

(** The five lines that [_detect_outliers] and the outlier loop of
    [clean_data] share: the quartiles, their distance and the two bounds,
    which are NaN when the column holds no value. *)
Definition iqr_bounds (cells : list cell) : option (Q * Q) :=
  match quantile (1 # 4) cells, quantile (3 # 4) cells with
  | Some Q1, Some Q3 =>
      let IQR := Q3 - Q1 in
      Some (Q1 - (3 # 2) * IQR, Q3 + (3 # 2) * IQR)
  | _, _ => None
  end.

(** The bounds and the selection of the outlier loop:
    [df[(df[col] >= lower_bound) & (df[col] <= upper_bound)]]. *)
Definition within_bounds (col : string) (d : DataFrame) : exn + DataFrame :=
  ebind (frame_getitem d col)
        (fun sr =>
           ebind (between sr (iqr_bounds (snd sr)))
                 (fun mask => inr (frame_select d mask))).

(** [(sr < lower_bound) | (sr > upper_bound)]. *)
Definition outside (sr : Series) (bounds : option (Q * Q)) : exn + list bool :=
  match bounds with
  | None => inr (map (fun _ => false) (snd sr))
  | Some (lower_bound, upper_bound) =>
      ebind (compare_series (fst sr) OpLt lower_bound (snd sr))
            (fun below =>
               ebind (compare_series (fst sr) OpGt upper_bound (snd sr))
                     (fun above =>
                        inr (map (fun '(x, y) => x || y)
                                 (combine below above))))
  end.

(** The dictionary [_detect_outliers] returns. *)
Record OutlierReport : Type := {
  outlier_count : nat;
  outlier_percentage : Q;
  outlier_values : list cell
}.

(** The division of [len(outliers)] by [len(series)] is one of Python
    integers, which raises for an empty series. *)
Definition _detect_outliers (series : Series) : exn + OutlierReport :=
  ebind (outside series (iqr_bounds (snd series)))
        (fun mask =>
           let outliers := select_rows mask (snd series) in
           match List.length (snd series) with
           | O => inl ZeroDivisionError
           | S _ =>
               inr {| outlier_count := List.length outliers;
                      outlier_percentage :=
                        Qred (inject_Z (Z.of_nat (List.length outliers))
                              / inject_Z (Z.of_nat (List.length (snd series)))
                              * 100);
                      outlier_values := outliers |}
           end).

Section Cleaning.

(** The conversions of pandas whose outcome depends on how a text reads
    as a number, a date or an amount are not fixed by this development:
    the cleaning is defined for any of them.  [to_numeric coerce sr] is
    [pd.to_numeric(sr, errors='coerce')] when [coerce] is set and
    [pd.to_numeric(sr, errors='raise')] otherwise; [to_datetime sr] is
    [pd.to_datetime(sr, errors='coerce')]; [astype_str sr] is
    [sr.astype(str)]; [strftime sr] is
    [pd.to_datetime(sr).dt.strftime('%Y-%m-%d')]; [replace_currency sr] is
    [sr.astype(str).str.replace(currency_pattern, ...)]. *)
Variable to_numeric : bool -> Series -> exn + Series.
Variable to_datetime : Series -> exn + Series.
Variable astype_str : Series -> Series.
Variable strftime : Series -> exn + Series.
Variable replace_currency : Series -> exn + Series.

(** The body of the conversion loop: the two nested [try] blocks, whose
    bare [except] clauses catch every exception. *)
Definition convert_column (col : string) (d : DataFrame) : exn + DataFrame :=
  ebind (frame_getitem d col)
        (fun sr =>
           match ebind (to_numeric false sr) (fun _ => to_numeric true sr) with
           | inr converted => inr (frame_setitem d col converted)
           | inl _ =>
               match to_datetime sr with
               | inr converted => inr (frame_setitem d col converted)
               | inl _ => inr (frame_setitem d col (astype_str sr))
               end
           end).

(** [df[col] = pd.to_datetime(df[col]).dt.strftime('%Y-%m-%d')]. *)
Definition strftime_column (col : string) (d : DataFrame) : exn + DataFrame :=
  ebind (frame_getitem d col)
        (fun sr => ebind (strftime sr)
                         (fun formatted => inr (frame_setitem d col formatted))).

(** [if df[col].dtype == 'object': df[col] = df[col].astype(str)
    .str.replace(currency_pattern, ...)]. *)
Definition currency_column (col : string) (d : DataFrame) : exn + DataFrame :=
  if is_object_column d col then
    ebind (frame_getitem d col)
          (fun sr => ebind (replace_currency sr)
                           (fun replaced => inr (frame_setitem d col replaced)))
  else inr d.

(** *** The six operations, on a frame object *)

(** Each gives the object [df] is bound to afterwards and the value put
    in [changes_made]. *)
Definition remove_duplicates (df : loc) : M (loc * change) :=
  before_count <- len df ;;
  df <- derive df (fun d => inr (frame_drop_duplicates d)) ;;
  after_count <- len df ;;
  ret (df, Count (Z.of_nat before_count - Z.of_nat after_count)).

Definition fill_missing_values (df : loc) : M (loc * change) :=
  missing_before <- inspect df isnull_sum ;;
  numeric_cols <- inspect df (select_dtypes DNumeric) ;;
  _ <- foldM (fun _ col => update df (fill_with_mean col)) numeric_cols tt ;;
  text_cols <- inspect df (select_dtypes DObject) ;;
  _ <- foldM (fun _ col => update df (fill_with_mode col)) text_cols tt ;;
  missing_after <- inspect df isnull_sum ;;
  ret (df, Count (missing_before - missing_after)).

Definition convert_data_types (df : loc) : M (loc * change) :=
  cols <- inspect df column_names ;;
  _ <- foldM (fun _ col => update df (convert_column col)) cols tt ;;
  ret (df, Flag).

Definition normalize_text (df : loc) : M (loc * change) :=
  text_cols <- inspect df (select_dtypes DObject) ;;
  _ <- foldM (fun _ col =>
                _ <- update df (str_column strip col) ;;
                update df (str_column title col))
             text_cols tt ;;
  ret (df, Count (Z.of_nat (List.length text_cols))).

Definition remove_outliers (df : loc) : M (loc * change) :=
  numeric_cols <- inspect df (select_dtypes DNumeric) ;;
  st <- foldM (fun st col =>
                 before_count <- len (fst st) ;;
                 df <- derive (fst st) (within_bounds col) ;;
                 after_count <- len df ;;
                 ret (df, (snd st + (Z.of_nat before_count
                                     - Z.of_nat after_count))%Z))
              numeric_cols (df, 0%Z) ;;
  ret (fst st, Count (snd st)).

Definition standardize_format (df : loc) : M (loc * change) :=
  date_cols <- inspect df (select_dtypes DDateTime) ;;
  _ <- foldM (fun _ col => update df (strftime_column col)) date_cols tt ;;
  cols <- inspect df column_names ;;
  _ <- foldM (fun _ col => update df (currency_column col)) cols tt ;;
  ret (df, Flag).

(** The [if/elif] chain of the loop over the operations; an operation
    that holds none of the six names is passed over. *)
Definition clean_operation (st : loc * CleaningReport) (operation : string)
  : M (loc * CleaningReport) :=
  let report := snd st in
  let operation_lower := Str.lower operation in
  let branch := fun (name key : string) (run : loc -> M (loc * change)) =>
                  r <- run (fst st) ;;
                  ret (fst r, performed name key (snd r) report) in
  if Str.str_in "remove_duplicates" operation_lower then
    branch "remove_duplicates" "duplicates_removed" remove_duplicates
  else if Str.str_in "fill_missing_values" operation_lower then
    branch "fill_missing_values" "missing_values_filled" fill_missing_values
  else if Str.str_in "convert_data_types" operation_lower then
    branch "convert_data_types" "data_types_converted" convert_data_types
  else if Str.str_in "normalize_text" operation_lower then
    branch "normalize_text" "text_normalized" normalize_text
  else if Str.str_in "remove_outliers" operation_lower then
    branch "remove_outliers" "outliers_removed" remove_outliers
  else if Str.str_in "standardize_format" operation_lower then
    branch "standardize_format" "format_standardized" standardize_format
  else ret st.

Definition clean_data (operations : list string) (sheet_name : option string)
  : M CleanResult :=
  catch
    (ss <- get_sheets ;;
     match ss with
     | [] => ret (NotCleaned NoExcelFileLoaded)
     | (first_sheet, _) :: _ =>
         let given := match sheet_name with Some n => n | None => "" end in
         if truthy sheet_name && negb (mem given (map fst ss))
         then ret (NotCleaned (SheetNotFound given))
         else
           let name := if truthy sheet_name then given else first_sheet in
           match sheet_frame name ss with
           | None => raise KeyError
           | Some loaded =>
               df <- copy loaded ;;
               original_shape <- inspect df frame_shape ;;
               let cleaning_report :=
                 {| operations_performed := [];
                    changes_made := [];
                    original_shape := original_shape;
                    final_shape := original_shape |} in
               st <- foldM clean_operation operations (df, cleaning_report) ;;
               _ <- set_sheet name (fst st) ;;
               final_shape <- inspect (fst st) frame_shape ;;
               shown <- head (fst st) 10 ;;
               data_preview <- to_dict_records shown ;;
               ret (Cleaned (with_final_shape final_shape (snd st))
                            data_preview)
           end
     end)
    (fun e => ret (ErrorCleaningData e)).

(** *** The six operations, on a frame value *)

Definition rows_lost (before after : DataFrame) : Z :=
  (Z.of_nat (List.length (df_rows before))
   - Z.of_nat (List.length (df_rows after)))%Z.

Definition value_remove_duplicates (d : DataFrame)
  : exn + (DataFrame * change) :=
  let cleaned := frame_drop_duplicates d in
  inr (cleaned, Count (rows_lost d cleaned)).

Definition value_fill_missing_values (d : DataFrame)
  : exn + (DataFrame * change) :=
  ebind (efold (fun d col => fill_with_mean col d) (select_dtypes DNumeric d) d)
        (fun d1 =>
           ebind (efold (fun d col => fill_with_mode col d)
                        (select_dtypes DObject d1) d1)
                 (fun d2 => inr (d2, Count (isnull_sum d - isnull_sum d2)%Z))).

Definition value_convert_data_types (d : DataFrame)
  : exn + (DataFrame * change) :=
  ebind (efold (fun d col => convert_column col d) (column_names d) d)
        (fun d1 => inr (d1, Flag)).

Definition value_normalize_text (d : DataFrame)
  : exn + (DataFrame * change) :=
  let text_cols := select_dtypes DObject d in
  ebind (efold (fun d col => ebind (str_column strip col d)
                                   (str_column title col))
               text_cols d)
        (fun d1 => inr (d1, Count (Z.of_nat (List.length text_cols)))).

Definition value_remove_outliers (d : DataFrame)
  : exn + (DataFrame * change) :=
  ebind (efold (fun (st : DataFrame * Z) col =>
                  ebind (within_bounds col (fst st))
                        (fun kept_rows =>
                           inr (kept_rows,
                                (snd st + rows_lost (fst st) kept_rows)%Z)))
               (select_dtypes DNumeric d) (d, 0%Z))
        (fun st => inr (fst st, Count (snd st))).

Definition value_standardize_format (d : DataFrame)
  : exn + (DataFrame * change) :=
  ebind (efold (fun d col => strftime_column col d)
               (select_dtypes DDateTime d) d)
        (fun d1 =>
           ebind (efold (fun d col => currency_column col d)
                        (column_names d1) d1)
                 (fun d2 => inr (d2, Flag))).

Definition value_operation (st : DataFrame * CleaningReport)
           (operation : string) : exn + (DataFrame * CleaningReport) :=
  let report := snd st in
  let operation_lower := Str.lower operation in
  let branch := fun (name key : string)
                    (run : DataFrame -> exn + (DataFrame * change)) =>
                  ebind (run (fst st))
                        (fun r => inr (fst r,
                                       performed name key (snd r) report)) in
  if Str.str_in "remove_duplicates" operation_lower then
    branch "remove_duplicates" "duplicates_removed" value_remove_duplicates
  else if Str.str_in "fill_missing_values" operation_lower then
    branch "fill_missing_values" "missing_values_filled"
           value_fill_missing_values
  else if Str.str_in "convert_data_types" operation_lower then
    branch "convert_data_types" "data_types_converted"
           value_convert_data_types
  else if Str.str_in "normalize_text" operation_lower then
    branch "normalize_text" "text_normalized" value_normalize_text
  else if Str.str_in "remove_outliers" operation_lower then
    branch "remove_outliers" "outliers_removed" value_remove_outliers
  else if Str.str_in "standardize_format" operation_lower then
    branch "standardize_format" "format_standardized"
           value_standardize_format
  else inr st.

(** The frame and the report at the end of the loop over the
    operations, started on the frame [d]. *)
Definition value_clean (operations : list string) (d : DataFrame)
  : exn + (DataFrame * CleaningReport) :=
  ebind (efold value_operation operations
               (d, {| operations_performed := [];
                      changes_made := [];
                      original_shape := frame_shape d;
                      final_shape := frame_shape d |}))
        (fun st => inr (fst st, with_final_shape (frame_shape (fst st))
                                                 (snd st))).

(** The result of a call of [clean_data] in the store [s]. *)
Definition value_clean_data (s : Store) (operations : list string)
           (sheet_name : option string) : CleanResult :=
  match addressed_frame s sheet_name with
  | inr d =>
      match value_clean operations d with
      | inr (cleaned, report) =>
          Cleaned report (records_of (frame_head cleaned 10))
      | inl e => ErrorCleaningData e
      end
  | inl (ErrorProcessingQuery e) => ErrorCleaningData e
  | inl kind => NotCleaned kind
  end.

End Cleaning.

(** ** Validation *)

(** One entry of the rules of a column.  The values are taken with the
    types the rules are written for: a truth value for [required] and
    [unique], a number for [min] and [max], a pattern for [pattern], two
    numbers for [in_range]; a rule of any other type is [OtherRule]. *)
Inductive Rule : Type :=
| Required (rule_value : bool)
| MinRule (rule_value : pyval)
| MaxRule (rule_value : pyval)
| PatternRule (rule_value : string)
| UniqueRule (rule_value : bool)
| InRangeRule (low high : pyval)
| OtherRule (rule_type : string).

(** The messages of the validation, by the values they are built from. *)
Inductive ValidationError : Type :=
| ColumnNotFound (column : string)
| NullValuesFound (null_count : nat)
| BelowMinimum (below_min : nat) (rule_value : pyval)
| AboveMaximum (above_max : nat) (rule_value : pyval)
| PatternMismatch (invalid_pattern : nat) (rule_value : string)
| DuplicateValuesFound (duplicates : nat)
| OutOfRange (out_of_range : nat) (low high : pyval).

Record ColValidation : Type := {
  column : string;
  total_rows : nat;
  valid_rows : Z;
  invalid_rows : nat;
  col_errors : list ValidationError
}.

Record ValidationResults : Type := {
  passed : bool;
  errors : list ValidationError;
  warnings : list ValidationError;
  summary : list (string * ColValidation)
}.

Inductive ValidationOutcome : Type :=
| NotValidated (kind : error_kind)
| ErrorValidatingData (e : exn)
| Validated (validation_results : ValidationResults).

(** [mask.sum()] for a column of truth values. *)
Definition count_true (mask : list bool) : nat :=
  List.length (filter (fun b => b) mask).

(** [sr.duplicated()]: the cells equal to a cell met before. *)
Definition series_duplicated (sr : Series) : list bool :=
  duplicated_from 1 [] (map (fun c => [c]) (snd sr)).

(** [summary[column] = col_validation], the dictionary kept in insertion
    order. *)
Fixpoint summary_set (k : string) (v : ColValidation)
         (d : list (string * ColValidation)) : list (string * ColValidation) :=
  match d with
  | [] => [(k, v)]
  | (k', v') :: rest =>
      if String.eqb k k' then (k, v) :: rest
      else (k', v') :: summary_set k v rest
  end.

Section Validation.

(** [df[column].astype(str).apply(lambda x: not pattern.match(x))] for
    the compiled pattern, which [re.compile] may refuse. *)
Variable pattern_mismatch : string -> Series -> exn + list bool.

(** What a rule looks at in a column: nothing when its guard is not met
    (a rule switched off, a [min], [max] or [in_range] on a column that
    is not numeric, a [pattern] on a column that is not text, a rule of
    another type), or else the cells it counts, as truth values, and the
    message it gives for a count. *)
Definition rule_mask (sr : Series) (rule : Rule)
  : exn + option (list bool * (nat -> ValidationError)) :=
  let numeric := dtype_eqb (fst sr) DNumeric in
  match rule with
  | Required rule_value =>
      if rule_value then inr (Some (map is_null (snd sr), NullValuesFound))
      else inr None
  | MinRule rule_value =>
      if numeric then
        ebind (compare_series (fst sr) OpLt (pyval_Q rule_value) (snd sr))
              (fun mask => inr (Some (mask, fun n => BelowMinimum n rule_value)))
      else inr None
  | MaxRule rule_value =>
      if numeric then
        ebind (compare_series (fst sr) OpGt (pyval_Q rule_value) (snd sr))
              (fun mask => inr (Some (mask, fun n => AboveMaximum n rule_value)))
      else inr None
  | PatternRule rule_value =>
      if dtype_eqb (fst sr) DObject then
        ebind (pattern_mismatch rule_value sr)
              (fun mask => inr (Some (mask,
                                      fun n => PatternMismatch n rule_value)))
      else inr None
  | UniqueRule rule_value =>
      if rule_value
      then inr (Some (series_duplicated sr, DuplicateValuesFound))
      else inr None
  | InRangeRule low high =>
      if numeric then
        ebind (outside sr (Some (pyval_Q low, pyval_Q high)))
              (fun mask => inr (Some (mask, fun n => OutOfRange n low high)))
      else inr None
  | OtherRule _ => inr None
  end.

(** One turn of the loop over the rules of a column: the count of the
    rule and, when it is positive,
    [col_validation['errors'].append(...)] and
    [col_validation['invalid_rows'] += count]. *)
Definition apply_rule (sr : Series) (cv : ColValidation) (rule : Rule)
  : exn + ColValidation :=
  ebind (rule_mask sr rule)
        (fun looked =>
           match looked with
           | None => inr cv
           | Some (mask, message) =>
               let n := count_true mask in
               if (0 <? n)%nat then
                 inr {| column := column cv;
                        total_rows := total_rows cv;
                        valid_rows := valid_rows cv;
                        invalid_rows := (invalid_rows cv + n)%nat;
                        col_errors := col_errors cv ++ [message n] |}
               else inr cv
           end).

(** The body of the loop over the columns, for a column the frame has. *)
Definition validate_column (d : DataFrame) (col : string) (rules : list Rule)
  : exn + ColValidation :=
  ebind (frame_getitem d col)
        (fun sr =>
           ebind (efold (apply_rule sr) rules
                        {| column := col;
                           total_rows := List.length (df_rows d);
                           valid_rows := 0;
                           invalid_rows := 0;
                           col_errors := [] |})
                 (fun cv =>
                    inr {| column := column cv;
                           total_rows := total_rows cv;
                           valid_rows := (Z.of_nat (total_rows cv)
                                          - Z.of_nat (invalid_rows cv))%Z;
                           invalid_rows := invalid_rows cv;
                           col_errors := col_errors cv |})).

(** One turn of the loop over the columns. *)
Definition validate_rules (d : DataFrame) (results : ValidationResults)
           (entry : string * list Rule) : exn + ValidationResults :=
  let (col, rules) := entry in
  if negb (mem col (column_names d)) then
    inr {| passed := false;
           errors := errors results ++ [ColumnNotFound col];
           warnings := warnings results;
           summary := summary results |}
  else
    ebind (validate_column d col rules)
          (fun cv =>
             inr {| passed := match col_errors cv with
                              | [] => passed results
                              | _ => false
                              end;
                    errors := errors results ++ col_errors cv;
                    warnings := warnings results;
                    summary := summary_set col cv (summary results) |}).

Definition validate_frame (d : DataFrame)
           (validation_rules : list (string * list Rule))
  : exn + ValidationResults :=
  efold (validate_rules d) validation_rules
        {| passed := true; errors := []; warnings := []; summary := [] |}.

Definition validate_data (sheet_name : string)
           (validation_rules : list (string * list Rule))
  : M ValidationOutcome :=
  catch
    (ss <- get_sheets ;;
     match ss with
     | [] => ret (NotValidated NoExcelFileLoaded)
     | _ :: _ =>
         if negb (mem sheet_name (map fst ss))
         then ret (NotValidated (SheetNotFound sheet_name))
         else
           match sheet_frame sheet_name ss with
           | None => raise KeyError
           | Some df =>
               d <- read df ;;
               validation_results <- lift (validate_frame d validation_rules) ;;
               ret (Validated validation_results)
           end
     end)
    (fun e => ret (ErrorValidatingData e)).

End Validation.

(** ** The scenario of the specification *)

(** Columns [Region : Text, Revenue : Float], three rows. *)
Definition sales : DataFrame :=
  {| df_columns := [("Region", DObject); ("Revenue", DNumeric)];
     df_rows := [ [CText "East"; CNum 100];
                  [CText "West"; CNum 200];
                  [CText "East"; CNum 300] ] |}.

(** A chatbot with that table loaded as its only sheet. *)
Definition sales_bot : Store :=
  {| sheets := [("Sheet1", 0%nat)]; objects := [sales] |}.

(** A table to clean: a repeated row, missing values and untidy texts. *)
Definition ledger : DataFrame :=
  {| df_columns := [("Customer", DObject); ("Amount", DNumeric)];
     df_rows := [ [CText " alice smith "; CNum 10];
                  [CText "bob"; CNull];
                  [CText " alice smith "; CNum 10];
                  [CNull; CNum 30] ] |}.

(** A chatbot with two sheets, the sales table and the table to clean. *)
Definition ledger_bot : Store :=
  {| sheets := [("Sales", 0%nat); ("Ledger", 1%nat)];
     objects := [sales; ledger] |}.

(** Columns [Placed : Date, Total : Float], four orders, one undated. *)
Definition orders : DataFrame :=
  {| df_columns := [("Placed", DDateTime); ("Total", DNumeric)];
     df_rows :=
       [ [CDate {| ts_year := 2024; ts_month := 2; ts_day := 10 |}; CNum 50];
         [CDate {| ts_year := 2024; ts_month := 5; ts_day := 3 |}; CNum 70];
         [CNull; CNum 20];
         [CDate {| ts_year := 2025; ts_month := 3; ts_day := 31 |}; CNum 90] ]
  |}.

(** A chatbot with the orders as its only sheet. *)
Definition orders_bot : Store :=
  {| sheets := [("Orders", 0%nat)]; objects := [orders] |}.

(** ** Notions used by the statements *)

Definition keywords_of (qtype : string) : list string :=
  match find (fun p => String.eqb (fst p) qtype) patterns with
  | Some (_, info) => keywords info
  | None => []
  end.


Definition points_to (s : Store) (l : loc) (d : DataFrame) : Prop :=
  nth_error (objects s) l = Some d.

(** [s'] has the sheets of [s] and its frames, untouched, and maybe more. *)
Definition extends (s s' : Store) : Prop :=
  sheets s' = sheets s /\ exists extra, objects s' = objects s ++ extra.

(** [Q] holds of the outcome of [m] run in [s]. *)
Definition wp {A} (m : M A) (s : Store) (Q : exn + A -> Store -> Prop) : Prop :=
  Q (fst (m s)) (snd (m s)).

(** [f], on references, computes what [g] computes on frame values, and
    only adds frames to the store. *)
Definition refines {B} (f : loc -> B -> M loc)
           (g : DataFrame -> B -> exn + DataFrame) : Prop :=
  forall s l d b (Q : exn + loc -> Store -> Prop),
    points_to s l d ->
    (forall s', extends s s' ->
                match g d b with
                | inr d' => forall l', points_to s' l' d' -> Q (inr l') s'
                | inl e => Q (inl e) s'
                end) ->
    wp (f l b) s Q.

(** What an executor is shown to do, run in the store [s]: it returns [result], raises nothing, and only adds frames. *)
Definition returns (m : M QueryResult) (s : Store) (result : QueryResult)
  : Prop :=
  wp m s (fun r s' => r = inr result /\ extends s s').

(** The cells of a frame agree with the kinds of its columns: a row has
    one cell per column, and the cell is null or of the column's kind. *)
Definition cell_has_dtype (t : dtype) (c : cell) : bool :=
  match c, t with
  | CNull, _ => true
  | CNum _, DNumeric => true
  | CDate _, DDateTime => true
  | CText _, DObject => true
  | _, _ => false
  end.

Fixpoint row_typed (ts : list dtype) (row : list cell) : bool :=
  match ts, row with
  | [], [] => true
  | t :: ts', c :: row' => cell_has_dtype t c && row_typed ts' row'
  | _, _ => false
  end.

Definition well_typed (d : DataFrame) : bool :=
  forallb (row_typed (map snd (df_columns d))) (df_rows d).

(** [fd] has the columns of [d] and some of its rows. *)
Definition kept (d fd : DataFrame) : Prop :=
  df_columns fd = df_columns d
  /\ forall row, In row (df_rows fd) -> In row (df_rows d).

(** The plan [pq] without the columns the frame [d] does not have. *)
Definition without_absent (d : DataFrame) (pq : ParsedQuery) : ParsedQuery :=
  {| type := type pq;
     original_query := original_query pq;
     columns := filter (fun col => mem col (column_names d)) (columns pq);
     values := values pq;
     conditions := conditions pq;
     time_filters := time_filters pq;
     aggregation_type := aggregation_type pq |}.

(** Every character of [s] is in the class [p]. *)
Fixpoint all_chars (p : ascii -> bool) (s : string) : bool :=
  match s with
  | EmptyString => true
  | String c t => p c && all_chars p t
  end.

(** A character of the ASCII range. *)
Definition is_ascii (c : ascii) : bool := (nat_of_ascii c <? 128)%nat.

(** Every text the frame holds is written in ASCII. *)
Definition ascii_texts (d : DataFrame) : bool :=
  forallb (forallb (fun c => match c with
                             | CText s => all_chars is_ascii s
                             | _ => true
                             end))
          (df_rows d).

(** The characters a match of a comparison pattern holds after its
    operator: white space, digits and the decimal point. *)
Definition after_operator (c : ascii) : bool :=
  Str.is_space c || Str.is_digit c || Ascii.eqb c ".".

(** [sub] holds exactly the elements of [l] that have the property [P],
    in the order of [l] and as often as they occur there. *)
Inductive chosen {A : Type} (P : A -> Prop) : list A -> list A -> Prop :=
| chosen_nil : chosen P [] []
| chosen_take x l sub : P x -> chosen P l sub -> chosen P (x :: l) (x :: sub)
| chosen_skip x l sub : ~ P x -> chosen P l sub -> chosen P (x :: l) sub.

(** The cell is in the period the filters name: it holds a date of one of
    the three months [3q - 2 .. 3q] of the quarter [q] when a quarter is
    asked for, and a date of the month [m] when a month is; a cell
    without a date is in no period, and with no period asked for every
    cell passes. *)
Definition in_period (tf : TimeFilters) (c : cell) : Prop :=
  (forall q, quarter tf = Some q ->
             exists t, c = CDate t /\ (3 * q - 2 <= ts_month t <= 3 * q)%Z)
  /\ (forall m, month tf = Some m -> exists t, c = CDate t /\ ts_month t = m).

(** The two masks of the calendar filter on one cell of the date column,
    taken together. *)
Definition period_masks (tf : TimeFilters) (c : cell) : bool :=
  match quarter tf with
  | Some q => dt_field_eq quarter_of q c
  | None => true
  end
  && match month tf with
     | Some m => dt_field_eq ts_month m c
     | None => true
     end.

(** The number [a] stands to [b] in the relation the operator names. *)
Definition meets (op : cmp_op) (a b : Q) : Prop :=
  match op with
  | OpGt => b < a
  | OpLt => a < b
  | OpGe => b <= a
  | OpLe => a <= b
  | OpEq => a == b
  end.

(** The row meets every condition in every referenced column the table
    has: the column is not a column of dates, and the row holds in it a
    number that stands to the value of the condition in the relation its
    operator names.  A referenced column the table does not have asks
    nothing of the row. *)
Definition meets_conditions (d : DataFrame) (conds : list Condition)
           (cols : list string) (row : list cell) : Prop :=
  forall c col i t,
    In c conds -> In col cols ->
    nth_error (df_columns d) i = Some (col, t) ->
    t <> DDateTime
    /\ exists q, nth i row CNull = CNum q
                 /\ meets (operator c) q (pyval_Q (value c)).

(** The mask of the comparison [c] on the column [col] of the frame [d],
    computed on one row; a column the frame does not have lets every row
    pass. *)
Definition row_passes (d : DataFrame) (c : Condition) (col : string)
           (row : list cell) : bool :=
  match find_column col (df_columns d) 0 with
  | Some (i, t) =>
      match compare_series t (operator c) (pyval_Q (value c))
                           [nth i row CNull] with
      | inr [true] => true
      | _ => false
      end
  | None => true
  end.

(** The row passes every condition on every referenced column. *)
Definition passes_all (d : DataFrame) (conds : list Condition)
           (cols : list string) (row : list cell) : bool :=
  forallb (fun c => forallb (fun col => row_passes d c col row) cols) conds.

(** The limits on what a result carries: at most 20 rows of a filter or
    of a grouping, at most 10 rows of a preview, and for a top-N result an
    [n] between 1 and 100 and at most [n] rows. *)
Definition within_limits (r : QueryResult) : Prop :=
  match r with
  | Filter _ _ data _ _ _ => (List.length data <= 20)%nat
  | Groupby _ _ data _ => (List.length data <= 20)%nat
  | TopN n _ data =>
      (1 <= n <= 100)%Z /\ (List.length data <= Z.to_nat n)%nat
  | General _ data _ _ _ => (List.length data <= 10)%nat
  | _ => True
  end.

(** The frame object [l] holds [d] in [s] and was made after the store
    was [s0], whose sheets and frames [s] still has. *)
Definition owned (s0 s : Store) (l : loc) (d : DataFrame) : Prop :=
  extends s0 s /\ (List.length (objects s0) <= l)%nat /\ points_to s l d.

(** [m] changes the content of the object [l] as [g] says, and touches
    nothing that was there before [l] was made. *)
Definition updates (m : M unit) (l : loc)
           (g : DataFrame -> exn + DataFrame) : Prop :=
  forall s0 s d (Q : exn + unit -> Store -> Prop),
    owned s0 s l d ->
    match g d with
    | inr d' => forall s', owned s0 s' l d' -> Q (inr tt) s'
    | inl e => forall s', extends s0 s' -> Q (inl e) s'
    end ->
    wp m s Q.

(** [m], started on an object that holds [d], ends on an object that
    holds what [g] gives for [d], the same one or a new one, and touches
    nothing that was there before the first was made. *)
Definition derives {A} (m : loc -> M (loc * A))
           (g : DataFrame -> exn + (DataFrame * A)) : Prop :=
  forall s0 s l d (Q : exn + (loc * A) -> Store -> Prop),
    owned s0 s l d ->
    match g d with
    | inr r => forall l' s', owned s0 s' l' (fst r) -> Q (inr (l', snd r)) s'
    | inl e => forall s', extends s0 s' -> Q (inl e) s'
    end ->
    wp (m l) s Q.

(** The name of the sheet a call addresses: the one given or, when none
    is given, the first sheet. *)
Definition addressed_sheet (s : Store) (sheet_name : option string) : string :=
  if truthy sheet_name then match sheet_name with Some n => n | None => "" end
  else match sheets s with
       | (first_sheet, _) :: _ => first_sheet
       | [] => ""
       end.

(** From [s] to [s'], the sheet [name] was given a new frame object that
    holds [cleaned]; the other sheets and every frame of [s] are as they
    were. *)
Definition committed (s s' : Store) (name : string) (cleaned : DataFrame)
  : Prop :=
  exists l, (List.length (objects s) <= l)%nat
            /\ points_to s' l cleaned
            /\ sheets s' = repoint name l (sheets s).

(** The rows of [rows] that are equal to no row of [seen] and to no row
    before them. *)
Fixpoint first_occurrences (width : nat) (seen rows : list (list cell))
  : list (list cell) :=
  match rows with
  | [] => []
  | row :: rest =>
      if existsb (row_eqb width row) seen
      then first_occurrences width (seen ++ [row]) rest
      else row :: first_occurrences width (seen ++ [row]) rest
  end.

(** No two rows of [rows] hold equal cells. *)
Definition distinct_rows (width : nat) (rows : list (list cell)) : Prop :=
  ForallOrdPairs (fun a b => row_eqb width a b = false) rows.

(** The names of the six operations, in the order the loop of
    [clean_data] tries them. *)
Definition operation_names : list string :=
  [ "remove_duplicates"; "fill_missing_values"; "convert_data_types";
    "normalize_text"; "remove_outliers"; "standardize_format" ].

(** The operation a request stands for: the first of the six names that
    the lower-cased request holds, if any. *)
Definition recognised (operation : string) : option string :=
  find (fun name => Str.str_in name (Str.lower operation)) operation_names.

Definition is_recognised (operation : string) : bool :=
  match recognised operation with Some _ => true | None => false end.

(** The names of the operations that the requests stand for, in order. *)
Definition recognised_names (operations : list string) : list string :=
  flat_map (fun operation => match recognised operation with
                             | Some name => [name]
                             | None => []
                             end) operations.

(** Every row of the frame holds one cell per column. *)
Definition uniform (d : DataFrame) : Prop :=
  Forall (fun row => List.length row = List.length (df_columns d)) (df_rows d).

(** [step], applied to a column of kind [k], replaces the cells of that
    column by what [g] makes of them and leaves the rest of the frame as
    it is. *)
Definition rewrites_column (k : dtype)
           (step : string -> DataFrame -> exn + DataFrame)
           (g : list cell -> list cell) : Prop :=
  forall d col cells,
    uniform d -> frame_getitem d col = inr (k, cells) ->
    exists d1,
      step col d = inr d1
      /\ df_columns d1 = df_columns d
      /\ uniform d1
      /\ List.length (df_rows d1) = List.length (df_rows d)
      /\ frame_getitem d1 col = inr (k, g cells)
      /\ forall col', col' <> col -> frame_getitem d1 col' = frame_getitem d col'.

(** The cells of a column after [fillna(v)]. *)
Definition fill_cells (v : cell) (cells : list cell) : list cell :=
  snd (fillna (DObject, cells) v).

(** What [fill_missing_values] makes of a column of kind [t]: the nulls
    of a numeric column become its mean, those of a text column its
    first mode, or ['Unknown'] when it holds no text, and a column of
    dates stays as it is. *)
Definition filled (t : dtype) (cells : list cell) : list cell :=
  match t with
  | DNumeric => fill_cells (numeric_mean cells) cells
  | DObject => fill_cells (match mode cells with
                           | m :: _ => m
                           | [] => CText "Unknown"
                           end) cells
  | DDateTime => cells
  end.

(** What [normalize_text] makes of a column of kind [t]. *)
Definition normalized (t : dtype) (cells : list cell) : list cell :=
  match t with
  | DObject => map (fun c => match c with
                             | CText s => CText (title (strip s))
                             | _ => CNull
                             end) cells
  | _ => cells
  end.

(** The row at position [k] is counted by the rule [rule] on the column
    [sr]; a rule whose guard is not met counts no row. *)
Definition breaks (pattern_mismatch : string -> Series -> exn + list bool)
           (sr : Series) (rule : Rule) (k : nat) : bool :=
  match rule_mask pattern_mismatch sr rule with
  | inr (Some (mask, _)) => nth k mask false
  | _ => false
  end.

(** The positions, among the first [n], of the rows that no rule of
    [rules] counts. *)
Definition passing_rows (pattern_mismatch : string -> Series -> exn + list bool)
           (sr : Series) (rules : list Rule) (n : nat) : list nat :=
  filter (fun k => negb (existsb (fun rule => breaks pattern_mismatch sr rule k)
                                 rules))
         (seq 0 n).





(** * Properties *)

(** ** Substrings *)

Lemma prefix_app (a b : string) : String.prefix a (a ++ b)%string = true.
Proof. induction a as [| c a IH]; simpl.
  - now destruct b.
  - destruct (ascii_dec c c); [assumption | congruence].
Qed.

Lemma str_in_prefix (sub s : string) :
  String.prefix sub s = true -> Str.str_in sub s = true.
Proof. intros H. destruct s; cbn [Str.str_in]; now rewrite H. Qed.

Lemma str_in_app (sub pre post : string) :
  Str.str_in sub (pre ++ sub ++ post)%string = true.
Proof.
  induction pre as [| c pre IH].
  - change ("" ++ sub ++ post)%string with (sub ++ post)%string.
    apply str_in_prefix, prefix_app.
  - change (String c pre ++ sub ++ post)%string
      with (String c (pre ++ sub ++ post)%string).
    cbn [Str.str_in].
    destruct (String.prefix sub (String c (pre ++ sub ++ post))); [reflexivity |].
    exact IH.
Qed.

Lemma prefix_split (a s : string) :
  String.prefix a s = true -> exists b, s = (a ++ b)%string.
Proof.
  revert s. induction a as [| c a IH]; intros s H.
  - now exists s.
  - destruct s as [| c' s]; simpl in H; [discriminate |].
    destruct (ascii_dec c c') as [-> | ]; [| discriminate].
    destruct (IH s H) as [b ->]. now exists b.
Qed.

Lemma str_in_split (sub s : string) :
  Str.str_in sub s = true -> exists pre post, s = (pre ++ sub ++ post)%string.
Proof.
  induction s as [| c s IH]; cbn [Str.str_in]; intros H.
  - destruct (String.prefix sub "") eqn:P; [| discriminate].
    destruct (prefix_split _ _ P) as [b E]. now exists ""%string, b.
  - destruct (String.prefix sub (String c s)) eqn:P.
    + destruct (prefix_split _ _ P) as [b E]. now exists ""%string, b.
    + destruct (IH H) as [pre [post ->]]. now exists (String c pre), post.
Qed.

Lemma any_in_intro (k : string) (ks : list string) (s : string) :
  In k ks -> Str.str_in k s = true -> Str.any_in ks s = true.
Proof.
  intros I H. unfold Str.any_in. apply existsb_exists. now exists k.
Qed.

(** ** The classifier *)


Lemma classify_aggregation (query : string) :
  Str.any_in (keywords_of "aggregation") (Str.lower query) = true ->
  classify query = "aggregation".
Proof.
  intros H. unfold classify, patterns. cbn [first_matching_type keywords].
  change (keywords_of "aggregation") with
    ["sum"; "total"; "average"; "mean"; "count"; "max"; "min"; "highest";
     "lowest"] in H.
  now rewrite H.
Qed.

Lemma classify_groupby (query : string) :
  Str.any_in (keywords_of "aggregation") (Str.lower query) = false ->
  Str.any_in (keywords_of "filter") (Str.lower query) = false ->
  Str.any_in (keywords_of "groupby") (Str.lower query) = true ->
  classify query = "groupby".
Proof.
  intros Ha Hf Hg. unfold classify, patterns.
  cbn [first_matching_type keywords].
  change (keywords_of "aggregation") with
    ["sum"; "total"; "average"; "mean"; "count"; "max"; "min"; "highest";
     "lowest"] in Ha.
  change (keywords_of "filter") with
    ["show"; "find"; "filter"; "where"; "above"; "below"; "greater"; "less";
     "equal"] in Hf.
  change (keywords_of "groupby") with
    ["by"; "group"; "each"; "per"; "for each"; "grouped by"] in Hg.
  now rewrite Ha, Hf, Hg.
Qed.






(** ** The extraction passes *)

Lemma append_new_keeps p names columns x :
  In x columns -> In x (append_new p names columns).
Proof.
  unfold append_new. revert columns.
  induction names as [| n names IH]; intros columns H; simpl; [assumption |].
  apply IH. destruct (p n && negb (mem n columns)); [| assumption].
  apply in_or_app. now left.
Qed.

Lemma synonyms_keep (names : list string) (query_lower : string)
      (syns : list (string * list string)) (columns : list string) x :
  In x columns ->
  In x (fold_left
          (fun columns '(synonym, variants) =>
             if Str.any_in variants query_lower
             then append_new (fun col => Str.str_in synonym (Str.lower col))
                             names columns
             else columns)
          syns columns).
Proof.
  revert columns.
  induction syns as [| [synonym variants] syns IH]; intros columns H; simpl;
    [assumption |].
  apply IH. destruct (Str.any_in variants query_lower); [| assumption].
  now apply append_new_keeps.
Qed.

Lemma direct_column_selected (query : string) (df : DataFrame) (col : string) :
  In col (column_names df) ->
  Str.str_in (Str.lower col) (Str.lower query) = true ->
  In col (_extract_columns_from_query query df).
Proof.
  intros I H. unfold _extract_columns_from_query.
  apply synonyms_keep. apply filter_In. now split.
Qed.

(** C10.  Keywords and column names are matched as raw substrings of the
    lower-cased query, not as words: a query whose lower-cased text
    contains an aggregation keyword anywhere, such as [sum] inside
    [summary], is classified [aggregation]; a query that contains [by]
    anywhere and no aggregation or filter keyword is classified
    [groupby]; and a column of the table is selected whenever its
    lower-cased name occurs in the lower-cased query. *)
Theorem matching_is_substring_containment :
  (forall query pre post k,
      In k (keywords_of "aggregation") ->
      Str.lower query = (pre ++ k ++ post)%string ->
      classify query = "aggregation")
  /\ (forall query pre post,
         Str.lower query = (pre ++ "by" ++ post)%string ->
         Str.any_in (keywords_of "aggregation") (Str.lower query) = false ->
         Str.any_in (keywords_of "filter") (Str.lower query) = false ->
         classify query = "groupby")
  /\ (forall query df col pre post,
         In col (column_names df) ->
         Str.lower query = (pre ++ Str.lower col ++ post)%string ->
         In col (_extract_columns_from_query query df)).
Proof.
  split; [| split].
  - intros query pre post k I E. apply classify_aggregation.
    apply (any_in_intro k); [assumption |]. rewrite E. apply str_in_app.
  - intros query pre post E Ha Hf. apply classify_groupby; try assumption.
    apply (any_in_intro "by"); [now left |]. rewrite E. apply str_in_app.
  - intros query df col pre post I E. apply direct_column_selected;
      [assumption |]. rewrite E. apply str_in_app.
Qed.

Lemma matching_is_substring_containment_witness :
  classify "Quarterly Summary" = "aggregation"
  /\ classify "Nearby stores" = "groupby"
  /\ In "Revenue" (_extract_columns_from_query "prerevenues" sales).
Proof.
  destruct matching_is_substring_containment as [Ha [Hg Hc]].
  split; [| split].
  - apply (Ha "Quarterly Summary" "quarterly " "mary" "sum");
      vm_compute; auto.
  - apply (Hg "Nearby stores" "near" " stores"); reflexivity.
  - apply (Hc "prerevenues" sales "Revenue" "pre" "s");
      vm_compute; auto.
Defined.

(** C6.  The literal list of comparison patterns is walked in the order
    [>], [<], [>=], [<=], [=], and the pattern of [=] also matches inside
    a [>=] token: the query [>= 150], which holds one comparison token,
    yields two conditions, [>= 150] and [= 150]. *)
Theorem ge_token_yields_two_conditions :
  map fst comparisons = [">"; "<"; ">="; "<="; "="]
  /\ _extract_conditions_from_query ">= 150"
     = [ {| operator := OpGe; value := PInt 150 |};
         {| operator := OpEq; value := PInt 150 |} ].
Proof. split; reflexivity. Qed.

(** ** The scenarios *)

Section Scenarios.

Variable reduce_other : string -> dtype -> list cell -> exn + cell.

(** C3.  On the sales table the query [total revenue] is classified
    [aggregation], with the aggregation kind [sum] over the column
    Revenue, and its execution returns the results {Revenue: 600} with
    3 filtered rows out of 3. *)
Theorem total_revenue_scenario :
  let parsed_query := _parse_natural_language_query "total revenue" sales in
  type parsed_query = "aggregation"
  /\ aggregation_type parsed_query = "sum"
  /\ columns parsed_query = ["Revenue"]
  /\ fst (natural_language_query reduce_other "total revenue" None sales_bot)
     = inr (Aggregation "sum" ["Revenue"] [("Revenue", CNum 600)] 3 3).
Proof. vm_compute. repeat split. Qed.

(** C4.  On the sales table the query [revenue > 150] holds no keyword
    of any intent, so it is classified [general] and answered with a
    preview of all three rows; the filter executor, given the plan
    parsed from it, would return the two rows with Revenue 200 and
    300. *)
Theorem revenue_gt_150_scenario :
  let parsed_query := _parse_natural_language_query "revenue > 150" sales in
  type parsed_query = "general"
  /\ columns parsed_query = ["Revenue"]
  /\ conditions parsed_query = [ {| operator := OpGt; value := PInt 150 |} ]
  /\ fst (natural_language_query reduce_other "revenue > 150" None sales_bot)
     = inr (General "revenue > 150"
              [ [("Region", CText "East"); ("Revenue", CNum 100)];
                [("Region", CText "West"); ("Revenue", CNum 200)];
                [("Region", CText "East"); ("Revenue", CNum 300)] ]
              3 2 ["Region"; "Revenue"])
  /\ fst (_execute_filter_query 0%nat parsed_query sales_bot)
     = inr (Filter 2 3
              [ [("Region", CText "West"); ("Revenue", CNum 200)];
                [("Region", CText "East"); ("Revenue", CNum 300)] ]
              ["Region"; "Revenue"] 2 (200 # 3)).
Proof. vm_compute. repeat split. Qed.

(** C5, as the code has it.  On the sales table the query
    [top 1 region by revenue] contains the groupby keyword [by], and
    groupby is tried before top_n: it is classified [groupby] and
    answered with the two groups East and West.  The top-N executor,
    given the plan parsed from it, takes N = 1 and returns the single
    row (East, 300). *)
Theorem top_1_region_by_revenue_scenario :
  let parsed_query :=
    _parse_natural_language_query "top 1 region by revenue" sales in
  type parsed_query = "groupby"
  /\ fst (natural_language_query reduce_other "top 1 region by revenue"
                                 None sales_bot)
     = inr (Groupby ["Region"] ["Revenue"]
              [ [ (("Region", ""), CText "East");
                  (("Revenue", "sum"), CNum 400);
                  (("Revenue", "mean"), CNum 200);
                  (("Revenue", "count"), CNum 2) ];
                [ (("Region", ""), CText "West");
                  (("Revenue", "sum"), CNum 200);
                  (("Revenue", "mean"), CNum 200);
                  (("Revenue", "count"), CNum 1) ] ]
              2)
  /\ first_int_in_range (values parsed_query) = 1%Z
  /\ fst (_execute_top_n_query 0%nat parsed_query sales_bot)
     = inr (TopN 1 "Revenue"
              [ [("Region", CText "East"); ("Revenue", CNum 300)] ]).
Proof. vm_compute. repeat split. Qed.

End Scenarios.

(** The query of C5 is not classified [top_n]. *)
Lemma top_1_region_by_revenue_is_not_top_n :
  type (_parse_natural_language_query "top 1 region by revenue" sales)
  <> "top_n".
Proof. vm_compute. discriminate. Qed.

(** A comparison against the Text column of the sales table is not
    skipped: the query [show region > 150] is a filter on Region, the
    comparison of a text with a number raises, and the executor answers
    with an error. *)
Lemma condition_on_text_column_is_an_error :
  let parsed_query := _parse_natural_language_query "show region > 150" sales in
  type parsed_query = "filter"
  /\ columns parsed_query = ["Region"]
  /\ conditions parsed_query = [ {| operator := OpGt; value := PInt 150 |} ]
  /\ is_numeric_column sales "Region" = false
  /\ fst (_execute_filter_query 0%nat parsed_query sales_bot)
     = inr (Error (ErrorInFiltering TypeError)).
Proof. vm_compute. repeat split. Qed.

(** ** Reasoning about computations on the store *)

Lemma extends_refl s : extends s s.
Proof. split; [reflexivity | exists []; now rewrite app_nil_r]. Qed.

Lemma extends_trans s1 s2 s3 : extends s1 s2 -> extends s2 s3 -> extends s1 s3.
Proof.
  intros [H1 [e1 E1]] [H2 [e2 E2]]. split; [congruence |].
  exists (e1 ++ e2). now rewrite E2, E1, app_assoc.
Qed.

Lemma points_to_extends s s' l d :
  extends s s' -> points_to s l d -> points_to s' l d.
Proof.
  unfold points_to. intros [_ [extra E]] H. rewrite E.
  rewrite nth_error_app1; [assumption |].
  apply nth_error_Some. congruence.
Qed.

Lemma wp_ret {A} (a : A) s Q : Q (inr a) s -> wp (ret a) s Q.
Proof. exact (fun H => H). Qed.

Lemma wp_raise {A} e s (Q : exn + A -> Store -> Prop) :
  Q (inl e) s -> wp (raise e) s Q.
Proof. exact (fun H => H). Qed.

Lemma wp_lift {A} (r : exn + A) s Q : Q r s -> wp (lift r) s Q.
Proof. exact (fun H => H). Qed.

Lemma wp_bind {A B} (m : M A) (k : A -> M B) s Q :
  wp m s (fun r s' => match r with
                      | inr a => wp (k a) s' Q
                      | inl e => Q (inl e) s'
                      end) ->
  wp (bind m k) s Q.
Proof. unfold wp, bind. destruct (m s) as [[e | a] s']; simpl; auto. Qed.

Lemma wp_catch {A} (m : M A) handler s Q :
  wp m s (fun r s' => match r with
                      | inr a => Q (inr a) s'
                      | inl e => wp (handler e) s' Q
                      end) ->
  wp (catch m handler) s Q.
Proof. unfold wp, catch. destruct (m s) as [[e | a] s']; simpl; auto. Qed.

Lemma wp_read l s d Q : points_to s l d -> Q (inr d) s -> wp (read l) s Q.
Proof. unfold wp, read, points_to. intros ->. auto. Qed.

Lemma wp_get_sheets s Q : Q (inr (sheets s)) s -> wp get_sheets s Q.
Proof. exact (fun H => H). Qed.

Lemma wp_new_frame d s (Q : exn + loc -> Store -> Prop) :
  (forall l s', extends s s' -> points_to s' l d -> Q (inr l) s') ->
  wp (new_frame d) s Q.
Proof.
  intros H. unfold wp, new_frame; simpl. apply H.
  - split; [reflexivity | now exists [d]].
  - unfold points_to; simpl. rewrite nth_error_app2 by lia.
    now rewrite Nat.sub_diag.
Qed.

(** An operation that reads its operand and computes a value from it. *)
Lemma wp_read_then {B} (g : DataFrame -> M B) l s d
      (Q : exn + B -> Store -> Prop) :
  points_to s l d -> wp (g d) s Q -> wp (d' <- read l ;; g d') s Q.
Proof.
  intros P H. apply wp_bind, (wp_read _ _ d); assumption.
Qed.

Lemma wp_len l s d Q :
  points_to s l d -> Q (inr (List.length (df_rows d))) s -> wp (len l) s Q.
Proof. intros P H. apply (wp_read_then _ l s d _ P). exact H. Qed.

Lemma wp_to_dict_records l s d Q :
  points_to s l d -> Q (inr (records_of d)) s -> wp (to_dict_records l) s Q.
Proof. intros P H. apply (wp_read_then _ l s d _ P). exact H. Qed.

(** An operation that reads its operand and allocates its result. *)
Lemma wp_read_new (g : DataFrame -> DataFrame) l s d
      (Q : exn + loc -> Store -> Prop) :
  points_to s l d ->
  (forall l' s', extends s s' -> points_to s' l' (g d) -> Q (inr l') s') ->
  wp (d' <- read l ;; new_frame (g d')) s Q.
Proof.
  intros P H. apply (wp_read_then _ l s d _ P). now apply wp_new_frame.
Qed.

Lemma wp_head l n s d (Q : exn + loc -> Store -> Prop) :
  points_to s l d ->
  (forall l' s', extends s s' -> points_to s' l' (frame_head d n) ->
                 Q (inr l') s') ->
  wp (head l n) s Q.
Proof. intros P H. now apply (wp_read_new (fun d => frame_head d n) l s d). Qed.

Lemma refines_foldM {B} (f : loc -> B -> M loc) g :
  refines f g ->
  refines (fun l bs => foldM f bs l) (fun d bs => efold g bs d).
Proof.
  intros R s l d bs. revert s l d.
  induction bs as [| b bs IH]; intros s l d Q P H; simpl.
  - apply wp_ret. exact (H s (extends_refl s) l P).
  - apply wp_bind. apply (R s l d b); [assumption |].
    intros s' E. pose proof (H s' E) as Hs'. simpl in Hs'.
    destruct (g d b) as [e | d'] eqn:G; simpl in *.
    + exact Hs'.
    + intros l' P'. apply (IH s' l' d'); [assumption |].
      intros s'' E'. pose proof (H s'' (extends_trans _ _ _ E E')) as H2.
      rewrite G in H2. exact H2.
Qed.

Lemma refines_apply_condition :
  refines (fun l (b : string * Condition) => apply_condition l (fst b) (snd b))
          (fun d b => value_condition d (fst b) (snd b)).
Proof.
  intros s l d [col c] Q P H. simpl. unfold apply_condition, series_compare.
  apply wp_bind. apply (wp_read_then _ l s d _ P). apply wp_lift.
  pose proof (H s (extends_refl s)) as H0. unfold value_condition in *.
  simpl in *.
  destruct (frame_compare d col (operator c) (value c)) as [e | mask];
    simpl in *; [exact H0 |].
  apply (wp_read_new (fun d => frame_select d mask) l s d _ P).
  intros l' s' E P'. exact (H s' E l' P').
Qed.

Lemma refines_filter_loops (cols : list string) :
  refines
    (fun l c =>
       foldM (fun fdf col =>
                fd <- read fdf ;;
                if mem col (column_names fd)
                then apply_condition fdf col c
                else ret fdf)
             cols l)
    (fun d c =>
       efold (fun fd col =>
                if mem col (column_names fd) then value_condition fd col c
                else inr fd)
             cols d).
Proof.
  intros s l d c Q.
  apply (refines_foldM
           (fun fdf col =>
              fd <- read fdf ;;
              if mem col (column_names fd) then apply_condition fdf col c
              else ret fdf)
           (fun fd col =>
              if mem col (column_names fd) then value_condition fd col c
              else inr fd)).
  clear. intros s l d col Q P H.
  apply (wp_read_then _ l s d _ P).
  destruct (mem col (column_names d)).
  - exact (refines_apply_condition s l d (col, c) Q P H).
  - apply wp_ret. exact (H s (extends_refl s) l P).
Qed.

Lemma refines_aggregation_loops (names cols : list string) :
  refines
    (fun l c =>
       foldM (fun fdf col =>
                if mem col names then apply_condition fdf col c else ret fdf)
             cols l)
    (fun d c =>
       efold (fun fd col =>
                if mem col names then value_condition fd col c else inr fd)
             cols d).
Proof.
  intros s l d c Q.
  apply (refines_foldM
           (fun fdf col =>
              if mem col names then apply_condition fdf col c else ret fdf)
           (fun fd col =>
              if mem col names then value_condition fd col c else inr fd)).
  clear - names. intros s l d col Q P H.
  destruct (mem col names).
  - exact (refines_apply_condition s l d (col, c) Q P H).
  - apply wp_ret. exact (H s (extends_refl s) l P).
Qed.

Create HintDb store.

Local Hint Resolve extends_refl extends_trans points_to_extends : store.

Lemma filter_refines df pq s d :
  points_to s df d ->
  returns (_execute_filter_query df pq) s (value_filter d pq).
Proof.
  intros P. unfold returns, _execute_filter_query, value_filter.
  apply wp_catch, wp_bind.
  apply (wp_read_new (fun d => d) df s d _ P). intros l1 s1 E1 P1.
  apply wp_bind.
  apply (refines_foldM _ _ (refines_filter_loops (columns pq))
                       s1 l1 d (conditions pq) _ P1).
  intros s2 E2. unfold value_conditions.
  destruct (efold _ (conditions pq) d) as [e | fd]; simpl.
  - apply wp_ret. split; eauto with store.
  - intros l2 P2.
    assert (P' : points_to s2 df d) by eauto with store.
    apply wp_bind, (wp_len l2 s2 fd _ P2).
    apply wp_bind, (wp_len df s2 d _ P').
    apply wp_bind, (wp_head l2 20 s2 fd _ P2). intros l3 s3 E3 P3.
    apply wp_bind, (wp_to_dict_records l3 s3 _ _ P3).
    assert (P2' : points_to s3 l2 fd) by eauto with store.
    apply (wp_read_then _ l2 s3 fd _ P2').
    apply wp_bind, (wp_len l2 s3 fd _ P2').
    destruct (List.length (df_rows d)) as [| total]; simpl.
    + apply wp_ret. split; eauto with store.
    + apply wp_ret. split; eauto 6 with store.
Qed.

Lemma refines_dt_filter (col : string) (field : Timestamp -> Z) :
  refines (fun l n => mask <- series_dt_eq l col field n ;; getitem_mask l mask)
          (fun d n => ebind (frame_dt_eq d col field n)
                            (fun mask => inr (frame_select d mask))).
Proof.
  intros s l d n Q P H. unfold series_dt_eq.
  apply wp_bind. apply (wp_read_then _ l s d _ P). apply wp_lift.
  pose proof (H s (extends_refl s)) as H0.
  destruct (frame_dt_eq d col field n) as [e | mask]; simpl in *;
    [exact H0 |].
  apply (wp_read_new (fun d => frame_select d mask) l s d _ P).
  intros l' s' E P'. exact (H s' E l' P').
Qed.

Lemma refines_time_filters :
  refines _apply_time_filters value_time_filters.
Proof.
  intros s l d tf Q P H.
  unfold _apply_time_filters, value_time_filters in *.
  assert (Skip : forall d', d' = d ->
            match (inr d' : exn + DataFrame) with
            | inr d'' => forall l', points_to s l' d'' -> Q (inr l') s
            | inl e => Q (inl e) s
            end -> wp (ret l) s Q).
  { intros d' -> K. apply wp_ret. exact (K l P). }
  destruct (quarter tf) as [q |], (month tf) as [m |];
    try (apply (wp_read_then _ l s d _ P);
         destruct (select_dtypes DDateTime d) as [| date_col others];
         [ apply (Skip d eq_refl), (H s (extends_refl s)) | ]);
    try (apply (Skip d eq_refl), (H s (extends_refl s))).
  - apply wp_bind.
    apply (refines_dt_filter date_col quarter_of s l d q _ P).
    intros s1 E1. pose proof (fun s' E => H s' (extends_trans _ _ _ E1 E)) as H1.
    destruct (ebind (frame_dt_eq d date_col quarter_of q) _) as [e | d1];
      simpl in *; [exact (H s1 E1) |].
    intros l1 P1.
    exact (refines_dt_filter date_col ts_month s1 l1 d1 m _ P1 H1).
  - apply wp_bind.
    apply (refines_dt_filter date_col quarter_of s l d q _ P).
    intros s1 E1.
    destruct (ebind (frame_dt_eq d date_col quarter_of q) _) as [e | d1];
      simpl in *; [exact (H s1 E1) |].
    intros l1 P1. apply wp_ret. exact (H s1 E1 l1 P1).
  - apply wp_bind, wp_ret. simpl in *.
    exact (refines_dt_filter date_col ts_month s l d m _ P H).
Qed.

Lemma top_n_refines df pq s d :
  points_to s df d ->
  returns (_execute_top_n_query df pq) s (value_top_n d pq).
Proof.
  intros P. unfold returns, _execute_top_n_query, value_top_n.
  apply wp_catch. apply (wp_read_then _ df s d _ P).
  destruct (if truthy (find (is_numeric_column d) (columns pq))
            then find (is_numeric_column d) (columns pq)
            else hd_error (select_dtypes DNumeric d)) as [sort_col |]; simpl.
  - apply wp_bind. unfold nlargest.
    apply (wp_read_then _ df s d _ P). apply wp_bind, wp_lift.
    destruct (frame_nlargest d (first_int_in_range (values pq)) sort_col)
      as [e | top]; simpl.
    + apply wp_ret. split; eauto with store.
    + apply wp_new_frame. intros l1 s1 E1 P1.
      apply wp_bind, (wp_to_dict_records l1 s1 top _ P1).
      apply wp_ret. split; eauto with store.
  - apply wp_ret. split; eauto with store.
Qed.

Lemma general_refines df pq s d :
  points_to s df d ->
  returns (_execute_general_query df pq) s (value_general d pq).
Proof.
  intros P. unfold returns, _execute_general_query, value_general.
  apply wp_catch, wp_bind, (wp_head df 10 s d _ P). intros l1 s1 E1 P1.
  apply wp_bind, (wp_to_dict_records l1 s1 _ _ P1).
  assert (P' : points_to s1 df d) by eauto with store.
  apply wp_bind, (wp_len df s1 d _ P').
  apply (wp_read_then _ df s1 d _ P').
  apply wp_ret. split; eauto with store.
Qed.

Lemma foldM_pure {A B} (f : A -> B -> M A) (g : A -> B -> exn + A) :
  (forall a b s, f a b s = (g a b, s)) ->
  forall l a s, foldM f l a s = (efold g l a, s).
Proof.
  intros F l. induction l as [| b l IH]; intros a s; simpl; [reflexivity |].
  unfold bind. rewrite F. destruct (g a b); simpl; [reflexivity | apply IH].
Qed.

Section ExecutorRefinement.

Variable reduce_other : string -> dtype -> list cell -> exn + cell.

Lemma aggregation_refines df pq s d :
  points_to s df d ->
  returns (_execute_aggregation_query reduce_other df pq) s
          (value_aggregation reduce_other d pq).
Proof.
  intros P. unfold returns, _execute_aggregation_query, value_aggregation.
  apply wp_catch. apply (wp_read_then _ df s d _ P).
  destruct (or_first_numeric d (columns pq)) as [cols |]; simpl;
    [| apply wp_ret; split; eauto with store].
  apply wp_bind.
  apply (refines_time_filters s df d (time_filters pq) _ P).
  intros s1 E1.
  destruct (value_time_filters d (time_filters pq)) as [e | fd0]; simpl.
  { apply wp_ret. split; eauto with store. }
  intros l1 P1. apply wp_bind.
  apply (refines_foldM _ _ (refines_aggregation_loops (column_names d) cols)
                       s1 l1 fd0 (conditions pq) _ P1).
  intros s2 E2. unfold value_conditions.
  destruct (efold _ (conditions pq) fd0) as [e | fd]; simpl.
  { apply wp_ret. split; eauto with store. }
  intros l2 P2. apply (wp_read_then _ l2 s2 fd _ P2).
  apply wp_bind. unfold wp at 1.
  rewrite (foldM_pure _
             (fun results col =>
                match find_column col (df_columns fd) 0 with
                | Some (i, t) =>
                    if is_aggregation (aggregation_type pq) then
                      ebind (series_reduce reduce_other (aggregation_type pq)
                                           t (column_cells i (df_rows fd)))
                            (fun v => inr (dict_set col v results))
                    else inr results
                | None => inr results
                end)).
  - simpl.
    destruct (efold _ cols []) as [e | results]; simpl.
    { apply wp_ret. split; eauto with store. }
    apply wp_bind, (wp_len l2 s2 fd _ P2).
    assert (P' : points_to s2 df d) by eauto with store.
    apply wp_bind, (wp_len df s2 d _ P').
    apply wp_ret. split; eauto with store.
  - intros results col s0.
    destruct (find_column col (df_columns fd) 0) as [[i t] |];
      [| reflexivity].
    destruct (is_aggregation (aggregation_type pq)); [| reflexivity].
    unfold bind, lift, ret.
    destruct (series_reduce reduce_other _ t _); reflexivity.
Qed.

Lemma groupby_refines df pq s d :
  points_to s df d ->
  returns (_execute_groupby_query reduce_other df pq) s
          (value_groupby reduce_other d pq).
Proof.
  intros P. unfold returns, _execute_groupby_query, value_groupby.
  apply wp_catch. apply (wp_read_then _ df s d _ P).
  destruct (filter (is_object_column d)
                   (filter (fun col => mem col (column_names d))
                           (columns pq))) as [| g gs]; simpl;
    [apply wp_ret; split; eauto with store |].
  destruct (or_first_numeric d _) as [agg_cols |]; simpl;
    [| apply wp_ret; split; eauto with store].
  apply wp_bind, wp_lift.
  destruct (groupby_agg reduce_other d (g :: gs) agg_cols); simpl;
    apply wp_ret; split; eauto with store.
Qed.

End ExecutorRefinement.

Lemma wp_conseq {A} (m : M A) s (Q Q' : exn + A -> Store -> Prop) :
  wp m s Q -> (forall r s', Q r s' -> Q' r s') -> wp m s Q'.
Proof. unfold wp. auto. Qed.

Lemma wp_read_lost l s (Q : exn + DataFrame -> Store -> Prop) :
  nth_error (objects s) l = None -> Q (inl ReferenceLost) s -> wp (read l) s Q.
Proof. unfold wp, read. intros ->. auto. Qed.

Lemma addressed_frame_extends s s' sheet_name d :
  extends s s' ->
  addressed_frame s sheet_name = inr d ->
  addressed_frame s' sheet_name = inr d.
Proof.
  intros E. pose proof E as [Es _]. unfold addressed_frame. rewrite Es.
  destruct (sheets s) as [| [first_sheet l0] ss]; [discriminate |].
  destruct (truthy sheet_name && _); [discriminate |].
  destruct (sheet_frame _ _) as [df |]; [| discriminate].
  destruct (nth_error (objects s) df) as [d0 |] eqn:N; [| discriminate].
  intros [= ->].
  now rewrite (points_to_extends s s' df d E N).
Qed.

Section QueryRefinement.

Variable reduce_other : string -> dtype -> list cell -> exn + cell.

Lemma query_refines df query s d :
  points_to s df d ->
  returns
    (let parsed_query := _parse_natural_language_query query d in
     let t := type parsed_query in
     if String.eqb t "aggregation"
     then _execute_aggregation_query reduce_other df parsed_query
     else if String.eqb t "filter"
     then _execute_filter_query df parsed_query
     else if String.eqb t "groupby"
     then _execute_groupby_query reduce_other df parsed_query
     else if String.eqb t "top_n"
     then _execute_top_n_query df parsed_query
     else if String.eqb t "comparison"
     then _execute_comparison_query df parsed_query
     else if String.eqb t "trend"
     then _execute_trend_query df parsed_query
     else _execute_general_query df parsed_query)
    s (value_query reduce_other d query).
Proof.
  intros P. unfold value_query. cbv zeta.
  destruct (String.eqb _ "aggregation"); [now apply aggregation_refines |].
  destruct (String.eqb _ "filter"); [now apply filter_refines |].
  destruct (String.eqb _ "groupby"); [now apply groupby_refines |].
  destruct (String.eqb _ "top_n"); [now apply top_n_refines |].
  destruct (String.eqb _ "comparison").
  { unfold returns, _execute_comparison_query.
    apply wp_catch, wp_ret. split; eauto with store. }
  destruct (String.eqb _ "trend").
  { unfold returns, _execute_trend_query.
    apply wp_catch, wp_ret. split; eauto with store. }
  now apply general_refines.
Qed.

(** A call returns the result computed from the value of the frame it
    addresses, raises nothing, and only adds frames to the store. *)
Lemma natural_language_query_refines query sheet_name s :
  wp (natural_language_query reduce_other query sheet_name) s
     (fun r s' =>
        r = inr (value_natural_language_query reduce_other s query sheet_name)
        /\ extends s s'
        /\ addressed_frame s' sheet_name = addressed_frame s sheet_name).
Proof.
  unfold natural_language_query, value_natural_language_query,
    addressed_frame.
  apply wp_catch, wp_bind, wp_get_sheets.
  destruct (sheets s) as [| [first_sheet l0] ss] eqn:Ss.
  { apply wp_ret. rewrite Ss. auto with store. }
  destruct (truthy sheet_name && _) eqn:T.
  { apply wp_ret. rewrite Ss, T. auto with store. }
  destruct (sheet_frame _ _) as [df |] eqn:F.
  2:{ apply wp_raise, wp_ret. rewrite Ss, T, F. auto with store. }
  destruct (nth_error (objects s) df) as [d |] eqn:N.
  - apply (wp_read_then _ df s d _ N).
    apply (wp_conseq _ s
             (fun r s' => r = inr (value_query reduce_other d query)
                          /\ extends s s'));
      [exact (query_refines df query s d N) |].
    intros r s' [-> E]. split; [reflexivity | split; [assumption |]].
    change (addressed_frame s' sheet_name = inr d).
    apply (addressed_frame_extends s s' sheet_name d E).
    unfold addressed_frame. now rewrite Ss, T, F, N.
  - apply wp_bind, wp_read_lost; [assumption |].
    apply wp_ret. rewrite Ss, T, F, N. auto with store.
Qed.

End QueryRefinement.

(** C9.  A query never changes a stored table.  Whatever the store, the
    query and the sheet named, a call of [natural_language_query] leaves
    the sheets and every frame of the store as they were (it only adds
    frames of its own), so the table it addresses has the rows, columns
    and cells it had; the call raises nothing; and the same call made
    again right after returns the same result. *)
Theorem query_execution_leaves_tables_unchanged
        (reduce_other : string -> dtype -> list cell -> exn + cell)
        (s : Store) (query : string) (sheet_name : option string) :
  let run := natural_language_query reduce_other query sheet_name in
  let s' := snd (run s) in
  sheets s' = sheets s
  /\ (forall l d, nth_error (objects s) l = Some d ->
                  nth_error (objects s') l = Some d)
  /\ addressed_frame s' sheet_name = addressed_frame s sheet_name
  /\ (exists result, fst (run s) = inr result)
  /\ fst (run s') = fst (run s).
Proof.
  intros run s'.
  destruct (natural_language_query_refines reduce_other query sheet_name s)
    as [R [E A]].
  destruct (natural_language_query_refines reduce_other query sheet_name s')
    as [R' _].
  fold run in R, E, A, R'. fold s' in E, A, R'.
  split; [exact (proj1 E) |].
  split; [intros l d; exact (points_to_extends s s' l d E) |].
  split; [exact A |].
  split; [eexists; exact R |].
  rewrite R', R. unfold value_natural_language_query. now rewrite A.
Qed.

Lemma query_execution_leaves_tables_unchanged_witness :
  nth_error
    (objects (snd (natural_language_query (fun _ _ _ => inl TypeError)
                     "show revenue > 150" None sales_bot))) 0
  = Some sales.
Proof.
  apply (query_execution_leaves_tables_unchanged
           (fun _ _ _ => inl TypeError) sales_bot "show revenue > 150" None).
  reflexivity.
Defined.

(** ** Conditions on columns that are absent or numeric *)

Lemma find_column_nth col cs k i t :
  find_column col cs k = Some (i, t) ->
  exists j, i = (k + j)%nat /\ nth_error cs j = Some (col, t).
Proof.
  revert k. induction cs as [| [c t'] cs IH]; intros k; simpl; [discriminate |].
  destruct (String.eqb_spec col c) as [-> | _].
  - intros [= <- <-]. exists 0%nat. split; [lia | reflexivity].
  - intros H. destruct (IH _ H) as [j [-> N]]. exists (S j).
    split; [lia | exact N].
Qed.

Lemma find_column_mem col cs k :
  mem col (map fst cs) = true <-> find_column col cs k <> None.
Proof.
  revert k. induction cs as [| [c t] cs IH]; intros k; simpl.
  - split; [discriminate | congruence].
  - destruct (String.eqb col c); simpl; [split; [discriminate | reflexivity] |].
    apply IH.
Qed.

Lemma find_column_position col t cs k j :
  NoDup (map fst cs) -> nth_error cs j = Some (col, t) ->
  find_column col cs k = Some ((k + j)%nat, t).
Proof.
  revert k j. induction cs as [| [c t'] cs IH]; intros k [| j] ND N;
    cbn [nth_error find_column] in *; try discriminate.
  - injection N as -> ->. rewrite String.eqb_refl. f_equal. f_equal. lia.
  - inversion_clear ND as [| ? ? NI ND'].
    destruct (String.eqb_spec col c) as [-> | _].
    + exfalso. apply NI. apply in_map_iff. exists (c, t).
      split; [reflexivity | exact (nth_error_In _ _ N)].
    + rewrite (IH (S k) j ND' N). f_equal. f_equal. lia.
Qed.

Lemma row_typed_nth ts row j t :
  row_typed ts row = true -> nth_error ts j = Some t ->
  cell_has_dtype t (nth j row CNull) = true.
Proof.
  revert row j. induction ts as [| t' ts IH]; intros [| c row] [| j]; simpl;
    try discriminate.
  - intros H [= ->]. now apply andb_true_iff in H.
  - intros H N. apply andb_true_iff in H. now apply IH.
Qed.

Lemma sequence_map_ok {A B} (f : A -> exn + B) (l : list A) :
  (forall x, In x l -> exists b, f x = inr b) ->
  exists bs, sequence (map f l) = inr bs.
Proof.
  induction l as [| a l IH]; intros H; simpl; [now exists [] |].
  destruct (H a (or_introl eq_refl)) as [b ->].
  destruct IH as [bs ->]; [intros x I; apply H; now right |].
  now exists (b :: bs).
Qed.

Lemma select_rows_incl {A} (mask : list bool) (rows : list A) r :
  In r (select_rows mask rows) -> In r rows.
Proof.
  revert rows. induction mask as [| b mask IH]; intros [| x rows]; simpl;
    try contradiction.
  destruct b; simpl; intros H.
  - destruct H as [-> | H]; [now left | right; now apply IH].
  - right. now apply IH.
Qed.

Lemma kept_refl d : kept d d.
Proof. split; auto. Qed.

Lemma kept_select d fd mask : kept d fd -> kept d (frame_select fd mask).
Proof.
  intros [C R]. split; [exact C |]. simpl. intros row I.
  apply R. exact (select_rows_incl _ _ _ I).
Qed.

Lemma kept_names d fd : kept d fd -> column_names fd = column_names d.
Proof. intros [C _]. unfold column_names. now rewrite C. Qed.

Lemma numeric_compare_ok d fd col op v :
  well_typed d = true -> kept d fd -> is_numeric_column d col = true ->
  exists mask, frame_compare fd col op v = inr mask.
Proof.
  intros W [C R] N. unfold frame_compare, is_numeric_column in *. rewrite C.
  destruct (find_column col (df_columns d) 0) as [[i t] |] eqn:F;
    [| discriminate].
  destruct t; try discriminate. simpl.
  destruct (find_column_nth _ _ _ _ _ F) as [j [-> Nj]]. simpl.
  unfold column_cells. rewrite map_map. apply sequence_map_ok.
  intros row I.
  assert (T : cell_has_dtype DNumeric (nth j row CNull) = true).
  { apply (row_typed_nth (map snd (df_columns d))).
    - unfold well_typed in W. rewrite forallb_forall in W. apply W, R, I.
    - rewrite nth_error_map, Nj. reflexivity. }
  destruct (nth j row CNull); try discriminate; destruct op; simpl; eauto.
Qed.

Lemma condition_ok d fd col c :
  well_typed d = true -> kept d fd -> is_numeric_column d col = true ->
  exists fd', value_condition fd col c = inr fd' /\ kept d fd'.
Proof.
  intros W K N. unfold value_condition.
  destruct (numeric_compare_ok d fd col (operator c) (value c) W K N)
    as [mask ->].
  simpl. eexists. split; [reflexivity | now apply kept_select].
Qed.

Lemma present_numeric d col :
  mem col (column_names d) = false \/ is_numeric_column d col = true ->
  mem col (column_names d) = true -> is_numeric_column d col = true.
Proof. intros [A | N] P; [congruence | assumption]. Qed.

Lemma conditions_ok (guard : DataFrame -> string -> bool) d conds cols :
  well_typed d = true ->
  (forall fd col, kept d fd -> guard fd col = mem col (column_names d)) ->
  (forall col, In col cols ->
               mem col (column_names d) = false
               \/ is_numeric_column d col = true) ->
  forall fd, kept d fd ->
  exists fd', value_conditions guard conds cols fd = inr fd' /\ kept d fd'.
Proof.
  intros W G H. unfold value_conditions.
  assert (Inner : forall c cs, incl cs cols -> forall fd, kept d fd ->
            exists fd',
              efold (fun fd col => if guard fd col then value_condition fd col c
                                   else inr fd) cs fd = inr fd'
              /\ kept d fd').
  { intros c cs. induction cs as [| col cs IH]; intros I fd K; simpl.
    - now exists fd.
    - rewrite (G fd col K).
      destruct (mem col (column_names d)) eqn:P; simpl.
      + destruct (condition_ok d fd col c W K) as [fd1 [-> K1]].
        { apply present_numeric; [apply H, I; now left | assumption]. }
        simpl. apply IH; [| assumption]. intros x Ix. apply I. now right.
      + apply IH; [| assumption]. intros x Ix. apply I. now right. }
  induction conds as [| c conds IH]; intros fd K; simpl.
  - now exists fd.
  - destruct (Inner c cols (incl_refl _) fd K) as [fd1 [-> K1]]. simpl.
    now apply IH.
Qed.

Lemma condition_kept d fd col c fd' :
  kept d fd -> value_condition fd col c = inr fd' -> kept d fd'.
Proof.
  intros K. unfold value_condition.
  destruct (frame_compare fd col (operator c) (value c)) as [e | mask]; simpl;
    [discriminate |].
  intros [= <-]. now apply kept_select.
Qed.

Lemma conditions_skip_absent (guard : DataFrame -> string -> bool) d conds cols :
  (forall fd col, kept d fd -> guard fd col = mem col (column_names d)) ->
  forall fd, kept d fd ->
  value_conditions guard conds cols fd
  = value_conditions guard conds
      (filter (fun col => mem col (column_names d)) cols) fd.
Proof.
  intros G. unfold value_conditions.
  set (step := fun c fd col => if guard fd col then value_condition fd col c
                               else inr fd).
  assert (Step : forall c fd col, kept d fd ->
            step c fd col = if mem col (column_names d)
                            then value_condition fd col c else inr fd).
  { intros c fd col K. unfold step. now rewrite (G fd col K). }
  assert (Inner : forall c cs fd, kept d fd ->
            efold (step c) cs fd
            = efold (step c) (filter (fun col => mem col (column_names d)) cs) fd
            /\ forall fd', efold (step c) cs fd = inr fd' -> kept d fd').
  { intros c cs. induction cs as [| col cs IH]; intros fd K.
    - split; [reflexivity | now intros fd' [= <-]].
    - cbn [efold filter]. rewrite (Step c fd col K).
      destruct (mem col (column_names d)) eqn:P.
      + cbn [efold]. rewrite (Step c fd col K), P.
        destruct (value_condition fd col c) as [e | fd1] eqn:V; cbn [ebind].
        * split; [reflexivity | discriminate].
        * apply IH. exact (condition_kept d fd col c fd1 K V).
      + cbn [ebind]. now apply IH. }
  induction conds as [| c conds IH]; intros fd K; [reflexivity |].
  cbn [efold]. fold (step c).
  destruct (Inner c cols fd K) as [E Kept]. rewrite <- E.
  destruct (efold (step c) cols fd) as [e | fd1]; cbn [ebind]; [reflexivity |].
  apply IH, Kept. reflexivity.
Qed.

Lemma select_dtypes_mem k d c :
  In c (select_dtypes k d) -> mem c (column_names d) = true.
Proof.
  unfold select_dtypes, column_names, mem. intros I.
  apply existsb_exists. exists c. split; [| apply String.eqb_refl].
  apply in_map_iff in I. destruct I as [x [<- I]].
  apply filter_In in I. apply in_map. tauto.
Qed.

Lemma dt_filter_ok d fd col field n :
  kept d fd -> mem col (column_names d) = true ->
  exists fd', ebind (frame_dt_eq fd col field n)
                    (fun mask => inr (frame_select fd mask)) = inr fd'
              /\ kept d fd'.
Proof.
  intros K P. unfold frame_dt_eq. rewrite (proj1 K).
  apply (find_column_mem col (df_columns d) 0) in P.
  destruct (find_column col (df_columns d) 0) as [[i t] |]; [| congruence].
  simpl. eexists. split; [reflexivity | now apply kept_select].
Qed.

Lemma time_filters_ok d tf :
  exists fd, value_time_filters d tf = inr fd /\ kept d fd.
Proof.
  unfold value_time_filters.
  assert (Same : exists fd, inr d = (inr fd : exn + DataFrame) /\ kept d fd)
    by (exists d; split; [reflexivity | apply kept_refl]).
  destruct (quarter tf) as [q |], (month tf) as [m |]; try exact Same;
    (destruct (select_dtypes DDateTime d) as [| date_col others] eqn:S;
     [exact Same |]);
    assert (P : mem date_col (column_names d) = true)
      by (apply (select_dtypes_mem DDateTime); rewrite S; now left).
  - destruct (dt_filter_ok d d date_col quarter_of q (kept_refl d) P)
      as [d1 [-> K1]]. simpl.
    exact (dt_filter_ok d d1 date_col ts_month m K1 P).
  - destruct (dt_filter_ok d d date_col quarter_of q (kept_refl d) P)
      as [d1 [-> K1]]. simpl. now exists d1.
  - simpl. exact (dt_filter_ok d d date_col ts_month m (kept_refl d) P).
Qed.

Lemma filter_no_error d pq :
  well_typed d = true -> df_rows d <> [] ->
  (forall col, In col (columns pq) ->
               mem col (column_names d) = false
               \/ is_numeric_column d col = true) ->
  is_error (value_filter d pq) = false.
Proof.
  intros W R H. unfold value_filter.
  destruct (conditions_ok (fun fd col => mem col (column_names fd)) d
              (conditions pq) (columns pq) W) with (fd := d)
    as [fd [-> K]]; try assumption.
  - intros fd col K. now rewrite (kept_names d fd K).
  - apply kept_refl.
  - simpl. destruct (df_rows d); [congruence | reflexivity].
Qed.

Section AggregationNoError.

Variable reduce_other : string -> dtype -> list cell -> exn + cell.

Lemma aggregation_no_error d pq :
  well_typed d = true -> columns pq <> [] ->
  (forall col, In col (columns pq) ->
               mem col (column_names d) = false
               \/ is_numeric_column d col = true) ->
  is_error (value_aggregation reduce_other d pq) = false.
Proof.
  intros W C H. unfold value_aggregation, or_first_numeric.
  destruct (columns pq) as [| c0 cs] eqn:Cols; [congruence |].
  destruct (time_filters_ok d (time_filters pq)) as [fd0 [-> K0]]. simpl.
  destruct (conditions_ok (fun _ col => mem col (column_names d)) d
              (conditions pq) (c0 :: cs) W) with (fd := fd0)
    as [fd [-> K]]; try assumption; [reflexivity |]. simpl.
  assert (Results : forall cols acc, incl cols (c0 :: cs) ->
            exists results,
              efold (fun results col =>
                       match find_column col (df_columns d) 0 with
                       | Some (i, t) =>
                           if is_aggregation (aggregation_type pq) then
                             ebind (series_reduce reduce_other
                                      (aggregation_type pq) t
                                      (column_cells i (df_rows fd)))
                                   (fun v => inr (dict_set col v results))
                           else inr results
                       | None => inr results
                       end) cols acc = inr results).
  { induction cols as [| col cols IH]; intros acc I; simpl;
      [now exists acc |].
    assert (I' : incl cols (c0 :: cs)) by (intros x Ix; apply I; now right).
    destruct (find_column col (df_columns d) 0) as [[i t] |] eqn:F; simpl;
      [| now apply IH].
    destruct (is_aggregation (aggregation_type pq)); [| now apply IH].
    assert (N : is_numeric_column d col = true).
    { apply present_numeric; [apply H, I; now left |].
      apply (find_column_mem col (df_columns d) 0). congruence. }
    unfold is_numeric_column in N. rewrite F in N.
    destruct t; try discriminate. simpl. now apply IH. }
  rewrite (proj1 K).
  destruct (Results (c0 :: cs) [] (incl_refl _)) as [results R].
  simpl in R. rewrite R. reflexivity.
Qed.

End AggregationNoError.

Lemma conditions_without_columns guard conds d :
  value_conditions guard conds [] d = inr d.
Proof.
  unfold value_conditions. induction conds as [| c conds IH]; simpl; auto.
Qed.

Lemma filter_skips_absent d pq :
  value_filter d pq = value_filter d (without_absent d pq).
Proof.
  unfold value_filter, without_absent; simpl.
  rewrite (conditions_skip_absent (fun fd col => mem col (column_names fd)) d
             (conditions pq) (columns pq)); [reflexivity | | apply kept_refl].
  intros fd col K. now rewrite (kept_names d fd K).
Qed.

Lemma returns_fst m s result : returns m s result -> fst (m s) = inr result.
Proof. now intros [R _]. Qed.

(** C2, as the code has it.  A condition on a referenced column that the
    table does not have is skipped: the filter answers as it does for the
    plan without the absent columns, and keeps every row when all the
    referenced columns are absent.  When the table is well typed and every
    referenced column is absent or numeric, the filter, on a table with at
    least one row, and the aggregation, with at least one referenced
    column, return a result that is not an error.  (A condition on a Text
    column is not skipped: it makes the filter answer with an error.) *)
Theorem conditions_on_absent_columns_are_skipped
        (reduce_other : string -> dtype -> list cell -> exn + cell)
        (s : Store) (df : loc) (d : DataFrame) (pq : ParsedQuery) :
  points_to s df d ->
  fst (_execute_filter_query df pq s)
  = fst (_execute_filter_query df (without_absent d pq) s)
  /\ ((forall col, In col (columns pq) -> mem col (column_names d) = false) ->
      df_rows d <> [] ->
      exists data percentage,
        fst (_execute_filter_query df pq s)
        = inr (Filter (List.length (df_rows d)) (List.length (df_rows d))
                      data (column_names d) (List.length (df_rows d))
                      percentage))
  /\ (well_typed d = true ->
      (forall col, In col (columns pq) ->
                   mem col (column_names d) = false
                   \/ is_numeric_column d col = true) ->
      (df_rows d <> [] ->
       exists r, fst (_execute_filter_query df pq s) = inr r
                 /\ is_error r = false)
      /\ (columns pq <> [] ->
          exists r,
            fst (_execute_aggregation_query reduce_other df pq s) = inr r
            /\ is_error r = false)).
Proof.
  intros P.
  rewrite !(returns_fst _ _ _ (filter_refines df _ s d P)).
  rewrite (returns_fst _ _ _ (aggregation_refines reduce_other df pq s d P)).
  split; [now rewrite <- filter_skips_absent |].
  split.
  - intros A R. rewrite filter_skips_absent.
    unfold value_filter, without_absent; simpl.
    replace (filter (fun col => mem col (column_names d)) (columns pq))
      with (@nil string).
    + rewrite conditions_without_columns. simpl.
      destruct (df_rows d) as [| row rows]; [congruence |]. simpl.
      eexists. eexists. reflexivity.
    + symmetry. induction (columns pq) as [| col cols IH]; simpl;
        [reflexivity |].
      rewrite (A col (or_introl eq_refl)). apply IH. intros x I. apply A.
      now right.
  - intros W H. split.
    + intros R. eexists. split; [reflexivity |]. now apply filter_no_error.
    + intros C. eexists. split; [reflexivity |].
      now apply aggregation_no_error.
Qed.

Lemma conditions_on_absent_columns_are_skipped_witness :
  let pq := {| type := "filter"; original_query := "";
               columns := ["Discount"; "Revenue"]; values := [];
               conditions := [ {| operator := OpGt; value := PInt 150 |} ];
               time_filters := {| quarter := None; month := None |};
               aggregation_type := "sum" |} in
  fst (_execute_filter_query 0%nat pq sales_bot)
  = fst (_execute_filter_query 0%nat (without_absent sales pq) sales_bot)
  /\ exists r, fst (_execute_filter_query 0%nat pq sales_bot) = inr r
               /\ is_error r = false.
Proof.
  intros pq.
  destruct (conditions_on_absent_columns_are_skipped
              (fun _ _ _ => inl TypeError) sales_bot 0%nat sales pq eq_refl)
    as [Skip [_ Normal]].
  split; [exact Skip |].
  apply Normal.
  - reflexivity.
  - intros col [<- | [<- | []]]; [now left | now right].
  - discriminate.
Defined.

(** ** nlargest *)





























(** * Further properties of the query engine *)

(** ** The columns of a plan *)

Lemma mem_In x l : mem x l = true <-> In x l.
Proof.
  unfold mem. rewrite existsb_exists. split.
  - intros [y [I E]]. apply String.eqb_eq in E. now subst.
  - intros I. exists x. split; [assumption | apply String.eqb_refl].
Qed.

Lemma append_new_spec p names columns :
  (forall x, In x (append_new p names columns) -> In x columns \/ In x names)
  /\ (NoDup columns -> NoDup (append_new p names columns)).
Proof.
  unfold append_new. revert columns.
  induction names as [| n names IH]; intros columns; simpl.
  - split; auto.
  - destruct (IH (if p n && negb (mem n columns) then columns ++ [n]
                  else columns)) as [In' ND'].
    split.
    + intros x I. destruct (In' x I) as [H | H]; [| now right; right].
      destruct (p n && negb (mem n columns)); [| now left].
      apply in_app_or in H. destruct H as [H | [<- | []]]; auto.
    + intros ND. apply ND'.
      destruct (p n && negb (mem n columns)) eqn:E; [| assumption].
      apply andb_true_iff in E. destruct E as [_ E].
      apply negb_true_iff in E.
      apply NoDup_app; [assumption | repeat constructor; intros [] |].
      intros x I [<- | []]. apply mem_In in I. congruence.
Qed.

(** X1.  The columns the parser puts in a plan are columns of the table,
    and none is listed twice when the table has no two columns of the same
    name: the guards [if col in df.columns] of the executors never fail on
    a parsed plan. *)
Theorem extracted_columns_are_table_columns (query : string) (df : DataFrame) :
  (forall col, In col (_extract_columns_from_query query df) ->
               In col (column_names df))
  /\ (NoDup (column_names df) ->
      NoDup (_extract_columns_from_query query df)).
Proof.
  unfold _extract_columns_from_query.
  set (names := column_names df).
  set (direct := filter _ names).
  assert (D : (forall x, In x direct -> In x names) /\ (NoDup names -> NoDup direct)).
  { split; [intros x I; apply filter_In in I; tauto | apply NoDup_filter]. }
  revert D. generalize direct. clear direct.
  induction column_synonyms as [| [synonym variants] syns IH]; intros cols D;
    simpl; [exact D |].
  apply IH. destruct (Str.any_in variants (Str.lower query)); [| exact D].
  destruct D as [I ND].
  destruct (append_new_spec (fun col => Str.str_in synonym (Str.lower col))
                            names cols) as [I' ND'].
  split.
  - intros x H. destruct (I' x H); auto.
  - intros N. auto.
Qed.

Lemma extracted_columns_are_table_columns_witness :
  NoDup (_extract_columns_from_query "sales and revenue by region" sales).
Proof.
  apply (extracted_columns_are_table_columns
           "sales and revenue by region" sales).
  repeat constructor; simpl; intuition discriminate.
Defined.

(** ** The numbers read from a query *)

Lemma span_spec p s :
  all_chars p (fst (Str.span p s)) = true
  /\ s = (fst (Str.span p s) ++ snd (Str.span p s))%string.
Proof.
  induction s as [| c s [IH1 IH2]]; simpl; [auto |].
  destruct (p c) eqn:E; [| auto].
  destruct (Str.span p s) as [a b]; simpl in *. rewrite E, IH1.
  split; [reflexivity | simpl; congruence].
Qed.

Lemma span_stops p a c b :
  all_chars p a = true -> p c = false ->
  Str.span p (a ++ String c b) = (a, String c b).
Proof.
  intros A C. induction a as [| x a IH]; simpl in *; [now rewrite C |].
  apply andb_true_iff in A. destruct A as [X A]. now rewrite X, (IH A).
Qed.

Lemma span_all p a : all_chars p a = true -> Str.span p a = (a, ""%string).
Proof.
  induction a as [| x a IH]; simpl; [reflexivity |].
  intros A. apply andb_true_iff in A. destruct A as [X A].
  now rewrite X, (IH A).
Qed.

Lemma digit_val_nonneg c : Str.is_digit c = true -> (0 <= Str.digit_val c)%Z.
Proof.
  unfold Str.is_digit, Str.digit_val. intros H.
  apply andb_true_iff in H. destruct H as [H _]. apply Nat.leb_le in H. lia.
Qed.

Lemma int_of_digits_acc_nonneg s acc :
  all_chars Str.is_digit s = true -> (0 <= acc)%Z ->
  (0 <= Str.int_of_digits_acc acc s)%Z.
Proof.
  revert acc.
  induction s as [| c s IH]; cbn [Str.int_of_digits_acc all_chars];
    intros acc A H; [assumption |].
  apply andb_true_iff in A. destruct A as [C A]. apply IH; [assumption |].
  pose proof (digit_val_nonneg c C). lia.
Qed.

Lemma all_chars_app p a b :
  all_chars p (a ++ b) = all_chars p a && all_chars p b.
Proof.
  induction a as [| c a IH]; simpl; [reflexivity |].
  now rewrite IH, andb_assoc.
Qed.

Lemma digits_have_no_dot s :
  all_chars Str.is_digit s = true -> Str.str_in "." s = false.
Proof.
  induction s as [| c s IH]; [reflexivity |].
  cbn [Str.str_in all_chars String.prefix].
  intros A. apply andb_true_iff in A. destruct A as [C A].
  rewrite (IH A). destruct (ascii_dec "." c) as [<- | _]; [discriminate C |].
  reflexivity.
Qed.

(** The texts [\d+(?:\.\d+)?] matches: digits, or digits, a dot, digits. *)
Lemma match_number_shape s m :
  Str.match_number s = Some m ->
  exists ds fs,
    all_chars Str.is_digit ds = true /\ all_chars Str.is_digit fs = true
    /\ (m = ds \/ m = (ds ++ "." ++ fs)%string).
Proof.
  unfold Str.match_number.
  destruct (span_spec Str.is_digit s) as [D _].
  destruct (Str.span Str.is_digit s) as [ds r]; simpl in D.
  destruct (Str.is_empty ds); [discriminate |].
  destruct r as [| c r'].
  - intros [= <-]. exists ds, ""%string. auto.
  - destruct (ascii_dec c ".") as [-> | Ne].
    + destruct (span_spec Str.is_digit r') as [F _].
      destruct (Str.span Str.is_digit r') as [fs r'']; simpl in F.
      destruct (Str.is_empty fs); intros [= <-]; exists ds, fs; auto.
    + assert (E : forall (x : option string),
                 match c with
                 | "."%char => x
                 | _ => Some ds
                 end = Some m -> Some ds = Some m).
      { intros x.
        destruct c as [[] [] [] [] [] [] [] []]; try (intros H; exact H).
        now destruct Ne. }
      intros H. apply E in H. injection H as <-.
      exists ds, ""%string. auto.
Qed.

Lemma number_of_match_nonneg ds fs m :
  all_chars Str.is_digit ds = true -> all_chars Str.is_digit fs = true ->
  m = ds \/ m = (ds ++ "." ++ fs)%string ->
  0 <= pyval_Q (number_of_match m).
Proof.
  intros D F [-> | ->]; unfold number_of_match.
  - rewrite (digits_have_no_dot ds D). cbn [pyval_Q].
    change 0 with (inject_Z 0). rewrite <- Zle_Qle.
    apply int_of_digits_acc_nonneg; [assumption | lia].
  - rewrite str_in_app. cbn [pyval_Q]. unfold float_of_decimal.
    change (ds ++ "." ++ fs)%string with (ds ++ String "." fs)%string.
    rewrite (span_stops Str.is_digit ds "." fs D eq_refl).
    cbn [Str.drop]. rewrite Qred_correct. unfold Qle. cbn [Qnum Qden].
    rewrite Z.mul_0_l, Z.mul_1_r.
    apply int_of_digits_acc_nonneg; [| lia].
    now rewrite all_chars_app, D, F.
Qed.

Lemma findall_from_forall (P : string -> Prop) try :
  (forall s m len, try s = Some (m, len) -> P m) ->
  forall s skip, Forall P (Str.findall_from try skip s).
Proof.
  intros T s. induction s as [| c s IH]; intros skip; simpl; [constructor |].
  destruct skip as [| k]; [| apply IH].
  destruct (try (String c s)) as [[m len] |] eqn:E; [| apply IH].
  constructor; [exact (T _ _ _ E) | apply IH].
Qed.

(** X2.  Every number read from a query, as a value or as the bound of a
    condition, is non-negative: the patterns match digits only, so the
    sign of a negative literal is dropped from the values, and a
    comparison with a negative bound yields no condition. *)
Theorem extracted_numbers_are_non_negative (query : string) :
  (forall v, In v (_extract_values_from_query query) -> 0 <= pyval_Q v)
  /\ (forall c, In c (_extract_conditions_from_query query) ->
                0 <= pyval_Q (value c))
  /\ _extract_values_from_query "-5" = [PInt 5]
  /\ _extract_conditions_from_query "revenue > -5" = [].
Proof.
  assert (N : forall s m, Str.match_number s = Some m ->
                          0 <= pyval_Q (number_of_match m)).
  { intros s m H. destruct (match_number_shape s m H) as [ds [fs [D [F S]]]].
    exact (number_of_match_nonneg ds fs m D F S). }
  split; [| split; [| split; reflexivity]].
  - intros v I. unfold _extract_values_from_query in I.
    apply in_map_iff in I. destruct I as [m [<- I]].
    revert m I. apply Forall_forall. apply findall_from_forall.
    intros s m len H. destruct (Str.match_number s) eqn:E; [| discriminate].
    injection H as <- _. exact (N s _ E).
  - intros c I. unfold _extract_conditions_from_query in I.
    apply in_flat_map in I. destruct I as [[pattern op] [_ I]].
    apply in_map_iff in I. destruct I as [m [<- I]]. simpl.
    revert m I. apply Forall_forall. apply findall_from_forall.
    intros s m len H. unfold Str.match_comparison in H.
    destruct (String.prefix pattern s); [| discriminate].
    destruct (Str.span Str.is_space _) as [ws r].
    destruct (Str.match_number r) eqn:E; [| discriminate].
    injection H as <- _. exact (N r _ E).
Qed.

Lemma extracted_numbers_are_non_negative_witness :
  0 <= pyval_Q (PFloat (7 # 2)).
Proof.
  apply (extracted_numbers_are_non_negative "top 10 of 3.5").
  vm_compute. auto.
Defined.

(** ** Overlapping comparison patterns *)

Lemma all_chars_impl (p q : ascii -> bool) s :
  (forall c, p c = true -> q c = true) ->
  all_chars p s = true -> all_chars q s = true.
Proof.
  intros I. induction s as [| c s IH]; simpl; [reflexivity |].
  intros A. apply andb_true_iff in A. destruct A as [C A].
  now rewrite (I c C), (IH A).
Qed.

Lemma string_app_assoc (a b c : string) :
  ((a ++ b) ++ c = a ++ b ++ c)%string.
Proof. induction a as [| x a IH]; simpl; [reflexivity | now rewrite IH]. Qed.

Lemma string_app_length (a b : string) :
  String.length (a ++ b) = (String.length a + String.length b)%nat.
Proof. induction a as [| x a IH]; simpl; [reflexivity | now rewrite IH]. Qed.

Lemma drop_app (a b : string) : Str.drop (String.length a) (a ++ b) = b.
Proof. induction a as [| x a IH]; simpl; [now destruct b | exact IH]. Qed.

Lemma match_number_prefix s m :
  Str.match_number s = Some m -> exists rest, s = (m ++ rest)%string.
Proof.
  unfold Str.match_number.
  destruct (span_spec Str.is_digit s) as [_ E].
  destruct (Str.span Str.is_digit s) as [ds r]; simpl in E.
  destruct (Str.is_empty ds); [discriminate |].
  destruct r as [| c r'].
  - intros [= <-]. now exists ""%string.
  - destruct (ascii_dec c ".") as [-> | Ne].
    + destruct (span_spec Str.is_digit r') as [_ E'].
      destruct (Str.span Str.is_digit r') as [fs r'']; simpl in E'.
      destruct (Str.is_empty fs); intros [= <-].
      * now exists (String "." r').
      * exists r''. rewrite E, E'. now rewrite !string_app_assoc.
    + assert (K : forall (x : option string),
                 match c with
                 | "."%char => x
                 | _ => Some ds
                 end = Some m -> Some ds = Some m).
      { intros x.
        destruct c as [[] [] [] [] [] [] [] []]; try (intros H; exact H).
        now destruct Ne. }
      intros H. apply K in H. injection H as <-. now exists (String c r').
Qed.

(** A match of [op\s*(\d+(?:\.\d+)?)]: the operator, then white space,
    then the number, all of it counted in the length. *)
Lemma match_comparison_shape op s m len :
  Str.match_comparison op s = Some (m, len) ->
  exists tail rest,
    s = (op ++ tail ++ rest)%string
    /\ all_chars after_operator tail = true
    /\ len = (String.length op + String.length tail)%nat.
Proof.
  unfold Str.match_comparison.
  destruct (String.prefix op s) eqn:P; [| discriminate].
  destruct (prefix_split _ _ P) as [b ->]. rewrite drop_app.
  destruct (span_spec Str.is_space b) as [W E].
  destruct (Str.span Str.is_space b) as [ws r]; simpl in W, E.
  destruct (Str.match_number r) as [m' |] eqn:N; [| discriminate].
  intros [= -> <-].
  destruct (match_number_prefix r m N) as [rest ->].
  destruct (match_number_shape _ m N) as [ds [fs [D [F S]]]].
  exists (ws ++ m)%string, rest. split; [| split].
  - now rewrite E, !string_app_assoc.
  - rewrite all_chars_app. apply andb_true_iff. split.
    + apply (all_chars_impl Str.is_space); [| assumption].
      intros c C. unfold after_operator. now rewrite C.
    + assert (Dg : forall x, all_chars Str.is_digit x = true ->
                             all_chars after_operator x = true).
      { intros x. apply all_chars_impl. intros c C. unfold after_operator.
        rewrite C. now rewrite orb_true_r. }
      destruct S as [-> | ->]; [now apply Dg |].
      rewrite all_chars_app. simpl. now rewrite (Dg ds D), (Dg fs F).
  - rewrite string_app_length. lia.
Qed.

Lemma findall_from_source try skip s m :
  In m (Str.findall_from try skip s) ->
  exists pre suf len, s = (pre ++ suf)%string /\ try suf = Some (m, len).
Proof.
  revert skip. induction s as [| c s IH]; intros skip; simpl; [contradiction |].
  assert (Step : forall k, In m (Str.findall_from try k s) ->
            exists pre suf len,
              String c s = (pre ++ suf)%string /\ try suf = Some (m, len)).
  { intros k I. destruct (IH k I) as [pre [suf [len [-> T]]]].
    now exists (String c pre), suf, len. }
  destruct skip as [| k]; [| apply Step].
  destruct (try (String c s)) as [[m' len'] |] eqn:T; [| apply Step].
  intros [<- | I]; [| exact (Step _ I)].
  now exists ""%string, (String c s), len'.
Qed.

(** The scan for [=\s*(\d+(?:\.\d+)?)] is never inside a match when it
    reaches an [=] sign: a match of the pattern at that sign is found. *)
Lemma eq_match_is_found m len suf pre skip :
  Str.match_comparison "=" (String "=" suf) = Some (m, len) ->
  (exists a b, (pre ++ String "=" suf)%string = (a ++ b)%string
               /\ String.length a = skip
               /\ all_chars after_operator a = true) ->
  In m (Str.findall_from (Str.match_comparison "=") skip
                         (pre ++ String "=" suf)).
Proof.
  intros T. revert skip. induction pre as [| c pre IH]; intros skip Cov.
  - change ("" ++ String "=" suf)%string with (String "=" suf) in *.
    destruct Cov as [a [b [E [L A]]]].
    destruct a as [| x a]; simpl in *.
    + subst skip. rewrite T. now left.
    + injection E as <- _. discriminate A.
  - change (String c pre ++ String "=" suf)%string
      with (String c (pre ++ String "=" suf)) in *.
    cbn [Str.findall_from].
    destruct skip as [| k].
    + destruct (Str.match_comparison "=" (String c (pre ++ String "=" suf)))
        as [[m' len'] |] eqn:T'.
      * right. apply IH.
        destruct (match_comparison_shape _ _ _ _ T') as [tail [rest [E [A ->]]]].
        simpl in E. injection E as _ E.
        exists tail, rest. now rewrite E.
      * apply IH. now exists ""%string, (pre ++ String "=" suf)%string.
    + apply IH. destruct Cov as [a [b [E [L A]]]].
      destruct a as [| x a]; simpl in *; [discriminate |].
      injection E as _ E. injection L as L.
      apply andb_true_iff in A. exists a, b. tauto.
Qed.

Lemma compound_operator_holds_eq (lt_or_gt : ascii) suf m len :
  Str.match_comparison (String lt_or_gt "=") suf = Some (m, len) ->
  exists suf',
    suf = String lt_or_gt (String "=" suf')
    /\ Str.match_comparison "=" (String "=" suf') = Some (m, Nat.pred len).
Proof.
  unfold Str.match_comparison.
  destruct (String.prefix (String lt_or_gt "=") suf) eqn:P; [| discriminate].
  destruct (prefix_split _ _ P) as [b ->]. intros H. exists b.
  split; [reflexivity |].
  rewrite (drop_app (String lt_or_gt "=") b) in H.
  change (String "=" b) with ("=" ++ b)%string.
  rewrite (prefix_app "=" b), (drop_app "=" b).
  destruct (Str.span Str.is_space b) as [ws r].
  destruct (Str.match_number r); [| discriminate].
  now injection H as <- <-.
Qed.

Lemma compound_match_is_eq_match (lt_or_gt : ascii) query m :
  In m (Str.findall_comparison (String lt_or_gt "=") query) ->
  In m (Str.findall_comparison "=" query).
Proof.
  unfold Str.findall_comparison, Str.findall. intros I.
  destruct (findall_from_source _ _ _ _ I) as [pre [suf [len [-> T]]]].
  destruct (compound_operator_holds_eq lt_or_gt suf m len T) as [suf' [-> T']].
  replace (pre ++ String lt_or_gt (String "=" suf'))%string
    with ((pre ++ String lt_or_gt "") ++ String "=" suf')%string
    by (now rewrite string_app_assoc).
  apply (eq_match_is_found m (Nat.pred len)); [exact T' |].
  now exists ""%string, ((pre ++ String lt_or_gt "") ++ String "=" suf')%string.
Qed.

(** X3.  Whatever the query, every condition extracted for [>=] or [<=]
    comes with a condition [=] on the same number: the pattern of [=]
    matches inside each [>=] and [<=] token, so a plan never holds a
    [>=] or [<=] bound alone. *)
Theorem compound_comparisons_come_with_equality
        (query : string) (c : Condition) :
  In c (_extract_conditions_from_query query) ->
  operator c = OpGe \/ operator c = OpLe ->
  In {| operator := OpEq; value := value c |}
     (_extract_conditions_from_query query).
Proof.
  unfold _extract_conditions_from_query. intros I Op.
  apply in_flat_map in I. destruct I as [[pattern op] [P I]].
  apply in_map_iff in I. destruct I as [m [<- I]].
  cbn [operator value] in Op |- *.
  assert (E : In m (Str.findall_comparison "=" query)).
  { simpl in P.
    destruct P as [[= <- <-] | [[= <- <-] | [[= <- <-] | [[= <- <-] |
                  [[= <- <-] | []]]]]];
      try (destruct Op; discriminate);
      now apply compound_match_is_eq_match in I. }
  apply in_flat_map. exists ("=", OpEq). split; [simpl; tauto |].
  apply in_map_iff. now exists m.
Qed.

Lemma compound_comparisons_come_with_equality_witness :
  In {| operator := OpEq; value := PInt 200 |}
     (_extract_conditions_from_query "revenue <= 200 and cost >= 3.5").
Proof.
  apply (compound_comparisons_come_with_equality
           "revenue <= 200 and cost >= 3.5"
           {| operator := OpLe; value := PInt 200 |}).
  - vm_compute. auto.
  - now right.
Defined.

(** ** Calendar tokens *)

Lemma last_hit_cons k n table s :
  last_hit ((k, n) :: table) s
  = match last_hit table s with
    | Some m => Some m
    | None => if Str.str_in k s then Some n else None
    end.
Proof.
  unfold last_hit.
  set (f := fun (slot : option Z) '(k, num) =>
              if Str.str_in k s then Some num else slot).
  assert (L : forall t slot,
             fold_left f t slot = match fold_left f t None with
                                  | Some m => Some m
                                  | None => slot
                                  end).
  { induction t as [| [k' n'] t IH]; intros slot; simpl; [reflexivity |].
    rewrite (IH (if Str.str_in k' s then Some n' else slot)),
      (IH (if Str.str_in k' s then Some n' else None)).
    destruct (fold_left f t None); [reflexivity |].
    now destruct (Str.str_in k' s). }
  simpl. rewrite (L table). destruct (fold_left f table None); reflexivity.
Qed.

Lemma last_hit_spec table s :
  StronglySorted (fun a b : string * Z => (snd a < snd b)%Z) table ->
  (last_hit table s = None
   <-> forall k n, In (k, n) table -> Str.str_in k s = false)
  /\ (forall n,
         last_hit table s = Some n
         <-> (exists k, In (k, n) table /\ Str.str_in k s = true)
             /\ (forall k' n', In (k', n') table -> (n < n')%Z ->
                               Str.str_in k' s = false)).
Proof.
  induction 1 as [| [k n] table S [IHn IHs] F].
  - split; [split; [intros _ k n [] | reflexivity] |].
    intros n. split; [discriminate | intros [[k [[] _]] _]].
  - rewrite Forall_forall in F. rewrite last_hit_cons.
    destruct (last_hit table s) as [m0 |] eqn:L.
    + destruct (proj1 (IHs m0) eq_refl) as [[k0 [I0 H0]] No0].
      pose proof (F _ I0) as Lt0. simpl in Lt0.
      split.
      * split; [discriminate |]. intros A.
        rewrite (A k0 m0 (or_intror I0)) in H0. discriminate.
      * intros m. split.
        -- intros [= <-]. split; [exists k0; split; [now right | assumption] |].
           intros k' n' [[= <- <-] | I] Lt; [lia | exact (No0 k' n' I Lt)].
        -- intros [[key [[[= <- <-] | I] Hit]] No].
           ++ rewrite (No k0 m0 (or_intror I0) Lt0) in H0. discriminate.
           ++ apply IHs. split; [now exists key |].
              intros k' n' I' Lt. apply (No k' n'); [now right | assumption].
    + pose proof (proj1 IHn eq_refl) as None0.
      split.
      * destruct (Str.str_in k s) eqn:Hk.
        -- split; [discriminate |]. intros A.
           rewrite (A k n (or_introl eq_refl)) in Hk. discriminate.
        -- split; [| reflexivity]. intros _ k' n' [[= <- <-] | I];
             [assumption | exact (None0 k' n' I)].
      * intros m. destruct (Str.str_in k s) eqn:Hk.
        -- split.
           ++ intros [= <-]. split; [exists k; split; [now left | assumption] |].
              intros k' n' [[= <- <-] | I] Lt; [lia | exact (None0 k' n' I)].
           ++ intros [[key [[[= <- <-] | I] Hit]] _]; [reflexivity |].
              rewrite (None0 key m I) in Hit. discriminate.
        -- split; [discriminate |].
           intros [[key [[[= <- <-] | I] Hit]] _]; [congruence |].
           rewrite (None0 key m I) in Hit. discriminate.
Qed.

Lemma quarters_sorted :
  StronglySorted (fun a b : string * Z => (snd a < snd b)%Z) quarters.
Proof. repeat (constructor; [| repeat constructor; simpl; lia]). constructor. Qed.

Lemma months_sorted :
  StronglySorted (fun a b : string * Z => (snd a < snd b)%Z) months.
Proof. repeat (constructor; [| repeat constructor; simpl; lia]). constructor. Qed.

(** X4.  The quarter of a plan is the highest-numbered quarter token
    ([q1] .. [q4]) that occurs in the lower-cased query, whatever the order
    of the tokens in the text, and there is none exactly when no token
    occurs; the month is likewise the latest month of the year whose name
    occurs.  Both are in range. *)
Theorem time_filter_is_the_latest_token (query : string) :
  let tf := _extract_time_filters query in
  let occurs := fun k => Str.str_in k (Str.lower query) in
  (quarter tf = None <-> forall k n, In (k, n) quarters -> occurs k = false)
  /\ (forall n,
         quarter tf = Some n
         <-> (exists k, In (k, n) quarters /\ occurs k = true)
             /\ (forall k' n', In (k', n') quarters -> (n < n')%Z ->
                               occurs k' = false))
  /\ (month tf = None <-> forall k n, In (k, n) months -> occurs k = false)
  /\ (forall n,
         month tf = Some n
         <-> (exists k, In (k, n) months /\ occurs k = true)
             /\ (forall k' n', In (k', n') months -> (n < n')%Z ->
                               occurs k' = false))
  /\ (forall n, quarter tf = Some n -> (1 <= n <= 4)%Z)
  /\ (forall n, month tf = Some n -> (1 <= n <= 12)%Z).
Proof.
  intros tf occurs.
  destruct (last_hit_spec quarters (Str.lower query) quarters_sorted)
    as [Qn Qs].
  destruct (last_hit_spec months (Str.lower query) months_sorted) as [Mn Ms].
  split; [exact Qn |]. split; [exact Qs |].
  split; [exact Mn |]. split; [exact Ms |]. split.
  - intros n H. apply Qs in H. destruct H as [[k [I _]] _]. simpl in I.
    repeat (destruct I as [I | I]; [injection I as _ <-; lia |]).
    contradiction.
  - intros n H. apply Ms in H. destruct H as [[k [I _]] _]. simpl in I.
    repeat (destruct I as [I | I]; [injection I as _ <-; lia |]).
    contradiction.
Qed.

Lemma time_filter_is_the_latest_token_witness :
  quarter (_extract_time_filters "Q3 compared with q1") = Some 3%Z.
Proof.
  apply (time_filter_is_the_latest_token "Q3 compared with q1"). split.
  - exists "q3". split; [simpl; tauto | reflexivity].
  - intros k' n' I Lt. simpl in I.
    repeat (destruct I as [[= <- <-] | I]; [try lia; try reflexivity |]).
    contradiction.
Defined.

(** ** The calendar filter *)

Lemma select_rows_map {A} (g : A -> bool) (rows : list A) :
  select_rows (map g rows) rows = filter g rows.
Proof.
  induction rows as [| r rows IH]; simpl; [reflexivity |].
  now rewrite IH.
Qed.

Lemma filter_filter {A} (f g : A -> bool) (l : list A) :
  filter g (filter f l) = filter (fun x => f x && g x) l.
Proof.
  induction l as [| x l IH]; simpl; [reflexivity |].
  destruct (f x); simpl; [destruct (g x) |]; now rewrite IH.
Qed.

Lemma filter_all {A} (l : list A) : filter (fun _ => true) l = l.
Proof. induction l as [| x l IH]; simpl; [reflexivity | now rewrite IH]. Qed.

Lemma dt_filter_value d i t col field n :
  find_column col (df_columns d) 0 = Some (i, t) ->
  ebind (frame_dt_eq d col field n) (fun mask => inr (frame_select d mask))
  = inr {| df_columns := df_columns d;
           df_rows := filter (fun row => dt_field_eq field n (nth i row CNull))
                             (df_rows d) |}.
Proof.
  intros F. unfold frame_dt_eq, frame_select, column_cells. rewrite F. simpl.
  now rewrite map_map, select_rows_map.
Qed.

Lemma time_filters_value d tf date_col others i t :
  select_dtypes DDateTime d = date_col :: others ->
  find_column date_col (df_columns d) 0 = Some (i, t) ->
  value_time_filters d tf
  = inr {| df_columns := df_columns d;
           df_rows := filter (fun row => period_masks tf (nth i row CNull))
                             (df_rows d) |}.
Proof.
  intros S F. unfold value_time_filters, period_masks. rewrite S.
  destruct (quarter tf) as [q |], (month tf) as [m |].
  - rewrite (dt_filter_value d i t date_col quarter_of q F). cbn [ebind].
    match goal with
    | |- ebind (frame_dt_eq ?d1 _ _ _) _ = _ =>
        rewrite (dt_filter_value d1 i t date_col ts_month m F)
    end.
    cbn [df_columns df_rows].
    now rewrite filter_filter.
  - rewrite (dt_filter_value d i t date_col quarter_of q F). cbn [ebind].
    f_equal. f_equal.
    apply filter_ext. intros row. now rewrite andb_true_r.
  - cbn [ebind]. rewrite (dt_filter_value d i t date_col ts_month m F).
    reflexivity.
  - cbn [andb]. rewrite filter_all. now destruct d.
Qed.

Lemma chosen_filter {A} (P : A -> Prop) (f : A -> bool) (l : list A) :
  (forall x, In x l -> (f x = true <-> P x)) -> chosen P l (filter f l).
Proof.
  induction l as [| x l IH]; intros H; cbn [filter]; [constructor |].
  assert (Rest : chosen P l (filter f l))
    by (apply IH; intros y I; apply H; now right).
  destruct (f x) eqn:E.
  - apply chosen_take; [| exact Rest]. apply H; [now left | exact E].
  - apply chosen_skip; [| exact Rest].
    intros Px. apply H in Px; [congruence | now left].
Qed.

(** The property decides the rows chosen. *)
Lemma chosen_unique {A} (P : A -> Prop) (l sub sub' : list A) :
  chosen P l sub -> chosen P l sub' -> sub = sub'.
Proof.
  intros C. revert sub'.
  induction C as [| x l sub Px C IH | x l sub NPx C IH]; intros sub' C';
    inversion C'; subst; try contradiction; auto.
  f_equal. now apply IH.
Qed.

Lemma dtype_eqb_eq (a b : dtype) : dtype_eqb a b = true <-> a = b.
Proof. destruct a, b; cbn; split; congruence. Qed.

Lemma no_column_of_kind (k : dtype) (d : DataFrame) :
  (forall c t, In (c, t) (df_columns d) -> t <> k) -> select_dtypes k d = [].
Proof.
  unfold select_dtypes. induction (df_columns d) as [| [c t] cs IH]; intros H;
    cbn [filter snd]; [reflexivity |].
  destruct (dtype_eqb t k) eqn:E.
  - apply dtype_eqb_eq in E. now destruct (H c t (or_introl eq_refl)).
  - apply IH. intros c' t' I. apply (H c' t'). now right.
Qed.

Lemma first_column_of_kind (k : dtype) (d : DataFrame) (i : nat)
      (col : string) :
  nth_error (df_columns d) i = Some (col, k) ->
  (forall j c t, (j < i)%nat -> nth_error (df_columns d) j = Some (c, t) ->
                 t <> k) ->
  exists others, select_dtypes k d = col :: others.
Proof.
  unfold select_dtypes. generalize (df_columns d) as cs. clear d.
  induction i as [| i IH]; intros [| [c t] cs] N Before;
    cbn [nth_error] in N; try discriminate; cbn [filter snd].
  - injection N as -> ->.
    rewrite (proj2 (dtype_eqb_eq k k) eq_refl). cbn [map fst]. eauto.
  - destruct (dtype_eqb t k) eqn:E.
    + apply dtype_eqb_eq in E.
      now destruct (Before 0%nat c t (Nat.lt_0_succ i) eq_refl).
    + apply (IH cs N). intros j c' t' J N'.
      apply (Before (S j) c' t'); [lia | exact N'].
Qed.

(** The quarter of a month, by division, is the quarter that holds it. *)
Lemma quarter_months (t : Timestamp) (q : Z) :
  quarter_of t = q <-> (3 * q - 2 <= ts_month t <= 3 * q)%Z.
Proof.
  unfold quarter_of. pose proof (Z.div_mod (ts_month t - 1) 3) as D.
  pose proof (Z.mod_pos_bound (ts_month t - 1) 3) as B. lia.
Qed.

Lemma period_masks_in_period (tf : TimeFilters) (c : cell) :
  period_masks tf c = true <-> in_period tf c.
Proof.
  unfold period_masks, in_period. rewrite andb_true_iff.
  assert (Field : forall field n,
             dt_field_eq field n c = true
             <-> exists t, c = CDate t /\ field t = n).
  { intros field n. destruct c as [x | t | x |]; cbn [dt_field_eq].
    - split; [discriminate | now intros (t & ? & _)].
    - rewrite Z.eqb_eq. split; [eauto |]. now intros (t' & [= <-] & E).
    - split; [discriminate | now intros (t & ? & _)].
    - split; [discriminate | now intros (t & ? & _)]. }
  split.
  - intros [Hq Hm]. split.
    + intros q E. rewrite E in Hq. apply Field in Hq as (t & C & Q).
      exists t. split; [exact C | now apply quarter_months].
    + intros m E. rewrite E in Hm. now apply Field in Hm.
  - intros [Hq Hm]. split.
    + destruct (quarter tf) as [q |]; [| reflexivity].
      destruct (Hq q eq_refl) as (t & C & Q). apply Field.
      exists t. split; [exact C | now apply quarter_months].
    + destruct (month tf) as [m |]; [| reflexivity].
      apply Field. exact (Hm m eq_refl).
Qed.

(** X5.  The calendar filter, on a table whose columns have distinct
    names.  When the table has no column of dates the filter hands back
    the very frame it was given and allocates nothing, whatever quarter or
    month the query names: the request for a period is dropped without
    notice.  Otherwise the frame it returns has the columns of the table
    and holds, in order, exactly the rows whose cell in the first column
    of dates is in the period asked for: a date of one of the three
    months of the quarter, and of the month; a row without a date is in
    no period; and the store is only extended. *)
Theorem time_filter_keeps_the_period
        (s : Store) (df : loc) (d : DataFrame) (tf : TimeFilters) :
  NoDup (column_names d) ->
  points_to s df d ->
  ((forall c t, In (c, t) (df_columns d) -> t <> DDateTime) ->
   _apply_time_filters df tf s = (inr df, s))
  /\ (forall i date_col,
         nth_error (df_columns d) i = Some (date_col, DDateTime) ->
         (forall j c t, (j < i)%nat ->
                        nth_error (df_columns d) j = Some (c, t) ->
                        t <> DDateTime) ->
         exists l rows,
           fst (_apply_time_filters df tf s) = inr l
           /\ extends s (snd (_apply_time_filters df tf s))
           /\ points_to (snd (_apply_time_filters df tf s)) l
                {| df_columns := df_columns d; df_rows := rows |}
           /\ chosen (fun row => in_period tf (nth i row CNull))
                     (df_rows d) rows).
Proof.
  intros ND P. split.
  - intros None. pose proof (no_column_of_kind DDateTime d None) as S.
    unfold _apply_time_filters. unfold points_to in P.
    destruct (quarter tf), (month tf); unfold bind, read, ret;
      rewrite ?P, ?S; reflexivity.
  - intros i date_col N First.
    destruct (first_column_of_kind DDateTime d i date_col N First)
      as [others S].
    pose proof (find_column_position date_col DDateTime _ 0 i ND N) as F.
    cbn [Nat.add] in F.
    pose proof (time_filters_value d tf date_col others i DDateTime S F) as V.
    assert (W : wp (_apply_time_filters df tf) s
                  (fun r s' =>
                     exists l, r = inr l /\ extends s s'
                               /\ points_to s' l
                                    {| df_columns := df_columns d;
                                       df_rows :=
                                         filter (fun row =>
                                                   period_masks tf
                                                     (nth i row CNull))
                                                (df_rows d) |})).
    { apply (refines_time_filters s df d tf _ P).
      intros s' E. rewrite V. intros l' Pt. now exists l'. }
    destruct W as [l [R [E Pt]]].
    exists l, (filter (fun row => period_masks tf (nth i row CNull))
                      (df_rows d)).
    split; [exact R |]. split; [exact E |]. split; [exact Pt |].
    apply chosen_filter. intros row _. apply period_masks_in_period.
Qed.

Lemma time_filter_keeps_the_period_witness :
  exists l,
    fst (_apply_time_filters 0%nat {| quarter := Some 1%Z; month := None |}
                             orders_bot) = inr l
    /\ points_to
         (snd (_apply_time_filters 0%nat
                                   {| quarter := Some 1%Z; month := None |}
                                   orders_bot)) l
         {| df_columns := df_columns orders;
            df_rows :=
              [ [CDate {| ts_year := 2024; ts_month := 2; ts_day := 10 |};
                 CNum 50];
                [CDate {| ts_year := 2025; ts_month := 3; ts_day := 31 |};
                 CNum 90] ] |}
    /\ chosen (fun row => in_period {| quarter := Some 1%Z; month := None |}
                                    (nth 0 row CNull))
              (df_rows orders)
              [ [CDate {| ts_year := 2024; ts_month := 2; ts_day := 10 |};
                 CNum 50];
                [CDate {| ts_year := 2025; ts_month := 3; ts_day := 31 |};
                 CNum 90] ].
Proof.
  assert (Names : NoDup (column_names orders)).
  { repeat constructor; cbn; intuition discriminate. }
  assert (First : forall j c t, (j < 0)%nat ->
                                nth_error (df_columns orders) j = Some (c, t) ->
                                t <> DDateTime) by (intros j c t J; lia).
  destruct (proj2 (time_filter_keeps_the_period
                     orders_bot 0%nat orders
                     {| quarter := Some 1%Z; month := None |} Names eq_refl)
                  0%nat "Placed" eq_refl First)
    as (l & rows & R & _ & Pt & Ch).
  exists l. split; [exact R |].
  assert (Rows : rows
                 = [ [CDate {| ts_year := 2024; ts_month := 2; ts_day := 10 |};
                      CNum 50];
                     [CDate {| ts_year := 2025; ts_month := 3; ts_day := 31 |};
                      CNum 90] ]).
  { vm_compute in R. injection R as <-. vm_compute in Pt. now injection Pt. }
  rewrite <- Rows. split; [exact Pt | exact Ch].
Defined.

(** ** The rows a filter returns *)

Lemma select_rows_none {A B} (l : list B) (rows : list A) :
  select_rows (map (fun _ => false) l) rows = [].
Proof.
  revert rows. induction l as [| x l IH]; intros [| r rows]; simpl; auto.
Qed.

Lemma filter_none {A} (f : A -> bool) (l : list A) :
  (forall x, f x = false) -> filter f l = [].
Proof.
  intros F. induction l as [| x l IH]; simpl; [reflexivity |].
  now rewrite F.
Qed.

Lemma sequence_select {A} (f : A -> exn + bool) (rows : list A) mask :
  sequence (map f rows) = inr mask ->
  select_rows mask rows
  = filter (fun r => match f r with inr true => true | _ => false end) rows.
Proof.
  revert mask. induction rows as [| r rows IH]; intros mask; simpl.
  - now intros [= <-].
  - destruct (f r) as [e | b]; [discriminate |].
    destruct (sequence (map f rows)) as [e | mask']; [discriminate |].
    intros [= <-]. simpl. rewrite (IH mask' eq_refl).
    now destruct b.
Qed.

Lemma compare_series_select {A} t op v (g : A -> cell) (rows : list A) mask :
  compare_series t op v (map g rows) = inr mask ->
  select_rows mask rows
  = filter (fun r => match compare_series t op v [g r] with
                     | inr [true] => true
                     | _ => false
                     end) rows.
Proof.
  assert (Cells : sequence (map (compare_cell op v) (map g rows)) = inr mask ->
            select_rows mask rows
            = filter (fun r =>
                        match sequence [compare_cell op v (g r)] with
                        | inr [true] => true
                        | _ => false
                        end) rows).
  { rewrite map_map. intros H. rewrite (sequence_select _ rows mask H).
    apply filter_ext. intros r. simpl.
    now destruct (compare_cell op v (g r)) as [e | []]. }
  destruct t, op; simpl; try exact Cells; try discriminate.
  intros [= <-]. rewrite select_rows_none. symmetry.
  now apply filter_none.
Qed.

Lemma condition_filters d fd col c fd' :
  df_columns fd = df_columns d ->
  mem col (column_names d) = true ->
  value_condition fd col c = inr fd' ->
  df_columns fd' = df_columns d
  /\ df_rows fd' = filter (row_passes d c col) (df_rows fd).
Proof.
  intros C M. unfold value_condition, frame_compare, row_passes. rewrite C.
  apply (find_column_mem col (df_columns d) 0) in M.
  destruct (find_column col (df_columns d) 0) as [[i t] |]; [| congruence].
  destruct (compare_series t (operator c) (pyval_Q (value c))
                           (column_cells i (df_rows fd))) as [e | mask] eqn:E;
    simpl; [discriminate |].
  intros [= <-]. simpl. split; [exact C |].
  exact (compare_series_select t _ _ (fun row => nth i row CNull) _ mask E).
Qed.

Lemma absent_column_passes d c col row :
  mem col (column_names d) = false -> row_passes d c col row = true.
Proof.
  intros M. unfold row_passes.
  destruct (find_column col (df_columns d) 0) eqn:F; [| reflexivity].
  assert (T : mem col (column_names d) = true).
  { apply (find_column_mem col (df_columns d) 0). congruence. }
  congruence.
Qed.

Lemma conditions_filter (guard : DataFrame -> string -> bool) d conds cols :
  (forall fd col, df_columns fd = df_columns d ->
                  guard fd col = mem col (column_names d)) ->
  forall fd fd',
    df_columns fd = df_columns d ->
    value_conditions guard conds cols fd = inr fd' ->
    df_columns fd' = df_columns d
    /\ df_rows fd' = filter (passes_all d conds cols) (df_rows fd).
Proof.
  intros G. unfold value_conditions, passes_all.
  assert (Inner : forall c cs fd fd',
            df_columns fd = df_columns d ->
            efold (fun fd col => if guard fd col then value_condition fd col c
                                 else inr fd) cs fd = inr fd' ->
            df_columns fd' = df_columns d
            /\ df_rows fd'
               = filter (fun row => forallb (fun col => row_passes d c col row)
                                            cs)
                        (df_rows fd)).
  { intros c cs. induction cs as [| col cs IH]; intros fd fd' C; simpl.
    - intros [= <-]. now rewrite filter_all.
    - rewrite (G fd col C). destruct (mem col (column_names d)) eqn:M.
      + destruct (value_condition fd col c) as [e | fd1] eqn:V; simpl;
          [discriminate |].
        destruct (condition_filters d fd col c fd1 C M V) as [C1 R1].
        intros H. destruct (IH fd1 fd' C1 H) as [C' R'].
        split; [exact C' |]. now rewrite R', R1, filter_filter.
      + simpl. intros H. destruct (IH fd fd' C H) as [C' R'].
        split; [exact C' |]. rewrite R'. apply filter_ext. intros row.
        now rewrite (absent_column_passes d c col row M). }
  induction conds as [| c conds IH]; intros fd fd' C; simpl.
  - intros [= <-]. now rewrite filter_all.
  - destruct (efold _ cols fd) as [e | fd1] eqn:E; simpl; [discriminate |].
    destruct (Inner c cols fd fd1 C E) as [C1 R1].
    intros H. destruct (IH fd1 fd' C1 H) as [C' R'].
    split; [exact C' |]. now rewrite R', R1, filter_filter.
Qed.

Lemma compare_num_meets (op : cmp_op) (a b : Q) :
  compare_num op a b = true <-> meets op a b.
Proof.
  destruct op; cbn [compare_num meets].
  - rewrite negb_true_iff, <- not_true_iff_false, Qle_bool_iff.
    split; [apply Qnot_le_lt | apply Qlt_not_le].
  - rewrite negb_true_iff, <- not_true_iff_false, Qle_bool_iff.
    split; [apply Qnot_le_lt | apply Qlt_not_le].
  - apply Qle_bool_iff.
  - apply Qle_bool_iff.
  - apply Qeq_bool_iff.
Qed.

Lemma compare_one_cell (t : dtype) (op : cmp_op) (v : Q) (c : cell) :
  match compare_series t op v [c] with
  | inr [true] => true
  | _ => false
  end = true
  <-> t <> DDateTime /\ exists q, c = CNum q /\ compare_num op q v = true.
Proof.
  split.
  - destruct t, op, c as [q | ts | s |];
      cbn [compare_series map sequence compare_cell];
      try discriminate;
      destruct (compare_num _ q v) eqn:E; try discriminate;
      intros _; (split; [discriminate | exists q; rewrite ?E; auto]).
  - intros (NotDate & q & -> & E).
    destruct t; [| now destruct NotDate |];
      destruct op; cbn [compare_series map sequence compare_cell];
      now rewrite E.
Qed.

Lemma row_passes_meets (d : DataFrame) (c : Condition) (col : string)
      (row : list cell) :
  NoDup (column_names d) ->
  row_passes d c col row = true
  <-> forall i t,
      nth_error (df_columns d) i = Some (col, t) ->
      t <> DDateTime
      /\ exists q, nth i row CNull = CNum q
                   /\ meets (operator c) q (pyval_Q (value c)).
Proof.
  intros ND. unfold row_passes.
  destruct (find_column col (df_columns d) 0) as [[i t] |] eqn:F.
  - destruct (find_column_nth _ _ _ _ _ F) as (j & -> & N).
    cbn [Nat.add] in *. rewrite compare_one_cell. split.
    + intros (NotDate & q & C & M) i' t' N'.
      pose proof (find_column_position col t' _ 0 i' ND N') as F'.
      rewrite F in F'. injection F' as -> ->.
      split; [exact NotDate |]. exists q. split; [exact C |].
      now apply compare_num_meets.
    + intros H. destruct (H j t N) as (NotDate & q & C & M).
      split; [exact NotDate |]. exists q. split; [exact C |].
      now apply compare_num_meets.
  - split; [| reflexivity]. intros _ i t N.
    pose proof (find_column_position col t _ 0 i ND N). congruence.
Qed.

Lemma passes_all_meets (d : DataFrame) (conds : list Condition)
      (cols : list string) (row : list cell) :
  NoDup (column_names d) ->
  passes_all d conds cols row = true <-> meets_conditions d conds cols row.
Proof.
  intros ND. unfold passes_all, meets_conditions. rewrite forallb_forall.
  split.
  - intros H c col i t Ic Icol N.
    specialize (H c Ic). rewrite forallb_forall in H.
    exact (proj1 (row_passes_meets d c col row ND) (H col Icol) i t N).
  - intros H c Ic. apply forallb_forall. intros col Icol.
    apply (row_passes_meets d c col row ND). intros i t N.
    exact (H c col i t Ic Icol N).
Qed.

(** X6.  Filter correctness.  On a table whose columns have distinct
    names, when the filter executor answers with a filter result, the
    rows behind it are exactly the rows of the table that hold, in every
    referenced column the table has, a number standing to the value of
    every condition in the relation its operator names ([>], [<], [>=],
    [<=], [=]), in the order of the table and as often as they occur in
    it: [filtered_rows] and [rows_returned] count them, [data] holds the
    first 20 of them, [total_rows] counts the table, which is not empty,
    the count never exceeds it, and the percentage is their ratio. *)
Theorem filter_returns_exactly_the_matching_rows
        (s : Store) (df : loc) (d : DataFrame) (pq : ParsedQuery)
        (filtered_rows total_rows : nat) (data : list record)
        (cols : list string) (rows_returned : nat) (percentage : Q) :
  NoDup (column_names d) ->
  points_to s df d ->
  fst (_execute_filter_query df pq s)
  = inr (Filter filtered_rows total_rows data cols rows_returned percentage) ->
  exists matching,
    chosen (meets_conditions d (conditions pq) (columns pq)) (df_rows d)
           matching
    /\ filtered_rows = List.length matching
    /\ rows_returned = List.length matching
    /\ total_rows = List.length (df_rows d)
    /\ (0 < total_rows)%nat
    /\ (filtered_rows <= total_rows)%nat
    /\ cols = column_names d
    /\ data = map (fun row => combine (column_names d) row)
                  (firstn 20 matching)
    /\ percentage == inject_Z (Z.of_nat filtered_rows)
                     / inject_Z (Z.of_nat total_rows) * 100.
Proof.
  intros ND P R.
  rewrite (returns_fst _ _ _ (filter_refines df pq s d P)) in R.
  injection R as R. unfold value_filter in R.
  destruct (value_conditions _ (conditions pq) (columns pq) d) as [e | fd] eqn:V;
    cbn [ebind handle] in R; [discriminate |].
  destruct (conditions_filter (fun fd col => mem col (column_names fd)) d
              (conditions pq) (columns pq)) with (fd := d) (fd' := fd)
    as [C Rows]; try assumption; try reflexivity.
  { intros fd0 col C0. unfold column_names. now rewrite C0. }
  exists (filter (passes_all d (conditions pq) (columns pq)) (df_rows d)).
  split.
  { apply chosen_filter. intros row _. now apply passes_all_meets. }
  rewrite <- Rows.
  destruct (List.length (df_rows d)) as [| n] eqn:L;
    cbn [handle] in R; [discriminate |].
  remember (Qred _) as ratio eqn:Ratio in R.
  injection R as <- <- <- <- <- <-.
  split; [reflexivity |]. split; [reflexivity |]. split; [reflexivity |].
  split; [lia |]. split.
  { rewrite Rows, <- L. apply filter_length_le. }
  split; [unfold column_names; now rewrite C |]. split.
  { unfold records_of, frame_head, column_names.
    cbn [df_columns df_rows]. now rewrite C. }
  rewrite Ratio. apply Qred_correct.
Qed.

Lemma filter_returns_exactly_the_matching_rows_witness :
  exists matching,
    chosen (meets_conditions sales
                             [ {| operator := OpGt; value := PInt 150 |} ]
                             ["Revenue"])
           (df_rows sales) matching
    /\ 2%nat = List.length matching
    /\ [ [("Region", CText "West"); ("Revenue", CNum 200)];
         [("Region", CText "East"); ("Revenue", CNum 300)] ]
       = map (fun row => combine (column_names sales) row)
             (firstn 20 matching).
Proof.
  assert (Names : NoDup (column_names sales)).
  { repeat constructor; cbn; intuition discriminate. }
  destruct (filter_returns_exactly_the_matching_rows
              sales_bot 0%nat sales
              (_parse_natural_language_query "show revenue > 150" sales)
              2 3
              [ [("Region", CText "West"); ("Revenue", CNum 200)];
                [("Region", CText "East"); ("Revenue", CNum 300)] ]
              ["Region"; "Revenue"] 2 (200 # 3) Names eq_refl eq_refl)
    as (matching & Ch & Count & _ & _ & _ & _ & _ & Data & _).
  exists matching. split; [exact Ch |]. split; [exact Count | exact Data].
Defined.

(** ** Limits on the size of an answer *)

Lemma first_int_in_range_bounds vs :
  (1 <= first_int_in_range vs <= 100)%Z.
Proof.
  unfold first_int_in_range.
  destruct (find _ vs) as [[z | q] |] eqn:F; try lia.
  apply find_some in F. destruct F as [_ F].
  apply andb_true_iff in F. destruct F as [L U].
  apply Z.leb_le in L. apply Z.leb_le in U. lia.
Qed.

Lemma filter_within_limits d pq : within_limits (value_filter d pq).
Proof.
  unfold value_filter.
  destruct (value_conditions _ _ _ d) as [e | fd]; cbn [ebind handle];
    [exact I |].
  destruct (List.length (df_rows d)); cbn [handle within_limits]; [exact I |].
  unfold records_of, frame_head. rewrite length_map. cbn [df_rows].
  apply firstn_le_length.
Qed.

Lemma top_n_within_limits d pq : within_limits (value_top_n d pq).
Proof.
  unfold value_top_n.
  destruct (if truthy _ then _ else _) as [sort_col |]; cbn [handle];
    [| exact I].
  unfold frame_nlargest.
  destruct (find_column sort_col (df_columns d) 0) as [[i []] |];
    cbn [ebind handle within_limits]; try exact I.
  split; [apply first_int_in_range_bounds |].
  unfold records_of, nlargest_positions. cbn [df_rows].
  rewrite !length_map. apply firstn_le_length.
Qed.

Lemma general_within_limits d pq : within_limits (value_general d pq).
Proof.
  unfold value_general, records_of, frame_head. cbn [within_limits df_rows].
  rewrite length_map. apply firstn_le_length.
Qed.

Section Limits.

Variable reduce_other : string -> dtype -> list cell -> exn + cell.

Lemma groupby_within_limits d pq :
  within_limits (value_groupby reduce_other d pq).
Proof.
  unfold value_groupby. cbv zeta.
  destruct (filter (is_object_column d) _); cbn [handle]; [exact I |].
  destruct (or_first_numeric d _); cbn [handle]; [| exact I].
  destruct (groupby_agg reduce_other d _ _);
    cbn [ebind handle within_limits]; [exact I |].
  apply firstn_le_length.
Qed.

Lemma aggregation_within_limits d pq :
  within_limits (value_aggregation reduce_other d pq).
Proof.
  unfold value_aggregation. cbv zeta.
  destruct (or_first_numeric d _); cbn [handle]; [| exact I].
  destruct (value_time_filters d _); cbn [ebind handle]; [exact I |].
  destruct (value_conditions _ _ _ _); cbn [ebind handle]; [exact I |].
  destruct (efold _ _ _); cbn [ebind handle]; exact I.
Qed.

(** X7.  Every call of [natural_language_query] returns a result, and the
    result is within the limits of its kind: at most 20 rows of a filter
    or of a grouping, at most 10 rows of a preview, and for a top-N an [n]
    between 1 and 100 with at most [n] rows; so no answer carries more
    than 100 rows, however large the table. *)
Theorem every_answer_is_within_limits
        (s : Store) (query : string) (sheet_name : option string) :
  exists result,
    fst (natural_language_query reduce_other query sheet_name s) = inr result
    /\ within_limits result.
Proof.
  destruct (natural_language_query_refines reduce_other query sheet_name s)
    as [R _].
  eexists. split; [exact R |].
  unfold value_natural_language_query.
  destruct (addressed_frame s sheet_name) as [k | d]; [exact I |].
  unfold value_query.
  destruct (String.eqb _ "aggregation"); [apply aggregation_within_limits |].
  destruct (String.eqb _ "filter"); [apply filter_within_limits |].
  destruct (String.eqb _ "groupby"); [apply groupby_within_limits |].
  destruct (String.eqb _ "top_n"); [apply top_n_within_limits |].
  destruct (String.eqb _ "comparison"); [exact I |].
  destruct (String.eqb _ "trend"); [exact I |].
  apply general_within_limits.
Qed.

End Limits.

(** ** Missing prerequisites *)

Lemma numeric_column_is_selected d col :
  is_numeric_column d col = true -> In col (select_dtypes DNumeric d).
Proof.
  unfold is_numeric_column, select_dtypes.
  destruct (find_column col (df_columns d) 0) as [[i t] |] eqn:F;
    [| discriminate].
  destruct t; try discriminate. intros _.
  destruct (find_column_nth _ _ _ _ _ F) as [j [_ N]].
  apply nth_error_In in N.
  apply in_map_iff. exists (col, DNumeric). split; [reflexivity |].
  apply filter_In. now split.
Qed.

Lemma no_numeric_column_found d cols :
  select_dtypes DNumeric d = [] -> find (is_numeric_column d) cols = None.
Proof.
  intros S. induction cols as [| col cols IH]; simpl; [reflexivity |].
  destruct (is_numeric_column d col) eqn:N; [| exact IH].
  apply numeric_column_is_selected in N. rewrite S in N. contradiction.
Qed.

(** X8.  On a table without a numeric column the top-N executor answers
    with the error "No numeric columns found for sorting", whatever the
    plan, and the aggregation executor, given a plan that references no
    column, answers with "No numeric columns found for aggregation":
    neither raises, and the store is not changed. *)
Theorem no_numeric_column_is_an_error
        (reduce_other : string -> dtype -> list cell -> exn + cell)
        (s : Store) (df : loc) (d : DataFrame) (pq : ParsedQuery) :
  points_to s df d ->
  select_dtypes DNumeric d = [] ->
  _execute_top_n_query df pq s = (inr (Error NoNumericColumnsForSorting), s)
  /\ (columns pq = [] ->
      _execute_aggregation_query reduce_other df pq s
      = (inr (Error NoNumericColumnsForAggregation), s)).
Proof.
  intros P S. unfold points_to in P. split.
  - unfold _execute_top_n_query, catch, bind, read.
    rewrite P, (no_numeric_column_found d _ S), S. reflexivity.
  - intros C. unfold _execute_aggregation_query, catch, bind, read.
    rewrite P. unfold or_first_numeric. rewrite C, S. reflexivity.
Qed.

Lemma no_numeric_column_is_an_error_witness :
  let names_only := {| df_columns := [("Region", DObject)];
                       df_rows := [[CText "East"]] |} in
  _execute_top_n_query 0%nat (_parse_natural_language_query "top 3" names_only)
                       {| sheets := [("Sheet1", 0%nat)]; objects := [names_only] |}
  = (inr (Error NoNumericColumnsForSorting),
     {| sheets := [("Sheet1", 0%nat)]; objects := [names_only] |}).
Proof.
  intros names_only.
  apply (no_numeric_column_is_an_error (fun _ _ _ => inl TypeError)
           _ 0%nat names_only); reflexivity.
Defined.

(** ** The sheet a call addresses *)

Section Sheets.

Variable reduce_other : string -> dtype -> list cell -> exn + cell.

(** X9.  The sheet a call addresses.  With no sheet loaded every call
    answers "No Excel file loaded".  A name that is not empty and names no
    sheet gives "Sheet not found".  An empty name is no name: the call
    goes to the first sheet loaded, as it does without a name, even if a
    sheet is named by the empty string; and naming the first sheet
    gives the answer of a call without a name. *)
Theorem sheet_selection (s : Store) (query : string) :
  let ask := fun name =>
               fst (natural_language_query reduce_other query name s) in
  (sheets s = [] -> forall name, ask name = inr (Error NoExcelFileLoaded))
  /\ (forall name,
         sheets s <> [] -> name <> ""%string ->
         ~ In name (map fst (sheets s)) ->
         ask (Some name) = inr (Error (SheetNotFound name)))
  /\ ask (Some ""%string) = ask None
  /\ (forall first_sheet l others,
         sheets s = (first_sheet, l) :: others ->
         first_sheet <> ""%string ->
         ask (Some first_sheet) = ask None).
Proof.
  intros ask.
  assert (A : forall name,
             ask name
             = inr (value_natural_language_query reduce_other s query name)).
  { intros name.
    now destruct (natural_language_query_refines reduce_other query name s). }
  unfold value_natural_language_query, addressed_frame in A.
  split; [| split; [| split]].
  - intros E name. rewrite A, E. reflexivity.
  - intros name NE N NI. rewrite A.
    destruct (sheets s) as [| [first_sheet l0] ss]; [congruence |].
    destruct name as [| c name]; [congruence |].
    cbn [truthy andb].
    destruct (mem (String c name) (map fst ((first_sheet, l0) :: ss))) eqn:M;
      [| reflexivity].
    apply mem_In in M. contradiction.
  - rewrite !A. destruct (sheets s) as [| [first_sheet l0] ss]; reflexivity.
  - intros first_sheet l others E NE. rewrite !A, E.
    destruct first_sheet as [| c name]; [congruence |].
    cbn [truthy andb map fst mem existsb].
    rewrite String.eqb_refl. reflexivity.
Qed.

End Sheets.

Lemma sheet_selection_witness :
  fst (natural_language_query (fun _ _ _ => inl TypeError) "total revenue"
                              (Some "Sheet2") sales_bot)
  = inr (Error (SheetNotFound "Sheet2")).
Proof.
  apply (sheet_selection (fun _ _ _ => inl TypeError) sales_bot
                         "total revenue").
  - discriminate.
  - discriminate.
  - simpl. intuition discriminate.
Defined.

(** ** The results of an aggregation *)

Lemma aggregation_type_range (query : string) :
  In (_extract_aggregation_type query) ["sum"; "mean"; "count"; "max"; "min"].
Proof.
  unfold _extract_aggregation_type.
  repeat match goal with
         | |- context [if ?b then _ else _] => destruct b
         end; simpl; auto 6.
Qed.

Lemma aggregation_type_is_aggregation (query : string) :
  is_aggregation (_extract_aggregation_type query) = true.
Proof.
  pose proof (aggregation_type_range query) as R. simpl in R.
  decompose [or] R; try contradiction;
    match goal with H : _ = _extract_aggregation_type query |- _ =>
      rewrite <- H end; reflexivity.
Qed.

Lemma dict_set_new k v acc :
  ~ In k (map fst acc) -> map fst (dict_set k v acc) = map fst acc ++ [k].
Proof.
  induction acc as [| [k' v'] acc IH]; simpl; [reflexivity |].
  intros N. destruct (String.eqb_spec k k') as [-> | _]; [tauto |].
  simpl. rewrite IH; [reflexivity | tauto].
Qed.

Lemma time_filters_rows d tf :
  exists f, value_time_filters d tf
            = inr {| df_columns := df_columns d;
                     df_rows := filter f (df_rows d) |}.
Proof.
  destruct (select_dtypes DDateTime d) as [| date_col others] eqn:S.
  - exists (fun _ => true). rewrite filter_all. unfold value_time_filters.
    rewrite S. destruct d. now destruct (quarter tf), (month tf).
  - assert (M : mem date_col (column_names d) = true).
    { apply (select_dtypes_mem DDateTime). rewrite S. now left. }
    apply (find_column_mem date_col (df_columns d) 0) in M.
    destruct (find_column date_col (df_columns d) 0) as [[i t] |] eqn:F;
      [| congruence].
    eexists. exact (time_filters_value d tf date_col others i t S F).
Qed.

Section AggregationResults.

Variable reduce_other : string -> dtype -> list cell -> exn + cell.

Lemma results_keys agg (fd : DataFrame) cols :
  is_aggregation agg = true ->
  forall acc results,
    NoDup (map fst acc ++ cols) ->
    (forall col, In col cols -> mem col (column_names fd) = true) ->
    efold (fun results col =>
             match find_column col (df_columns fd) 0 with
             | Some (i, t) =>
                 if is_aggregation agg then
                   ebind (series_reduce reduce_other agg t
                                        (column_cells i (df_rows fd)))
                         (fun v => inr (dict_set col v results))
                 else inr results
             | None => inr results
             end) cols acc = inr results ->
    map fst results = map fst acc ++ cols.
Proof.
  intros A. rewrite A.
  induction cols as [| col cols IH]; intros acc results ND M; simpl.
  - intros [= <-]. now rewrite app_nil_r.
  - pose proof (M col (or_introl eq_refl)) as Mc.
    apply (find_column_mem col (df_columns fd) 0) in Mc.
    destruct (find_column col (df_columns fd) 0) as [[i t] |]; [| congruence].
    destruct (series_reduce reduce_other agg t _) as [e | v]; simpl;
      [discriminate |].
    intros H.
    assert (New : ~ In col (map fst acc)).
    { intros I. apply NoDup_remove_2 in ND. apply ND, in_or_app. now left. }
    rewrite (IH (dict_set col v acc) results); try assumption.
    + now rewrite (dict_set_new col v acc New), <- app_assoc.
    + rewrite (dict_set_new col v acc New), <- app_assoc. exact ND.
    + intros c I. apply M. now right.
Qed.

(** X10.  The result of an aggregation.  On a table whose column names are
    distinct, when a parsed query is answered with an aggregation result,
    the operation is one of sum, mean, count, max and min; the columns are
    columns of the table, at least one; [results] holds one entry per
    column, in the order of [columns]; [total_rows] counts the table and
    [filtered_rows] never exceeds it. *)
Theorem aggregation_has_one_result_per_column
        (s : Store) (df : loc) (d : DataFrame) (query : string)
        (operation : string) (cols : list string)
        (results : list (string * cell)) (filtered_rows total_rows : nat) :
  points_to s df d ->
  NoDup (column_names d) ->
  fst (_execute_aggregation_query reduce_other df
         (_parse_natural_language_query query d) s)
  = inr (Aggregation operation cols results filtered_rows total_rows) ->
  In operation ["sum"; "mean"; "count"; "max"; "min"]
  /\ cols <> []
  /\ (forall col, In col cols -> In col (column_names d))
  /\ map fst results = cols
  /\ total_rows = List.length (df_rows d)
  /\ (filtered_rows <= total_rows)%nat.
Proof.
  intros P ND R.
  rewrite (returns_fst _ _ _ (aggregation_refines reduce_other df _ s d P)) in R.
  injection R as R. unfold value_aggregation in R. cbv zeta in R.
  cbn [columns aggregation_type time_filters conditions
       _parse_natural_language_query] in R.
  destruct (extracted_columns_are_table_columns query d) as [Sub NoD].
  specialize (NoD ND).
  assert (Cols : forall chosen,
             or_first_numeric d (_extract_columns_from_query query d)
             = Some chosen ->
             chosen <> [] /\ NoDup chosen
             /\ forall col, In col chosen -> In col (column_names d)).
  { unfold or_first_numeric. intros chosen.
    destruct (_extract_columns_from_query query d) as [| c cs] eqn:E.
    - destruct (select_dtypes DNumeric d) as [| c cs] eqn:S; [discriminate |].
      intros [= <-]. split; [discriminate |].
      split; [repeat constructor; intros [] |].
      intros col [<- | []]. apply mem_In, (select_dtypes_mem DNumeric).
      rewrite S. now left.
    - intros [= <-]. split; [discriminate |]. split; assumption. }
  destruct (or_first_numeric d _) as [chosen |]; cbn [handle] in R;
    [| discriminate].
  destruct (Cols chosen eq_refl) as [NE [NDc Inc]].
  destruct (time_filters_rows d (_extract_time_filters query)) as [f T].
  rewrite T in R. cbn [ebind] in R.
  destruct (value_conditions _ _ chosen _) as [e | fd] eqn:V;
    cbn [ebind handle] in R; [discriminate |].
  destruct (conditions_filter (fun _ col => mem col (column_names d)) d
              (_extract_conditions_from_query query) chosen)
    with (fd := {| df_columns := df_columns d;
                   df_rows := filter f (df_rows d) |}) (fd' := fd)
    as [C Rows]; [intros; reflexivity | reflexivity | exact V |].
  destruct (efold _ chosen []) as [e | res] eqn:Res; cbn [ebind handle] in R;
    [discriminate |].
  injection R as <- <- <- <- <-.
  split; [apply aggregation_type_range |].
  split; [exact NE |]. split; [exact Inc |].
  split.
  - apply (results_keys _ fd chosen (aggregation_type_is_aggregation query)
                        [] res); try assumption.
    intros col I. apply mem_In. unfold column_names. rewrite C.
    exact (Inc col I).
  - split; [reflexivity |]. rewrite Rows. cbn [df_rows].
    etransitivity; apply filter_length_le.
Qed.

End AggregationResults.

Lemma aggregation_has_one_result_per_column_witness :
  map fst [("Revenue", CNum 600)] = ["Revenue"].
Proof.
  apply (aggregation_has_one_result_per_column (fun _ _ _ => inl TypeError)
           sales_bot 0%nat sales "total revenue" "sum" ["Revenue"]
           [("Revenue", CNum 600)] 3 3 eq_refl).
  - repeat constructor; simpl; intuition discriminate.
  - reflexivity.
Defined.

(** ** The columns of a grouping *)

Lemma find_column_unique c t cs k :
  NoDup (map fst cs) -> In (c, t) cs ->
  exists i, find_column c cs k = Some (i, t).
Proof.
  revert k. induction cs as [| [c' t'] cs IH]; intros k ND I; simpl in *;
    [contradiction |].
  inversion_clear ND as [| ? ? NI ND'].
  destruct I as [[= -> ->] | I].
  - rewrite String.eqb_refl. now exists k.
  - destruct (String.eqb_spec c c') as [-> | _]; [| now apply IH].
    exfalso. apply NI. apply in_map_iff. now exists (c', t).
Qed.


Lemma filter_nothing {A} (f : A -> bool) (l : list A) :
  (forall x, In x l -> f x = false) -> filter f l = [].
Proof.
  induction l as [| x l IH]; intros N; simpl; [reflexivity |].
  rewrite (N x (or_introl eq_refl)). apply IH. intros y I. apply N.
  now right.
Qed.

Section Grouping.

Variable reduce_other : string -> dtype -> list cell -> exn + cell.


End Grouping.


(** * Properties of formula generation *)

Lemma ifs_holds_if (s : string) :
  Str.str_in "ifs" s = true -> Str.str_in "if" s = true.
Proof.
  intros H. destruct (str_in_split _ _ H) as (pre & post & ->).
  change ("ifs" ++ post)%string with ("if" ++ String "s" post)%string.
  apply str_in_app.
Qed.

Lemma generate_formula_parts (request : string) :
  let matched_type := first_formula_type formula_patterns (Str.lower request) in
  category (generate_formula request) = matched_type
  /\ formula (generate_formula request)
     = fst (formula_and_explanation matched_type (Str.lower request))
  /\ explanation (generate_formula request)
     = snd (formula_and_explanation matched_type (Str.lower request))
  /\ examples (generate_formula request)
     = examples_of matched_type formula_patterns
  /\ usage_tips (generate_formula request)
     = _get_formula_usage_tips matched_type.
Proof.
  unfold generate_formula.
  destruct (formula_and_explanation _ _) as [f e]. now repeat split.
Qed.

(** The loop over the patterns stops at the first entry with a keyword in
    the request: the entries before it have none. *)
Lemma first_formula_type_spec (ps : list (string * FormulaPattern))
      (request_lower : string) :
  (first_formula_type ps request_lower = "general"
   /\ forall t p, In (t, p) ps ->
                  Str.any_in (formula_keywords p) request_lower = false)
  \/ (exists earlier p later,
         ps = earlier ++ (first_formula_type ps request_lower, p) :: later
         /\ Str.any_in (formula_keywords p) request_lower = true
         /\ forall t' p', In (t', p') earlier ->
                          Str.any_in (formula_keywords p') request_lower
                          = false).
Proof.
  induction ps as [| [t p] ps IH]; cbn [first_formula_type].
  - left. split; [reflexivity | intros t p []].
  - destruct (Str.any_in (formula_keywords p) request_lower) eqn:K.
    + right. exists [], p, ps. split; [reflexivity |].
      split; [exact K | intros t' p' []].
    + destruct IH as [[G N] | (earlier & p0 & later & E & K0 & N)].
      * left. split; [exact G |].
        intros t' p' [[= <- <-] | I]; [exact K | exact (N t' p' I)].
      * right. exists ((t, p) :: earlier), p0, later.
        split; [cbn [app]; now rewrite <- E |].
        split; [exact K0 |].
        intros t' p' [[= <- <-] | I]; [exact K | exact (N t' p' I)].
Qed.

Lemma examples_of_split (t : string) (p : FormulaPattern)
      (earlier later : list (string * FormulaPattern)) :
  NoDup (map fst (earlier ++ (t, p) :: later)) ->
  examples_of t (earlier ++ (t, p) :: later) = formula_examples p.
Proof.
  induction earlier as [| [t0 p0] earlier IH]; cbn [app map fst examples_of];
    intros ND.
  - now rewrite String.eqb_refl.
  - inversion ND as [| ? ? NI ND']; subst.
    destruct (String.eqb t t0) eqn:E.
    + apply String.eqb_eq in E. subst t0. exfalso. apply NI.
      rewrite map_app. apply in_or_app. right. now left.
    + exact (IH ND').
Qed.

Lemma formula_patterns_keys :
  NoDup (map fst formula_patterns)
  /\ ~ In "general" (map fst formula_patterns).
Proof.
  split.
  - repeat (constructor;
            [cbn; intros I;
             repeat (destruct I as [I | I]; [discriminate I |]); exact I |]).
    constructor.
  - cbn. intros I.
    repeat (destruct I as [I | I]; [discriminate I |]). exact I.
Qed.

(** X12.  No request is answered with the SUMIFS formula.  In the [sum]
    branch the test for ["if"] comes before the test for ["ifs"], and a
    request that holds ["ifs"] holds ["if"], so the SUMIFS branch cannot
    be taken; no other branch gives that formula. *)
Theorem sumifs_formula_is_never_generated (request : string) :
  formula (generate_formula request)
  <> "=SUMIFS(sum_range, criteria_range1, criteria1, criteria_range2, criteria2)"
  /\ explanation (generate_formula request)
     <> "SUMIFS adds values in a range that meet multiple criteria".
Proof.
  destruct (generate_formula_parts request) as (_ & -> & -> & _).
  generalize (first_formula_type formula_patterns (Str.lower request)).
  intros matched_type. unfold formula_and_explanation.
  destruct (Str.str_in "if" (Str.lower request)) eqn:If.
  - repeat match goal with
           | |- context [if ?b then _ else _] => destruct b
           end; cbn [fst snd]; split; discriminate.
  - destruct (Str.str_in "ifs" (Str.lower request)) eqn:Ifs;
      [apply ifs_holds_if in Ifs; congruence |].
    repeat match goal with
           | |- context [if ?b then _ else _] => destruct b
           end; cbn [fst snd]; split; discriminate.
Qed.

(** X13.  A request that holds a keyword of the [count] entry and none of
    the [sum] and [average] entries is given the category [count] and the
    COUNT examples, but the chain that picks the formula has no [count]
    branch and the tips have no [count] entry: the formula is the basic
    SUM formula of the final [else], with the default tips. *)
Theorem count_requests_get_a_sum_formula (request : string) :
  Str.any_in ["count"; "number of"; "how many"] (Str.lower request) = true ->
  Str.any_in ["sum"; "total"; "add"; "calculate total"] (Str.lower request)
  = false ->
  Str.any_in ["average"; "mean"; "avg"] (Str.lower request) = false ->
  let answer := generate_formula request in
  category answer = "count"
  /\ formula answer = "=SUM(A2:A100)"
  /\ explanation answer = "Basic SUM formula - modify as needed"
  /\ hd_error (examples answer) = Some "=COUNT(A2:A100)"
  /\ usage_tips answer = [ "Test your formula with sample data";
                           "Use F9 to evaluate parts of formulas" ].
Proof.
  intros Count Sum Average answer. subst answer.
  destruct (generate_formula_parts request) as (-> & -> & -> & -> & ->).
  assert (T : first_formula_type formula_patterns (Str.lower request)
              = "count").
  { unfold formula_patterns.
    cbn [first_formula_type formula_keywords].
    now rewrite Sum, Average, Count. }
  rewrite T. repeat split.
Qed.

Lemma count_requests_get_a_sum_formula_witness :
  formula (generate_formula "How many orders are there?") = "=SUM(A2:A100)".
Proof.
  apply (count_requests_get_a_sum_formula "How many orders are there?");
    reflexivity.
Defined.

(** X14.  The category of an answer is the first entry of the patterns, in
    declaration order, that has a keyword occurring in the lower-cased
    request, whatever later entries also match, and the examples are those
    of that entry; when no entry has one, the category is [general], there
    is no example and the formula is the basic SUM formula. *)
Theorem category_is_the_first_matching_pattern (request : string) :
  let request_lower := Str.lower request in
  let answer := generate_formula request in
  (category answer = "general"
   /\ (forall t p, In (t, p) formula_patterns ->
                   Str.any_in (formula_keywords p) request_lower = false)
   /\ examples answer = []
   /\ formula answer = "=SUM(A2:A100)")
  \/ (exists earlier p later,
         formula_patterns = earlier ++ (category answer, p) :: later
         /\ Str.any_in (formula_keywords p) request_lower = true
         /\ (forall t' p', In (t', p') earlier ->
                           Str.any_in (formula_keywords p') request_lower
                           = false)
         /\ examples answer = formula_examples p).
Proof.
  intros request_lower answer. subst answer.
  destruct (generate_formula_parts request) as (-> & -> & _ & -> & _).
  fold request_lower.
  destruct (first_formula_type_spec formula_patterns request_lower)
    as [[G N] | (earlier & p & later & E & K & N)].
  - left. rewrite G. repeat split. exact N.
  - right. exists earlier, p, later.
    split; [exact E |]. split; [exact K |]. split; [exact N |].
    rewrite E at 2. apply examples_of_split. rewrite <- E.
    exact (proj1 formula_patterns_keys).
Qed.

(** * Properties of the cleaning *)

(** ** Statements on frame objects *)

Lemma set_nth_length {A} (i : nat) (x : A) (l : list A) :
  List.length (set_nth i x l) = List.length l.
Proof.
  revert i. induction l as [| y l IH]; intros [| i]; cbn; auto.
Qed.

Lemma nth_error_set_nth {A} (i : nat) (x : A) (l : list A) :
  (i < List.length l)%nat -> nth_error (set_nth i x l) i = Some x.
Proof.
  revert i. induction l as [| y l IH]; intros [| i]; cbn; intros L;
    try lia; [reflexivity | apply IH; lia].
Qed.

Lemma set_nth_app {A} (i : nat) (x : A) (l1 l2 : list A) :
  (List.length l1 <= i)%nat ->
  set_nth i x (l1 ++ l2) = l1 ++ set_nth (i - List.length l1) x l2.
Proof.
  revert i. induction l1 as [| y l1 IH]; intros i L; cbn [app List.length].
  - now rewrite Nat.sub_0_r.
  - destruct i as [| i]; cbn in L; [lia |].
    cbn [set_nth Nat.sub]. now rewrite IH by lia.
Qed.

Lemma owned_extends s0 s l d : owned s0 s l d -> extends s0 s.
Proof. now intros [E _]. Qed.

Lemma owned_points_to s0 s l d : owned s0 s l d -> points_to s l d.
Proof. now intros (_ & _ & P). Qed.

Lemma wp_write s0 s l d d' (Q : exn + unit -> Store -> Prop) :
  owned s0 s l d ->
  (forall s', owned s0 s' l d' -> Q (inr tt) s') ->
  wp (write l d') s Q.
Proof.
  intros ([Sh [extra E]] & Fresh & P) H. unfold wp, write.
  unfold points_to in P. rewrite P. cbn [fst snd]. apply H.
  assert (L : (l < List.length (objects s))%nat)
    by (apply nth_error_Some; congruence).
  split; [| split].
  - split; [exact Sh |]. cbn [objects]. rewrite E.
    rewrite set_nth_app by exact Fresh. eauto.
  - exact Fresh.
  - unfold points_to. cbn [objects]. now apply nth_error_set_nth.
Qed.

Lemma wp_new_frame_owned s0 s d (Q : exn + loc -> Store -> Prop) :
  extends s0 s ->
  (forall l s', owned s0 s' l d -> Q (inr l) s') ->
  wp (new_frame d) s Q.
Proof.
  intros [Sh [extra E]] H. unfold wp, new_frame. cbn [fst snd]. apply H.
  split; [| split].
  - split; [exact Sh |]. cbn [objects]. rewrite E, <- app_assoc. eauto.
  - rewrite E, length_app. lia.
  - unfold points_to. cbn [objects].
    rewrite nth_error_app2 by lia. now rewrite Nat.sub_diag.
Qed.

Lemma update_updates l f : updates (update l f) l f.
Proof.
  intros s0 s d Q O H. unfold update.
  apply (wp_read_then _ l s d _ (owned_points_to _ _ _ _ O)).
  apply wp_bind, wp_lift. destruct (f d) as [e | d'].
  - apply H. exact (owned_extends _ _ _ _ O).
  - apply (wp_write s0 s l d d' _ O). exact H.
Qed.

Lemma updates_seq m1 m2 l g1 g2 :
  updates m1 l g1 -> updates m2 l g2 ->
  updates (_ <- m1 ;; m2) l (fun d => ebind (g1 d) g2).
Proof.
  intros U1 U2 s0 s d Q O H. apply wp_bind. apply (U1 s0 s d _ O).
  cbn [ebind] in H. destruct (g1 d) as [e | d1]; cbn [ebind] in H.
  - exact H.
  - intros s1 O1. apply (U2 s0 s1 d1 _ O1). exact H.
Qed.

Lemma updates_fold (body : string -> M unit) l
      (g : string -> DataFrame -> exn + DataFrame) (cols : list string) :
  (forall col, updates (body col) l (g col)) ->
  updates (foldM (fun _ col => body col) cols tt) l
          (fun d => efold (fun d col => g col d) cols d).
Proof.
  intros U. induction cols as [| col cols IH]; intros s0 s d Q O H.
  - cbn [foldM efold] in *. apply wp_ret. exact (H s O).
  - cbn [foldM efold] in *. apply wp_bind. apply (U col s0 s d _ O).
    destruct (g col d) as [e | d1]; cbn [ebind] in H.
    + exact H.
    + intros s1 O1. apply (IH s0 s1 d1 _ O1). exact H.
Qed.

Lemma wp_inspect {A} (f : DataFrame -> A) l s d
      (Q : exn + A -> Store -> Prop) :
  points_to s l d -> Q (inr (f d)) s -> wp (inspect l f) s Q.
Proof. intros P H. apply (wp_read_then _ l s d _ P). exact H. Qed.

Lemma wp_derive s0 s l d f (Q : exn + loc -> Store -> Prop) :
  owned s0 s l d ->
  match f d with
  | inr d' => forall l' s', owned s0 s' l' d' -> Q (inr l') s'
  | inl e => Q (inl e) s
  end ->
  wp (derive l f) s Q.
Proof.
  intros O H. unfold derive.
  apply (wp_read_then _ l s d _ (owned_points_to _ _ _ _ O)).
  apply wp_bind, wp_lift. destruct (f d) as [e | d']; [exact H |].
  apply (wp_new_frame_owned s0 s d' _ (owned_extends _ _ _ _ O)). exact H.
Qed.

(** ** The operations on objects and on values *)

Section CleaningRefinement.

Variable to_numeric : bool -> Series -> exn + Series.
Variable to_datetime : Series -> exn + Series.
Variable astype_str : Series -> Series.
Variable strftime : Series -> exn + Series.
Variable replace_currency : Series -> exn + Series.

Lemma remove_duplicates_derives :
  derives remove_duplicates value_remove_duplicates.
Proof.
  intros s0 s l d Q O H. unfold remove_duplicates.
  pose proof (owned_points_to _ _ _ _ O) as P.
  apply wp_bind, (wp_len l s d _ P).
  apply wp_bind, (wp_derive s0 s l d _ _ O).
  intros l' s' O'.
  apply wp_bind, (wp_len l' s' _ _ (owned_points_to _ _ _ _ O')).
  apply wp_ret. exact (H l' s' O').
Qed.

Lemma fill_missing_values_derives :
  derives fill_missing_values value_fill_missing_values.
Proof.
  intros s0 s l d Q O H. unfold fill_missing_values.
  pose proof (owned_points_to _ _ _ _ O) as P.
  apply wp_bind, (wp_inspect _ l s d _ P).
  apply wp_bind, (wp_inspect _ l s d _ P).
  apply wp_bind.
  apply (updates_fold (fun col => update l (fill_with_mean col)) l
                      fill_with_mean (select_dtypes DNumeric d)
                      (fun col => update_updates l _) s0 s d _ O).
  unfold value_fill_missing_values in H.
  destruct (efold _ (select_dtypes DNumeric d) d) as [e | d1];
    cbn [ebind] in H; [exact H |].
  intros s1 O1. pose proof (owned_points_to _ _ _ _ O1) as P1.
  apply wp_bind, (wp_inspect _ l s1 d1 _ P1).
  apply wp_bind.
  apply (updates_fold (fun col => update l (fill_with_mode col)) l
                      fill_with_mode (select_dtypes DObject d1)
                      (fun col => update_updates l _) s0 s1 d1 _ O1).
  destruct (efold _ (select_dtypes DObject d1) d1) as [e | d2];
    cbn [ebind] in H; [exact H |].
  intros s2 O2. pose proof (owned_points_to _ _ _ _ O2) as P2.
  apply wp_bind, (wp_inspect _ l s2 d2 _ P2).
  apply wp_ret. exact (H l s2 O2).
Qed.

Lemma convert_data_types_derives :
  derives (convert_data_types to_numeric to_datetime astype_str)
          (value_convert_data_types to_numeric to_datetime astype_str).
Proof.
  intros s0 s l d Q O H. unfold convert_data_types.
  pose proof (owned_points_to _ _ _ _ O) as P.
  apply wp_bind, (wp_inspect _ l s d _ P).
  apply wp_bind.
  apply (updates_fold
           (fun col => update l (convert_column to_numeric to_datetime
                                                astype_str col)) l
           (convert_column to_numeric to_datetime astype_str)
           (column_names d) (fun col => update_updates l _) s0 s d _ O).
  unfold value_convert_data_types in H.
  destruct (efold _ (column_names d) d) as [e | d1];
    cbn [ebind] in H; [exact H |].
  intros s1 O1. apply wp_ret. exact (H l s1 O1).
Qed.

Lemma normalize_text_derives :
  derives normalize_text value_normalize_text.
Proof.
  intros s0 s l d Q O H. unfold normalize_text.
  pose proof (owned_points_to _ _ _ _ O) as P.
  apply wp_bind, (wp_inspect _ l s d _ P).
  apply wp_bind.
  apply (updates_fold
           (fun col => _ <- update l (str_column strip col) ;;
                       update l (str_column title col)) l
           (fun col d => ebind (str_column strip col d)
                               (str_column title col))
           (select_dtypes DObject d)
           (fun col => updates_seq _ _ l _ _ (update_updates l _)
                                   (update_updates l _)) s0 s d _ O).
  unfold value_normalize_text in H.
  destruct (efold _ (select_dtypes DObject d) d) as [e | d1];
    cbn [ebind] in H; [exact H |].
  intros s1 O1. apply wp_ret. exact (H l s1 O1).
Qed.

Lemma outlier_loop_derives (cols : list string) (removed : Z) :
  derives
    (fun l =>
       foldM (fun st col =>
                before_count <- len (fst st) ;;
                df <- derive (fst st) (within_bounds col) ;;
                after_count <- len df ;;
                ret (df, (snd st + (Z.of_nat before_count
                                    - Z.of_nat after_count))%Z))
             cols (l, removed))
    (fun d =>
       efold (fun (st : DataFrame * Z) col =>
                ebind (within_bounds col (fst st))
                      (fun kept_rows =>
                         inr (kept_rows,
                              (snd st + rows_lost (fst st) kept_rows)%Z)))
             cols (d, removed)).
Proof.
  revert removed.
  induction cols as [| col cols IH]; intros removed s0 s l d Q O H.
  - cbn [foldM efold] in *. apply wp_ret. exact (H l s O).
  - cbn [foldM efold fst snd] in *.
    pose proof (owned_points_to _ _ _ _ O) as P.
    apply wp_bind, wp_bind, (wp_len l s d _ P).
    apply wp_bind, (wp_derive s0 s l d _ _ O).
    destruct (within_bounds col d) as [e | d1]; cbn [ebind] in H.
    + apply H. exact (owned_extends _ _ _ _ O).
    + intros l1 s1 O1.
      apply wp_bind, (wp_len l1 s1 d1 _ (owned_points_to _ _ _ _ O1)).
      apply wp_ret. apply (IH _ s0 s1 l1 d1 _ O1). exact H.
Qed.

Lemma remove_outliers_derives :
  derives remove_outliers value_remove_outliers.
Proof.
  intros s0 s l d Q O H. unfold remove_outliers.
  pose proof (owned_points_to _ _ _ _ O) as P.
  apply wp_bind, (wp_inspect _ l s d _ P).
  apply wp_bind.
  apply (outlier_loop_derives (select_dtypes DNumeric d) 0 s0 s l d _ O).
  unfold value_remove_outliers in H.
  destruct (efold _ (select_dtypes DNumeric d) (d, 0%Z)) as [e | st];
    cbn [ebind] in H; [exact H |].
  intros l1 s1 O1. apply wp_ret. exact (H l1 s1 O1).
Qed.

Lemma standardize_format_derives :
  derives (standardize_format strftime replace_currency)
          (value_standardize_format strftime replace_currency).
Proof.
  intros s0 s l d Q O H. unfold standardize_format.
  pose proof (owned_points_to _ _ _ _ O) as P.
  apply wp_bind, (wp_inspect _ l s d _ P).
  apply wp_bind.
  apply (updates_fold (fun col => update l (strftime_column strftime col)) l
                      (strftime_column strftime) (select_dtypes DDateTime d)
                      (fun col => update_updates l _) s0 s d _ O).
  unfold value_standardize_format in H.
  destruct (efold _ (select_dtypes DDateTime d) d) as [e | d1];
    cbn [ebind] in H; [exact H |].
  intros s1 O1. pose proof (owned_points_to _ _ _ _ O1) as P1.
  apply wp_bind, (wp_inspect _ l s1 d1 _ P1).
  apply wp_bind.
  apply (updates_fold
           (fun col => update l (currency_column replace_currency col)) l
           (currency_column replace_currency) (column_names d1)
           (fun col => update_updates l _) s0 s1 d1 _ O1).
  destruct (efold _ (column_names d1) d1) as [e | d2];
    cbn [ebind] in H; [exact H |].
  intros s2 O2. apply wp_ret. exact (H l s2 O2).
Qed.

Lemma branch_derives (run : loc -> M (loc * change))
      (value_run : DataFrame -> exn + (DataFrame * change))
      (name key : string) (report : CleaningReport) :
  derives run value_run ->
  derives (fun l => r <- run l ;;
                    ret (fst r, performed name key (snd r) report))
          (fun d => ebind (value_run d)
                          (fun r => inr (fst r,
                                         performed name key (snd r) report))).
Proof.
  intros R s0 s l d Q O H. apply wp_bind. apply (R s0 s l d _ O).
  destruct (value_run d) as [e | r]; cbn [ebind] in H; [exact H |].
  intros l' s' O'. apply wp_ret. exact (H l' s' O').
Qed.

Lemma clean_operation_derives (report : CleaningReport) (operation : string) :
  derives (fun l => clean_operation to_numeric to_datetime astype_str strftime
                                    replace_currency (l, report) operation)
          (fun d => value_operation to_numeric to_datetime astype_str strftime
                                    replace_currency (d, report) operation).
Proof.
  unfold clean_operation, value_operation. cbn [fst snd].
  repeat match goal with
         | |- context [if ?b then _ else _] => destruct b
         end;
    try (apply branch_derives;
         auto using remove_duplicates_derives, fill_missing_values_derives,
           convert_data_types_derives, normalize_text_derives,
           remove_outliers_derives, standardize_format_derives).
  intros s0 s l d Q O H. apply wp_ret. exact (H l s O).
Qed.

Lemma operations_derives (operations : list string) (report : CleaningReport) :
  derives (fun l => foldM (clean_operation to_numeric to_datetime astype_str
                                           strftime replace_currency)
                          operations (l, report))
          (fun d => efold (value_operation to_numeric to_datetime astype_str
                                           strftime replace_currency)
                          operations (d, report)).
Proof.
  revert report.
  induction operations as [| operation operations IH];
    intros report s0 s l d Q O H.
  - cbn [foldM efold] in *. apply wp_ret. exact (H l s O).
  - cbn [foldM efold] in *. apply wp_bind.
    apply (clean_operation_derives report operation s0 s l d _ O).
    destruct (value_operation _ _ _ _ _ (d, report) operation)
      as [e | [d1 report1]]; cbn [ebind] in H; [exact H |].
    intros l1 s1 O1. cbn [fst snd] in *.
    apply (IH report1 s0 s1 l1 d1 _ O1). exact H.
Qed.

Lemma wp_set_sheet name l s (Q : exn + unit -> Store -> Prop) :
  Q (inr tt) {| sheets := repoint name l (sheets s); objects := objects s |} ->
  wp (set_sheet name l) s Q.
Proof. exact (fun H => H). Qed.

Lemma addressed_sheet_frame s sheet_name d :
  addressed_frame s sheet_name = inr d ->
  exists l, sheet_frame (addressed_sheet s sheet_name) (sheets s) = Some l
            /\ points_to s l d.
Proof.
  unfold addressed_frame, addressed_sheet, points_to.
  destruct (sheets s) as [| [first_sheet l0] ss]; [discriminate |].
  destruct (truthy sheet_name && _); [discriminate |].
  destruct (sheet_frame _ _) as [l |]; [| discriminate].
  destruct (nth_error (objects s) l) as [d' |] eqn:N; [| discriminate].
  intros [= <-]. now exists l.
Qed.

(** What a call of [clean_data] does: its result is the one computed on
    frame values, every frame of the store stays as it was, and the
    sheets change only when the call succeeds, the sheet addressed being
    given a new frame object that holds the cleaned frame. *)
Lemma clean_data_refines (operations : list string)
      (sheet_name : option string) (s : Store) :
  wp (clean_data to_numeric to_datetime astype_str strftime replace_currency
                 operations sheet_name) s
     (fun r s' =>
        r = inr (value_clean_data to_numeric to_datetime astype_str strftime
                                  replace_currency s operations sheet_name)
        /\ (exists extra, objects s' = objects s ++ extra)
        /\ match addressed_frame s sheet_name with
           | inr d =>
               match value_clean to_numeric to_datetime astype_str strftime
                                 replace_currency operations d with
               | inr st => committed s s' (addressed_sheet s sheet_name)
                                     (fst st)
               | inl _ => sheets s' = sheets s
               end
           | inl _ => sheets s' = sheets s
           end).
Proof.
  assert (Same : exists extra, objects s = objects s ++ extra)
    by (exists []; now rewrite app_nil_r).
  unfold clean_data, value_clean_data, addressed_frame, addressed_sheet.
  apply wp_catch, wp_bind, wp_get_sheets.
  destruct (sheets s) as [| [first_sheet l0] ss] eqn:Ss.
  { apply wp_ret. now rewrite Ss. }
  destruct (truthy sheet_name && _) eqn:T.
  { apply wp_ret. now rewrite Ss. }
  set (name := if truthy sheet_name
               then match sheet_name with Some n => n | None => "" end
               else first_sheet).
  destruct (sheet_frame name ((first_sheet, l0) :: ss)) as [loaded |] eqn:F.
  2:{ apply wp_raise, wp_ret. now rewrite Ss. }
  destruct (nth_error (objects s) loaded) as [d |] eqn:N.
  2:{ apply wp_bind. unfold copy. apply wp_bind, wp_read_lost; [exact N |].
      apply wp_ret. now rewrite Ss. }
  apply wp_bind. unfold copy. apply (wp_read_then _ loaded s d _ N).
  apply (wp_new_frame_owned s s d _ (extends_refl s)). intros l1 s1 O1.
  apply wp_bind, (wp_inspect _ l1 s1 d _ (owned_points_to _ _ _ _ O1)).
  apply wp_bind.
  apply (operations_derives operations _ s s1 l1 d _ O1).
  unfold value_clean.
  destruct (efold _ operations _) as [e | [cleaned report]]; cbn [ebind].
  { intros s' [Sh [extra E]]. apply wp_ret.
    split; [reflexivity |]. split; [eauto | now rewrite Sh, Ss]. }
  intros l2 s2 ([Sh2 [extra2 E2]] & Fresh & P2). cbn [fst snd] in *.
  apply wp_bind, wp_set_sheet.
  set (s3 := {| sheets := repoint name l2 (sheets s2);
                objects := objects s2 |}).
  assert (P3 : points_to s3 l2 cleaned) by exact P2.
  apply wp_bind, (wp_inspect _ l2 s3 cleaned _ P3).
  apply wp_bind, (wp_head l2 10 s3 cleaned _ P3).
  intros l4 s4 [Sh4 [extra4 E4]] P4.
  apply wp_bind, (wp_to_dict_records l4 s4 _ _ P4).
  apply wp_ret. split; [reflexivity |]. split.
  - exists (extra2 ++ extra4). rewrite E4. cbn [s3 objects].
    now rewrite E2, app_assoc.
  - exists l2. split; [exact Fresh |]. split.
    + apply (points_to_extends s3 s4); [split; [exact Sh4 | eauto] | exact P3].
    + rewrite Sh4. cbn [s3 sheets]. now rewrite Sh2, Ss.
Qed.

End CleaningRefinement.

(** ** The sheets after a cleaning *)

Lemma repoint_names name l ss : map fst (repoint name l ss) = map fst ss.
Proof.
  induction ss as [| [k l0] ss IH]; [reflexivity |].
  cbn [repoint map]. fold (repoint name l ss). rewrite IH.
  now destruct (String.eqb name k).
Qed.

Lemma sheet_frame_repoint name l ss other :
  sheet_frame other (repoint name l ss)
  = if String.eqb name other
    then match sheet_frame other ss with Some _ => Some l | None => None end
    else sheet_frame other ss.
Proof.
  induction ss as [| [k l0] ss IH].
  - cbn. now destruct (String.eqb name other).
  - cbn [repoint map]. fold (repoint name l ss).
    destruct (String.eqb name k) eqn:K; cbn [sheet_frame];
      destruct (String.eqb other k) eqn:O; try exact IH.
    + apply String.eqb_eq in K, O. subst.
      now rewrite String.eqb_refl.
    + destruct (String.eqb name other) eqn:NO; [| reflexivity].
      apply String.eqb_eq in NO, O. subst.
      now rewrite String.eqb_refl in K.
Qed.

Lemma addressed_frame_by_name s sheet_name :
  addressed_frame s sheet_name
  = match sheets s with
    | [] => inl NoExcelFileLoaded
    | _ :: _ =>
        let given := match sheet_name with Some n => n | None => "" end in
        if truthy sheet_name && negb (mem given (map fst (sheets s)))
        then inl (SheetNotFound given)
        else
          match sheet_frame (addressed_sheet s sheet_name) (sheets s) with
          | None => inl (ErrorProcessingQuery KeyError)
          | Some df =>
              match nth_error (objects s) df with
              | Some d => inr d
              | None => inl (ErrorProcessingQuery ReferenceLost)
              end
          end
    end.
Proof.
  unfold addressed_frame, addressed_sheet.
  now destruct (sheets s) as [| [first_sheet l0] ss].
Qed.

Lemma addressed_sheet_names s s' sheet_name :
  map fst (sheets s') = map fst (sheets s) ->
  addressed_sheet s' sheet_name = addressed_sheet s sheet_name.
Proof.
  unfold addressed_sheet.
  destruct (sheets s) as [| [k l] ss], (sheets s') as [| [k' l'] ss'];
    try discriminate; [reflexivity |].
  intros [= -> _]. reflexivity.
Qed.

Lemma committed_addressed_frame s s' sheet_name d cleaned :
  addressed_frame s sheet_name = inr d ->
  committed s s' (addressed_sheet s sheet_name) cleaned ->
  addressed_frame s' sheet_name = inr cleaned.
Proof.
  intros A (l & _ & P & Sh).
  assert (Names : map fst (sheets s') = map fst (sheets s))
    by (rewrite Sh; apply repoint_names).
  rewrite addressed_frame_by_name in *.
  rewrite (addressed_sheet_names s s' sheet_name Names), Names.
  destruct (sheets s) as [| sheet ss] eqn:Ss; [discriminate |].
  destruct (sheets s') as [| sheet' ss'] eqn:Ss'; [discriminate |].
  cbv zeta in *.
  destruct (truthy sheet_name && _); [discriminate |].
  rewrite Sh, sheet_frame_repoint, String.eqb_refl.
  destruct (sheet_frame _ (sheet :: ss)); [| discriminate].
  unfold points_to in P. now rewrite P.
Qed.

Section CleaningEffects.

Variable to_numeric : bool -> Series -> exn + Series.
Variable to_datetime : Series -> exn + Series.
Variable astype_str : Series -> Series.
Variable strftime : Series -> exn + Series.
Variable replace_currency : Series -> exn + Series.
Variable reduce_other : string -> dtype -> list cell -> exn + cell.

(** X15.  A cleaning is all or nothing.  Whatever the store, the
    operations, the sheet named and the conversions of pandas, a call of
    [clean_data] returns a result and raises nothing; every frame object
    of the store holds afterwards what it held before, the loaded frame
    included, since the operations work on a copy; and the sheets are as
    they were unless the result is a success, in which case the sheet
    addressed, and no other, has been given a frame object made during the
    call. *)
Theorem cleaning_is_all_or_nothing (s : Store) (operations : list string)
        (sheet_name : option string) :
  let run := clean_data to_numeric to_datetime astype_str strftime
                        replace_currency operations sheet_name in
  let s' := snd (run s) in
  (exists result,
      fst (run s) = inr result
      /\ match result with
         | Cleaned _ _ =>
             exists l, (List.length (objects s) <= l < List.length (objects s'))%nat
                       /\ sheets s' = repoint (addressed_sheet s sheet_name) l
                                              (sheets s)
         | _ => sheets s' = sheets s
         end)
  /\ (forall l d, nth_error (objects s) l = Some d ->
                  nth_error (objects s') l = Some d).
Proof.
  intros run s'.
  destruct (clean_data_refines to_numeric to_datetime astype_str strftime
                               replace_currency operations sheet_name s)
    as (E & [extra Ob] & C).
  fold run in E, Ob, C. fold s' in Ob, C. split.
  - eexists. split; [exact E |]. unfold value_clean_data.
    destruct (addressed_frame s sheet_name) as [kind | d].
    + now destruct kind.
    + destruct (value_clean _ _ _ _ _ operations d) as [e | [cleaned report]];
        [exact C |].
      destruct C as (l & Fresh & P & Sh). exists l.
      split; [| exact Sh]. split; [exact Fresh |].
      apply nth_error_Some. unfold points_to in P. congruence.
  - intros l d N. rewrite Ob, nth_error_app1; [exact N |].
    apply nth_error_Some. congruence.
Qed.

(** X16.  After a cleaning that succeeds, the sheet addressed holds the
    cleaned frame: the shape and the preview of the report are those of
    that frame, every query on the same sheet is answered on it, and the
    other sheets hold the frame objects they held. *)
Theorem queries_see_the_cleaned_table (s : Store) (operations : list string)
        (sheet_name : option string) (report : CleaningReport)
        (preview : list record) :
  let run := clean_data to_numeric to_datetime astype_str strftime
                        replace_currency operations sheet_name in
  let s' := snd (run s) in
  fst (run s) = inr (Cleaned report preview) ->
  exists cleaned,
    addressed_frame s' sheet_name = inr cleaned
    /\ final_shape report = frame_shape cleaned
    /\ preview = records_of (frame_head cleaned 10)
    /\ (forall query,
           fst (natural_language_query reduce_other query sheet_name s')
           = inr (value_query reduce_other cleaned query))
    /\ (forall other, other <> addressed_sheet s sheet_name ->
                      sheet_frame other (sheets s')
                      = sheet_frame other (sheets s)).
Proof.
  intros run s' Success.
  destruct (clean_data_refines to_numeric to_datetime astype_str strftime
                               replace_currency operations sheet_name s)
    as (E & _ & C).
  fold run in E, C. fold s' in C. rewrite Success in E.
  unfold value_clean_data in E.
  destruct (addressed_frame s sheet_name) as [kind | d] eqn:A;
    [now destruct kind |].
  destruct (value_clean _ _ _ _ _ operations d) as [e | [cleaned rep]] eqn:V;
    [discriminate |].
  injection E as -> ->. cbn [fst] in C. exists cleaned.
  pose proof (committed_addressed_frame s s' sheet_name d cleaned A C) as A'.
  split; [exact A' |]. split; [| split; [reflexivity | split]].
  - unfold value_clean in V.
    destruct (efold _ operations _) as [e | st]; [discriminate |].
    cbn [ebind] in V. now injection V as <- <-.
  - intros query.
    destruct (natural_language_query_refines reduce_other query sheet_name s')
      as (Q & _). rewrite Q. unfold value_natural_language_query.
    now rewrite A'.
  - intros other Other. destruct C as (l & _ & _ & ->).
    rewrite sheet_frame_repoint.
    destruct (String.eqb _ other) eqn:Eq; [| reflexivity].
    apply String.eqb_eq in Eq. congruence.
Qed.

End CleaningEffects.

Lemma cleaning_is_all_or_nothing_witness :
  nth_error
    (objects (snd (clean_data (fun _ _ => inl TypeError)
                              (fun _ => inl TypeError) (fun sr => sr)
                              (fun _ => inl TypeError)
                              (fun _ => inl TypeError)
                              ["convert_data_types"] None sales_bot))) 0
  = Some sales.
Proof.
  apply (proj2 (cleaning_is_all_or_nothing
                  (fun _ _ => inl TypeError) (fun _ => inl TypeError)
                  (fun sr => sr) (fun _ => inl TypeError)
                  (fun _ => inl TypeError)
                  sales_bot ["convert_data_types"] None)).
  reflexivity.
Defined.

Lemma queries_see_the_cleaned_table_witness :
  exists cleaned,
    addressed_frame
      (snd (clean_data (fun _ sr => inr sr) (fun sr => inr sr) (fun sr => sr)
                       (fun sr => inr sr) (fun sr => inr sr)
                       ["remove_outliers"] None sales_bot)) None
    = inr cleaned
    /\ List.length (df_rows cleaned) = 3%nat.
Proof.
  destruct (queries_see_the_cleaned_table
              (fun _ sr => inr sr) (fun sr => inr sr) (fun sr => sr)
              (fun sr => inr sr) (fun sr => inr sr)
              (fun _ _ _ => inl TypeError)
              sales_bot ["remove_outliers"] None _ _ eq_refl)
    as (cleaned & A & Shape & _).
  exists cleaned. split; [exact A |].
  change (fst (frame_shape cleaned) = 3%nat). now rewrite <- Shape.
Defined.

(** ** Duplicates *)

Lemma cell_eqb_refl (c : cell) : cell_eqb c c = true.
Proof.
  destruct c as [q | t | x |]; cbn; auto using Qeq_bool_refl, String.eqb_refl.
  now rewrite !Z.eqb_refl.
Qed.

Lemma cell_eqb_sym (a b : cell) : cell_eqb a b = cell_eqb b a.
Proof.
  destruct a as [q | t | x |], b as [q' | t' | x' |]; cbn; try reflexivity.
  - destruct (Qeq_bool q q') eqn:E, (Qeq_bool q' q) eqn:E'; try reflexivity.
    + apply Qeq_bool_sym in E. congruence.
    + apply Qeq_bool_sym in E'. congruence.
  - now rewrite (Z.eqb_sym (ts_year t)), (Z.eqb_sym (ts_month t)),
      (Z.eqb_sym (ts_day t)).
  - apply String.eqb_sym.
Qed.

Lemma cell_eqb_trans (a b c : cell) :
  cell_eqb a b = true -> cell_eqb b c = true -> cell_eqb a c = true.
Proof.
  destruct a as [q | t | x |], b as [q' | t' | x' |], c as [q'' | t'' | x'' |];
    cbn; try discriminate; try reflexivity.
  - apply Qeq_bool_trans.
  - intros H1 H2.
    apply andb_true_iff in H1 as [H1 D1]. apply andb_true_iff in H1 as [Y1 M1].
    apply andb_true_iff in H2 as [H2 D2]. apply andb_true_iff in H2 as [Y2 M2].
    apply Z.eqb_eq in Y1, M1, D1, Y2, M2, D2.
    rewrite Y1, M1, D1, Y2, M2, D2. now rewrite !Z.eqb_refl.
  - intros H1 H2. apply String.eqb_eq in H1, H2. subst. apply String.eqb_refl.
Qed.

Lemma row_eqb_refl w (a : list cell) : row_eqb w a a = true.
Proof. apply forallb_forall. intros i _. apply cell_eqb_refl. Qed.

Lemma row_eqb_sym w (a b : list cell) : row_eqb w a b = row_eqb w b a.
Proof.
  unfold row_eqb. induction (seq 0 w) as [| i l IH]; [reflexivity |].
  cbn [forallb]. now rewrite IH, cell_eqb_sym.
Qed.

Lemma row_eqb_trans w (a b c : list cell) :
  row_eqb w a b = true -> row_eqb w b c = true -> row_eqb w a c = true.
Proof.
  unfold row_eqb. rewrite !forallb_forall. intros H1 H2 i I.
  exact (cell_eqb_trans _ _ _ (H1 i I) (H2 i I)).
Qed.

(** A row equal to [a] is met in [seen] exactly when one equal to [b]
    is, for equal [a] and [b]. *)
Lemma seen_equal w (a b : list cell) (seen : list (list cell)) :
  row_eqb w a b = true ->
  existsb (row_eqb w b) seen = true -> existsb (row_eqb w a) seen = true.
Proof.
  intros E H. apply existsb_exists in H as (x & I & X).
  apply existsb_exists. exists x. split; [exact I |].
  exact (row_eqb_trans w a b x E X).
Qed.

Lemma select_duplicated w (seen rows : list (list cell)) :
  select_rows (map negb (duplicated_from w seen rows)) rows
  = first_occurrences w seen rows.
Proof.
  revert seen. induction rows as [| row rows IH]; intros seen;
    [reflexivity |].
  cbn [duplicated_from map select_rows first_occurrences].
  rewrite IH. now destruct (existsb (row_eqb w row) seen).
Qed.

Lemma first_occurrences_in w (seen rows : list (list cell)) (r : list cell) :
  In r (first_occurrences w seen rows) ->
  In r rows /\ existsb (row_eqb w r) seen = false.
Proof.
  revert seen. induction rows as [| row rows IH]; intros seen;
    cbn [first_occurrences]; [intros [] |].
  assert (Later : In r (first_occurrences w (seen ++ [row]) rows) ->
                  In r (row :: rows) /\ existsb (row_eqb w r) seen = false).
  { intros I. apply IH in I as [I N]. split; [now right |].
    rewrite existsb_app in N. now apply orb_false_iff in N. }
  destruct (existsb (row_eqb w row) seen) eqn:S; [exact Later |].
  intros [<- | I]; [split; [now left | exact S] | exact (Later I)].
Qed.

Lemma first_occurrences_distinct w (seen rows : list (list cell)) :
  distinct_rows w (first_occurrences w seen rows).
Proof.
  revert seen. induction rows as [| row rows IH]; intros seen;
    cbn [first_occurrences]; [constructor |].
  destruct (existsb (row_eqb w row) seen); [apply IH |].
  constructor; [| apply IH].
  apply Forall_forall. intros b I.
  apply first_occurrences_in in I as [_ N].
  rewrite existsb_app in N. apply orb_false_iff in N as [_ N].
  cbn [existsb] in N. rewrite orb_false_r in N.
  now rewrite row_eqb_sym.
Qed.

Lemma first_occurrences_cover w (seen rows : list (list cell))
      (r : list cell) :
  In r rows ->
  existsb (row_eqb w r) seen = true
  \/ exists kept, In kept (first_occurrences w seen rows)
                  /\ row_eqb w r kept = true.
Proof.
  revert seen. induction rows as [| row rows IH]; intros seen; [intros [] |].
  cbn [first_occurrences]. intros [<- | I].
  - destruct (existsb (row_eqb w row) seen) eqn:S; [now left |].
    right. exists row. split; [now left | apply row_eqb_refl].
  - destruct (IH (seen ++ [row]) I) as [N | (kept & K & E)].
    + rewrite existsb_app in N. apply orb_true_iff in N as [N | N];
        [now left |].
      cbn [existsb] in N. rewrite orb_false_r in N.
      destruct (existsb (row_eqb w row) seen) eqn:S.
      * left. exact (seen_equal w r row seen N S).
      * right. exists row. split; [now left | exact N].
    + right. exists kept. split; [| exact E].
      destruct (existsb (row_eqb w row) seen); [exact K | now right].
Qed.

Lemma first_occurrences_first w (seen l1 l2 : list (list cell))
      (row : list cell) :
  existsb (row_eqb w row) (seen ++ l1) = false ->
  In row (first_occurrences w seen (l1 ++ row :: l2)).
Proof.
  revert seen. induction l1 as [| x l1 IH]; intros seen N.
  - rewrite app_nil_r in N. cbn [app first_occurrences]. rewrite N. now left.
  - cbn [app first_occurrences].
    assert (I : In row (first_occurrences w (seen ++ [x])
                                          (l1 ++ row :: l2)))
      by (apply IH; now rewrite <- app_assoc).
    destruct (existsb (row_eqb w x) seen); [exact I | now right].
Qed.

Lemma first_occurrences_fixed w (seen rows : list (list cell)) :
  distinct_rows w rows ->
  (forall r, In r rows -> existsb (row_eqb w r) seen = false) ->
  first_occurrences w seen rows = rows.
Proof.
  revert seen. induction rows as [| row rows IH]; intros seen D N;
    [reflexivity |].
  cbn [first_occurrences]. rewrite (N row (or_introl eq_refl)).
  inversion D as [| ? ? F D']; subst. f_equal. apply IH; [exact D' |].
  intros r I. rewrite existsb_app, (N r (or_intror I)). cbn [existsb orb].
  rewrite orb_false_r, row_eqb_sym.
  exact (proj1 (Forall_forall _ _) F r I).
Qed.

Lemma select_rows_length {A} (mask : list bool) (rows : list A) :
  (List.length (select_rows mask rows) <= List.length rows)%nat.
Proof.
  revert mask. induction rows as [| r rows IH]; intros [| b mask];
    cbn [select_rows List.length]; try lia.
  specialize (IH mask). destruct b; cbn [List.length]; lia.
Qed.

Lemma drop_duplicates_fixed (d : DataFrame) :
  distinct_rows (List.length (df_columns d)) (df_rows d) ->
  frame_drop_duplicates d = d.
Proof.
  destruct d as [cols rows]. unfold frame_drop_duplicates.
  cbn [df_columns df_rows]. intros D.
  destruct cols as [| c cs]; [reflexivity |].
  destruct rows as [| r rs]; [reflexivity |].
  unfold frame_select, frame_duplicated. cbn [df_columns df_rows].
  rewrite select_duplicated, first_occurrences_fixed; auto.
Qed.

(** X17.  [drop_duplicates] on a frame with at least one column keeps the
    columns and, of the rows, the first occurrences: no two rows kept hold
    equal cells (nulls equal to each other, numbers compared by value);
    every row kept is a row of the frame; every row of the frame is equal
    to a row kept; a row equal to no row before it is kept; a second pass
    changes nothing; and the count reported is not negative. *)
Theorem drop_duplicates_keeps_first_occurrences (d : DataFrame) :
  df_columns d <> [] ->
  let cleaned := frame_drop_duplicates d in
  let same := row_eqb (List.length (df_columns d)) in
  df_columns cleaned = df_columns d
  /\ distinct_rows (List.length (df_columns d)) (df_rows cleaned)
  /\ (forall row, In row (df_rows cleaned) -> In row (df_rows d))
  /\ (forall row, In row (df_rows d) ->
                  exists kept, In kept (df_rows cleaned)
                               /\ same row kept = true)
  /\ (forall before row after,
         df_rows d = before ++ row :: after ->
         existsb (same row) before = false ->
         In row (df_rows cleaned))
  /\ frame_drop_duplicates cleaned = cleaned
  /\ value_remove_duplicates d
     = inr (cleaned, Count (rows_lost d cleaned))
  /\ (0 <= rows_lost d cleaned)%Z.
Proof.
  intros Columns cleaned same.
  assert (Rows : df_columns cleaned = df_columns d
                 /\ df_rows cleaned
                    = first_occurrences (List.length (df_columns d)) []
                                        (df_rows d)).
  { unfold cleaned, frame_drop_duplicates.
    destruct (df_columns d) as [| c cs] eqn:Cs; [congruence |].
    destruct (df_rows d) as [| r rs] eqn:Rs.
    - now rewrite Cs, Rs.
    - unfold frame_select, frame_duplicated. cbn [df_columns df_rows].
      rewrite Cs, Rs. split; [reflexivity | apply select_duplicated]. }
  destruct Rows as [Cols Rows]. rewrite Rows.
  split; [exact Cols |].
  split; [apply first_occurrences_distinct |].
  split; [intros row I; now apply first_occurrences_in in I |].
  split.
  { intros row I.
    destruct (first_occurrences_cover (List.length (df_columns d)) []
                                      _ row I) as [N | K];
      [discriminate | exact K]. }
  split.
  { intros before row after -> N. now apply first_occurrences_first. }
  split.
  { apply drop_duplicates_fixed. rewrite Cols, Rows.
    apply first_occurrences_distinct. }
  split; [reflexivity |].
  unfold rows_lost.
  assert (List.length (df_rows cleaned) <= List.length (df_rows d))%nat;
    [| lia].
  rewrite Rows, <- select_duplicated. 
  etransitivity; [apply select_rows_length |].
  reflexivity.
Qed.

Lemma drop_duplicates_keeps_first_occurrences_witness :
  distinct_rows 2 (df_rows (frame_drop_duplicates ledger))
  /\ List.length (df_rows (frame_drop_duplicates ledger)) = 3%nat.
Proof.
  assert (Columns : df_columns ledger <> []) by discriminate.
  split; [| reflexivity].
  exact (proj1 (proj2 (drop_duplicates_keeps_first_occurrences ledger
                                                               Columns))).
Defined.

(** ** The operations of a cleaning *)

Section CleaningReports.

Variable to_numeric : bool -> Series -> exn + Series.
Variable to_datetime : Series -> exn + Series.
Variable astype_str : Series -> Series.
Variable strftime : Series -> exn + Series.
Variable replace_currency : Series -> exn + Series.

(** The chain of the loop takes the branch of the first name the request
    holds, and no branch when it holds none. *)
Lemma value_operation_recognised (d : DataFrame) (report : CleaningReport)
      (operation : string) :
  match recognised operation with
  | Some name =>
      exists run key,
        (value_operation to_numeric to_datetime astype_str strftime
      replace_currency) (d, report) operation
        = ebind (run d)
                (fun r => inr (fst r, performed name key (snd r) report))
  | None => (value_operation to_numeric to_datetime astype_str strftime
      replace_currency) (d, report) operation = inr (d, report)
  end.
Proof.
  unfold recognised, operation_names, value_operation. cbn [find fst snd].
  repeat match goal with
         | |- context [if ?b then _ else _] => destruct b
         end; eauto.
Qed.

Lemma changes_set_keys (k : string) (v : change)
      (m : list (string * change)) :
  (NoDup (map fst m) -> NoDup (map fst (changes_set k v m)))
  /\ (forall x, In x (map fst (changes_set k v m)) ->
                x = k \/ In x (map fst m))
  /\ (List.length (changes_set k v m) <= S (List.length m))%nat.
Proof.
  induction m as [| [k' v'] m (IH1 & IH2 & IH3)]; cbn [changes_set].
  - split; [| split]; cbn; [| | lia].
    + intros _. constructor; [intros [] | constructor].
    + intros x [<- | []]. now left.
  - destruct (String.eqb k k') eqn:E.
    + apply String.eqb_eq in E. subst k'. cbn. split; [| split];
        [auto | | lia].
      intros x [<- | I]; [now left | right; now right].
    + cbn [map fst List.length]. split; [| split]; [| | lia].
      * intros ND. inversion ND as [| ? ? NI ND']; subst.
        constructor; [| auto].
        intros I. apply IH2 in I as [-> | I]; [| auto].
        now rewrite String.eqb_refl in E.
      * intros x [<- | I]; [right; now left |].
        apply IH2 in I as [-> | I]; [now left | right; now right].
Qed.

Lemma operations_report (operations : list string) (d cleaned : DataFrame)
      (report final : CleaningReport) :
  efold (value_operation to_numeric to_datetime astype_str strftime
      replace_currency) operations (d, report) = inr (cleaned, final) ->
  operations_performed final
  = operations_performed report ++ recognised_names operations
  /\ (NoDup (map fst (changes_made report)) ->
      NoDup (map fst (changes_made final)))
  /\ (List.length (changes_made final)
      <= List.length (changes_made report)
         + List.length (recognised_names operations))%nat
  /\ original_shape final = original_shape report.
Proof.
  revert d report.
  induction operations as [| operation operations IH]; intros d report;
    cbn [efold recognised_names flat_map].
  - intros [= <- <-]. rewrite app_nil_r. repeat split; [auto | lia].
  - fold (recognised_names operations).
    pose proof (value_operation_recognised d report operation) as Step.
    destruct (recognised operation) as [name |].
    + destruct Step as (run & key & ->).
      destruct (run d) as [e | [d1 v]]; cbn [ebind fst snd];
        [discriminate |].
      intros Rest. apply IH in Rest as (P & N & L & O).
      cbn [performed operations_performed changes_made original_shape] in *.
      destruct (changes_set_keys key v (changes_made report))
        as (K1 & _ & K3).
      split; [now rewrite P, <- app_assoc |].
      split; [auto |]. split; [| exact O].
      rewrite length_app. cbn [List.length]. lia.
    + rewrite Step. cbn [ebind app]. apply IH.
Qed.

Lemma unrecognised_operations_are_skipped (operations : list string)
      (st : DataFrame * CleaningReport) :
  efold (value_operation to_numeric to_datetime astype_str strftime
      replace_currency) (filter is_recognised operations) st
  = efold (value_operation to_numeric to_datetime astype_str strftime
      replace_currency) operations st.
Proof.
  revert st. induction operations as [| operation operations IH];
    intros [d report]; [reflexivity |].
  cbn [filter]. unfold is_recognised.
  pose proof (value_operation_recognised d report operation) as Step.
  destruct (recognised operation) as [name |]; cbn [efold].
  - destruct ((value_operation to_numeric to_datetime astype_str strftime
      replace_currency) (d, report) operation) as [e | st1];
      cbn [ebind]; [reflexivity | apply IH].
  - rewrite Step. cbn [ebind]. apply IH.
Qed.

(** X18.  When a cleaning succeeds, [operations_performed] lists, in the
    order of the requests, the name of the operation each request stands
    for, which is the first of the six names, in the order of the chain,
    that the lower-cased request holds; a request that holds none is
    passed over without a word, and the call answers as it does without
    such requests.  [changes_made] holds each key once, so it never has
    more entries than operations were performed. *)
Theorem report_lists_the_recognised_operations
        (s : Store) (operations : list string) (sheet_name : option string)
        (report : CleaningReport) (preview : list record) :
  fst (clean_data to_numeric to_datetime astype_str strftime
      replace_currency operations sheet_name s) = inr (Cleaned report preview) ->
  operations_performed report = recognised_names operations
  /\ NoDup (map fst (changes_made report))
  /\ (List.length (changes_made report)
      <= List.length (operations_performed report))%nat
  /\ fst (clean_data to_numeric to_datetime astype_str strftime
      replace_currency (filter is_recognised operations) sheet_name s)
     = inr (Cleaned report preview).
Proof.
  intros Success.
  destruct (clean_data_refines to_numeric to_datetime astype_str strftime
                               replace_currency operations sheet_name s)
    as (E & _).
  destruct (clean_data_refines to_numeric to_datetime astype_str strftime
                               replace_currency
                               (filter is_recognised operations) sheet_name s)
    as (E' & _).
  rewrite E'. rewrite Success in E. unfold value_clean_data in *.
  destruct (addressed_frame s sheet_name) as [kind | d];
    [now destruct kind |].
  unfold value_clean in *. rewrite unrecognised_operations_are_skipped.
  destruct (efold (value_operation to_numeric to_datetime astype_str strftime
      replace_currency) operations _) as [e | [cleaned final]] eqn:F;
    cbn [ebind fst snd] in *; [discriminate |].
  injection E as E1 E2. subst report preview.
  apply operations_report in F as (P & N & L & _).
  cbn [operations_performed changes_made with_final_shape app
       List.length] in *.
  split; [exact P |]. split; [apply N; constructor |].
  split; [rewrite P; exact L | reflexivity].
Qed.

End CleaningReports.

(** ** Columns rewritten in place *)

Lemma set_nth_same {A} (i : nat) (x : A) (l : list A) :
  nth_error l i = Some x -> set_nth i x l = l.
Proof.
  revert i. induction l as [| y l IH]; intros [| i]; cbn; try discriminate.
  - now intros [= ->].
  - intros N. now rewrite IH.
Qed.

Lemma nth_set_nth {A} (i j : nat) (x dflt : A) (l : list A) :
  (i < List.length l)%nat ->
  nth j (set_nth i x l) dflt = if Nat.eqb j i then x else nth j l dflt.
Proof.
  revert i j. induction l as [| y l IH]; intros i j L; cbn in L; [lia |].
  destruct i as [| i], j as [| j]; cbn [set_nth nth Nat.eqb]; try reflexivity.
  apply IH. lia.
Qed.

Lemma map_nth_seq {A} (pre l : list A) (dflt : A) :
  map (fun n => nth n (pre ++ l) dflt) (seq (List.length pre) (List.length l))
  = l.
Proof.
  revert pre. induction l as [| x l IH]; intros pre; [reflexivity |].
  cbn [List.length seq map]. f_equal.
  - rewrite app_nth2 by lia. now rewrite Nat.sub_diag.
  - specialize (IH (pre ++ [x])). rewrite <- app_assoc in IH. cbn [app] in IH.
    rewrite length_app in IH. cbn [List.length] in IH.
    now rewrite Nat.add_1_r in IH.
Qed.

(** The rows after [df[col] = cells], seen column by column. *)
Lemma setitem_rows (i : nat) (cells : list cell) (rows : list (list cell))
      (a : nat) :
  Forall (fun row => (i < List.length row)%nat) rows ->
  forall j,
    column_cells j
      (map (fun '(n, row) => set_nth i (nth n cells CNull) row)
           (combine (seq a (List.length rows)) rows))
    = if Nat.eqb j i
      then map (fun n => nth n cells CNull) (seq a (List.length rows))
      else column_cells j rows.
Proof.
  intros W j. revert a. induction W as [| row rows L W IH]; intros a.
  - cbn. now destruct (Nat.eqb j i).
  - cbn [List.length seq combine map column_cells].
    fold (column_cells j rows). rewrite nth_set_nth by exact L.
    specialize (IH (S a)). unfold column_cells in IH at 1. rewrite IH.
    now destruct (Nat.eqb j i).
Qed.

Lemma find_column_at col cs i t :
  find_column col cs 0 = Some (i, t) ->
  nth_error cs i = Some (col, t) /\ (i < List.length cs)%nat.
Proof.
  intros F. destruct (find_column_nth _ _ _ _ _ F) as (j & -> & N).
  split; [exact N |]. apply nth_error_Some. cbn. congruence.
Qed.

Lemma find_column_other col col' cs k i j t t' :
  find_column col cs k = Some (i, t) ->
  find_column col' cs k = Some (j, t') ->
  col' <> col -> j <> i.
Proof.
  intros F F' Ne E. subst j.
  destruct (find_column_nth _ _ _ _ _ F) as (a & Ea & N).
  destruct (find_column_nth _ _ _ _ _ F') as (b & Eb & N').
  assert (a = b) by lia. subst b. congruence.
Qed.

(** [df[col] = (k, cells)] on a column of kind [k], with one cell per
    row. *)
Lemma setitem_rewrites (d : DataFrame) (col : string) (k : dtype)
      (old cells : list cell) :
  uniform d -> frame_getitem d col = inr (k, old) ->
  List.length cells = List.length old ->
  let d1 := frame_setitem d col (k, cells) in
  df_columns d1 = df_columns d
  /\ uniform d1
  /\ List.length (df_rows d1) = List.length (df_rows d)
  /\ frame_getitem d1 col = inr (k, cells)
  /\ forall col', col' <> col -> frame_getitem d1 col' = frame_getitem d col'.
Proof.
  intros U G L d1. unfold frame_getitem in G.
  destruct (find_column col (df_columns d) 0) as [[i t] |] eqn:F;
    [| discriminate].
  injection G as -> <-.
  destruct (find_column_at _ _ _ _ F) as [N Li].
  assert (Cols : df_columns d1 = df_columns d).
  { unfold d1, frame_setitem. rewrite F. cbn [df_columns fst].
    now apply set_nth_same. }
  assert (Rows : df_rows d1
                 = map (fun '(n, row) => set_nth i (nth n cells CNull) row)
                       (combine (seq 0 (List.length (df_rows d)))
                                (df_rows d))).
  { unfold d1, frame_setitem. rewrite F. reflexivity. }
  assert (Wide : Forall (fun row => (i < List.length row)%nat) (df_rows d)).
  { eapply Forall_impl; [| exact U]. cbn. intros row ->. exact Li. }
  assert (Cells : forall j,
             column_cells j (df_rows d1)
             = if Nat.eqb j i then cells else column_cells j (df_rows d)).
  { intros j. rewrite Rows, setitem_rows by exact Wide.
    destruct (Nat.eqb j i); [| reflexivity].
    unfold column_cells in L. rewrite length_map in L. rewrite <- L.
    exact (map_nth_seq [] cells CNull). }
  split; [exact Cols |]. split; [| split; [| split]].
  - unfold uniform. rewrite Cols, Rows. apply Forall_forall.
    intros row I. apply in_map_iff in I as ([n r] & <- & I).
    rewrite set_nth_length. apply in_combine_r in I.
    exact (proj1 (Forall_forall _ _) U r I).
  - rewrite Rows, length_map, length_combine, length_seq. lia.
  - unfold frame_getitem. rewrite Cols, F, Cells.
    now rewrite Nat.eqb_refl.
  - intros col' Ne. unfold frame_getitem. rewrite Cols.
    destruct (find_column col' (df_columns d) 0) as [[j t'] |] eqn:F';
      [| reflexivity].
    rewrite Cells.
    pose proof (find_column_other _ _ _ _ _ _ _ _ F F' Ne) as Nj.
    apply Nat.eqb_neq in Nj. now rewrite Nj.
Qed.

Lemma fillna_rewrites (k : dtype) (value_of : list cell -> cell) :
  rewrites_column k
    (fun col d =>
       ebind (frame_getitem d col)
             (fun sr => inr (frame_setitem d col
                                           (fillna sr (value_of (snd sr))))))
    (fun cells => fill_cells (value_of cells) cells).
Proof.
  intros d col cells U G. rewrite G. cbn [ebind snd].
  eexists. split; [reflexivity |].
  apply (setitem_rewrites d col k cells _ U G).
  unfold fill_cells, fillna. cbn [snd]. apply length_map.
Qed.

Lemma str_column_rewrites (f : string -> string) :
  rewrites_column DObject (str_column f)
    (map (fun c => match c with CText s => CText (f s) | _ => CNull end)).
Proof.
  intros d col cells U G. unfold str_column. rewrite G. cbn [ebind].
  eexists. split; [reflexivity |].
  apply (setitem_rewrites d col DObject cells _ U G). apply length_map.
Qed.

Lemma rewrites_then (k : dtype) step1 step2 g1 g2 :
  rewrites_column k step1 g1 -> rewrites_column k step2 g2 ->
  rewrites_column k (fun col d => ebind (step1 col d) (step2 col))
                  (fun cells => g2 (g1 cells)).
Proof.
  intros R1 R2 d col cells U G.
  destruct (R1 d col cells U G) as (d1 & -> & C1 & U1 & L1 & G1 & O1).
  destruct (R2 d1 col (g1 cells) U1 G1) as (d2 & S2 & C2 & U2 & L2 & G2 & O2).
  exists d2. cbn [ebind]. split; [exact S2 |].
  split; [congruence |]. split; [exact U2 |]. split; [congruence |].
  split; [exact G2 |].
  intros col' Ne. now rewrite (O2 col' Ne), (O1 col' Ne).
Qed.

Lemma mem_cons_other (x c : string) (l : list string) :
  x <> c -> mem x (c :: l) = mem x l.
Proof.
  intros Ne. unfold mem. cbn [existsb].
  apply String.eqb_neq in Ne. now rewrite Ne.
Qed.

(** A loop over distinct columns of kind [k] rewrites each of them and
    nothing else. *)
Lemma rewrites_fold (k : dtype) step g (cols : list string) (d : DataFrame) :
  rewrites_column k step g -> uniform d -> NoDup cols ->
  (forall c, In c cols -> exists cells, frame_getitem d c = inr (k, cells)) ->
  exists d',
    efold (fun d col => step col d) cols d = inr d'
    /\ df_columns d' = df_columns d
    /\ uniform d'
    /\ List.length (df_rows d') = List.length (df_rows d)
    /\ forall col,
        frame_getitem d' col
        = match frame_getitem d col with
          | inr (t, cells) => inr (t, if mem col cols then g cells else cells)
          | inl e => inl e
          end.
Proof.
  intros R. revert d. induction cols as [| c cols IH]; intros d U ND Kind.
  - exists d. cbn [efold mem existsb]. repeat split; auto.
    intros col. now destruct (frame_getitem d col) as [e | [t cells]].
  - inversion ND as [| ? ? NI ND']; subst.
    destruct (Kind c (or_introl eq_refl)) as [cells G].
    destruct (R d c cells U G) as (d1 & S1 & C1 & U1 & L1 & G1 & O1).
    destruct (IH d1 U1 ND') as (d' & F & C' & U' & L' & G').
    { intros c' I.
      assert (Ne : c' <> c) by (intros ->; contradiction).
      rewrite (O1 c' Ne). apply Kind. now right. }
    exists d'. cbn [efold]. rewrite S1. cbn [ebind].
    split; [exact F |]. split; [congruence |]. split; [exact U' |].
    split; [congruence |].
    intros col. rewrite G'. destruct (String.eqb_spec col c) as [-> | Ne].
    + rewrite G1, G.
      assert (M : mem c cols = false).
      { destruct (mem c cols) eqn:M; [| reflexivity].
        apply mem_In in M. contradiction. }
      rewrite M. unfold mem. cbn [existsb]. now rewrite String.eqb_refl.
    + rewrite (O1 col Ne). destruct (frame_getitem d col) as [e | [t old]];
        [reflexivity |].
      now rewrite (mem_cons_other col c cols Ne).
Qed.

(** The names of the columns of one kind are distinct when all the names
    are. *)
Lemma selected_names_distinct (k : dtype) (cols : list (string * dtype)) :
  NoDup (map fst cols) ->
  NoDup (map fst (filter (fun c => dtype_eqb (snd c) k) cols)).
Proof.
  induction cols as [| [name t] cols IH]; cbn [map filter fst snd]; [auto |].
  intros ND. inversion ND as [| ? ? Fresh ND']; subst.
  destruct (dtype_eqb t k); [| auto]. cbn [map fst]. constructor; [| auto].
  intros I. apply Fresh. apply in_map_iff in I as (c & E & I).
  apply filter_In in I as [I _]. apply in_map_iff. eauto.
Qed.

(** The columns [select_dtypes] gives for a frame with distinct names:
    each once, and exactly those of the kind asked for. *)
Lemma select_dtypes_spec (k : dtype) (d : DataFrame) :
  NoDup (column_names d) ->
  NoDup (select_dtypes k d)
  /\ (forall c, In c (select_dtypes k d) ->
                exists cells, frame_getitem d c = inr (k, cells))
  /\ (forall col t cells, frame_getitem d col = inr (t, cells) ->
                          mem col (select_dtypes k d) = dtype_eqb t k).
Proof.
  intros ND. unfold select_dtypes.
  assert (Sel : forall c, In c (map fst (filter (fun c => dtype_eqb (snd c) k)
                                                (df_columns d))) ->
                          exists i, find_column c (df_columns d) 0
                                    = Some (i, k)).
  { intros c I. apply in_map_iff in I as ([c' t] & E & I). cbn in E. subst c'.
    apply filter_In in I as [I T]. cbn in T.
    assert (t = k) by (destruct t, k; try discriminate; reflexivity). subst t.
    exact (find_column_unique c k (df_columns d) 0 ND I). }
  split; [now apply selected_names_distinct |]. split.
  - intros c I. destruct (Sel c I) as [i F]. unfold frame_getitem.
    rewrite F. eauto.
  - intros col t cells G. unfold frame_getitem in G.
    destruct (find_column col (df_columns d) 0) as [[i t'] |] eqn:F;
      [| discriminate].
    injection G as -> _.
    destruct (mem col _) eqn:M.
    + apply mem_In in M. destruct (Sel col M) as [i' F'].
      rewrite F in F'. injection F' as _ ->. now destruct k.
    + destruct (dtype_eqb t k) eqn:T; [| reflexivity].
      assert (In col (map fst (filter (fun c => dtype_eqb (snd c) k)
                                      (df_columns d)))).
      { apply in_map_iff. exists (col, t). split; [reflexivity |].
        apply filter_In. split; [| exact T].
        destruct (find_column_at _ _ _ _ F) as [N _].
        exact (nth_error_In _ _ N). }
      apply mem_In in H. congruence.
Qed.

(** ** Missing values *)

Lemma fill_cells_no_null (v : cell) (cells : list cell) :
  is_null v = false ->
  forallb (fun c => negb (is_null c)) (fill_cells v cells) = true.
Proof.
  intros V. unfold fill_cells, fillna. cbn [snd].
  apply forallb_forall. intros c I. apply in_map_iff in I as (c0 & <- & _).
  destruct (is_null c0) eqn:N; [now rewrite V | now rewrite N].
Qed.

Lemma mode_value_is_a_text (cells : list cell) :
  is_null (match mode cells with m :: _ => m | [] => CText "Unknown" end)
  = false.
Proof.
  unfold mode. destruct (fold_right insert_text [] _) as [| x xs];
    reflexivity.
Qed.

Lemma numeric_mean_of_numbers (cells : list cell) :
  numbers cells <> [] -> is_null (numeric_mean cells) = false.
Proof.
  unfold numeric_mean. now destruct (numbers cells).
Qed.

(** X19.  [fill_missing_values] on a frame with distinct column names
    and one cell per column in every row succeeds, keeps the columns and
    the number of rows, and treats every column by itself: the nulls of a
    numeric column become the mean of the values the column held, the
    nulls of a text column its most frequent text (the first in order
    among equals, ['Unknown'] when it holds no text), the cells that hold
    something stay, and a column of dates is left as it is.  So no null
    is left in a text column, none in a numeric column that held a
    value, and the nulls of date columns and of numeric columns without
    any value remain. *)
Theorem fill_missing_values_by_column (d : DataFrame) :
  uniform d -> NoDup (column_names d) ->
  exists cleaned,
    value_fill_missing_values d
    = inr (cleaned, Count (isnull_sum d - isnull_sum cleaned))
    /\ df_columns cleaned = df_columns d
    /\ List.length (df_rows cleaned) = List.length (df_rows d)
    /\ (forall col t cells,
           frame_getitem d col = inr (t, cells) ->
           frame_getitem cleaned col = inr (t, filled t cells))
    /\ (forall col cells,
           frame_getitem cleaned col = inr (DObject, cells) ->
           forallb (fun c => negb (is_null c)) cells = true)
    /\ (forall col cells,
           frame_getitem d col = inr (DNumeric, cells) ->
           numbers cells <> [] ->
           exists cells',
             frame_getitem cleaned col = inr (DNumeric, cells')
             /\ forallb (fun c => negb (is_null c)) cells' = true).
Proof.
  intros U ND.
  destruct (select_dtypes_spec DNumeric d ND) as (ND1 & K1 & M1).
  destruct (rewrites_fold DNumeric fill_with_mean
              (fun cells => fill_cells (numeric_mean cells) cells)
              (select_dtypes DNumeric d) d
              (fillna_rewrites DNumeric numeric_mean) U ND1 K1)
    as (d1 & F1 & C1 & U1 & L1 & G1).
  assert (ND' : NoDup (column_names d1))
    by (unfold column_names; now rewrite C1).
  destruct (select_dtypes_spec DObject d1 ND') as (ND2 & K2 & M2).
  destruct (rewrites_fold DObject fill_with_mode
              (fun cells => fill_cells (match mode cells with
                                        | m :: _ => m
                                        | [] => CText "Unknown"
                                        end) cells)
              (select_dtypes DObject d1) d1
              (fillna_rewrites DObject
                 (fun cells => match mode cells with
                               | m :: _ => m
                               | [] => CText "Unknown"
                               end)) U1 ND2 K2)
    as (d2 & F2 & C2 & U2 & L2 & G2).
  assert (Cells : forall col t cells,
             frame_getitem d col = inr (t, cells) ->
             frame_getitem d2 col = inr (t, filled t cells)).
  { intros col t cells G. rewrite G2.
    pose proof (G1 col) as G1c. rewrite G in G1c.
    rewrite (M1 col t cells G) in G1c. rewrite G1c.
    rewrite (M2 col t _ G1c). now destruct t. }
  exists d2. unfold value_fill_missing_values. rewrite F1. cbn [ebind].
  rewrite F2. cbn [ebind].
  split; [reflexivity |]. split; [congruence |]. split; [congruence |].
  split; [exact Cells |]. split.
  - intros col cells G.
    destruct (frame_getitem d col) as [e | [t old]] eqn:G0.
    + rewrite G2, G1, G0 in G. discriminate.
    + rewrite (Cells col t old G0) in G. injection G as -> <-.
      apply fill_cells_no_null, mode_value_is_a_text.
  - intros col cells G Some. eexists. split; [exact (Cells _ _ _ G) |].
    now apply fill_cells_no_null, numeric_mean_of_numbers.
Qed.

Lemma fill_missing_values_by_column_witness :
  exists cleaned,
    frame_getitem cleaned "Amount"
    = inr (DNumeric, [CNum 10; CNum (50 # 3); CNum 10; CNum 30])
    /\ frame_getitem cleaned "Customer"
       = inr (DObject, [CText " alice smith "; CText "bob";
                        CText " alice smith "; CText " alice smith "]).
Proof.
  assert (U : uniform ledger) by (repeat constructor).
  assert (ND : NoDup (column_names ledger)).
  { repeat constructor; cbn; intuition discriminate. }
  destruct (fill_missing_values_by_column ledger U ND)
    as (cleaned & _ & _ & _ & Cells & _).
  exists cleaned. split.
  - exact (Cells "Amount" DNumeric _ eq_refl).
  - exact (Cells "Customer" DObject _ eq_refl).
Defined.

(** ** Texts *)

Lemma title_char_cased (b : bool) (c : ascii) :
  is_cased (if b then Str.lower_char c else upper_char c) = is_cased c.
Proof.
  destruct b, c as [[] [] [] [] [] [] [] []]; reflexivity.
Qed.

Lemma title_char_space (b : bool) (c : ascii) :
  Str.is_space (if b then Str.lower_char c else upper_char c)
  = Str.is_space c.
Proof.
  destruct b, c as [[] [] [] [] [] [] [] []]; reflexivity.
Qed.

Lemma title_char_twice (b : bool) (c : ascii) :
  (if b then Str.lower_char (if b then Str.lower_char c else upper_char c)
   else upper_char (if b then Str.lower_char c else upper_char c))
  = (if b then Str.lower_char c else upper_char c).
Proof.
  destruct b, c as [[] [] [] [] [] [] [] []]; reflexivity.
Qed.

Lemma space_is_not_cased (c : ascii) :
  Str.is_space c = true -> is_cased c = false.
Proof.
  destruct c as [[] [] [] [] [] [] [] []]; vm_compute; congruence.
Qed.

Lemma title_from_twice (b : bool) (s : string) :
  title_from b (title_from b s) = title_from b s.
Proof.
  revert b. induction s as [| c t IH]; intros b; [reflexivity |].
  cbn [title_from]. now rewrite title_char_twice, title_char_cased, IH.
Qed.

Lemma lstrip_title (s : string) : lstrip (title s) = title (lstrip s).
Proof.
  unfold title. induction s as [| c t IH]; [reflexivity |].
  cbn [title_from lstrip]. rewrite (title_char_space false c).
  destruct (Str.is_space c) eqn:S; [| reflexivity].
  now rewrite (space_is_not_cased c S).
Qed.

Lemma rstrip_title (b : bool) (s : string) :
  rstrip (title_from b s) = title_from b (rstrip s).
Proof.
  revert b. induction s as [| c t IH]; intros b; [reflexivity |].
  cbn [title_from rstrip]. rewrite IH.
  destruct (rstrip t) as [| c' t']; cbn [title_from].
  - rewrite title_char_space. now destruct (Str.is_space c).
  - reflexivity.
Qed.

Lemma strip_title (s : string) : strip (title s) = title (strip s).
Proof.
  unfold strip. rewrite lstrip_title. apply rstrip_title.
Qed.

Lemma lstrip_length (s : string) :
  (String.length (lstrip s) <= String.length s)%nat.
Proof.
  induction s as [| c t IH]; cbn [lstrip String.length]; [lia |].
  destruct (Str.is_space c); cbn [String.length]; lia.
Qed.

Lemma lstrip_twice (s : string) : lstrip (lstrip s) = lstrip s.
Proof.
  induction s as [| c t IH]; [reflexivity |]. cbn [lstrip].
  destruct (Str.is_space c) eqn:S; [exact IH |]. cbn [lstrip]. now rewrite S.
Qed.

Lemma rstrip_cons (c : ascii) (t : string) :
  rstrip (String c t)
  = match rstrip t with
    | EmptyString => if Str.is_space c then EmptyString
                     else String c EmptyString
    | t' => String c t'
    end.
Proof. reflexivity. Qed.

Lemma rstrip_twice (s : string) : rstrip (rstrip s) = rstrip s.
Proof.
  induction s as [| c t IH]; [reflexivity |]. rewrite rstrip_cons.
  destruct (rstrip t) as [| c' t'] eqn:R.
  - destruct (Str.is_space c) eqn:S; [reflexivity |].
    rewrite rstrip_cons. cbn [rstrip]. now rewrite S.
  - rewrite rstrip_cons. now rewrite IH.
Qed.

Lemma lstrip_rstrip (s : string) :
  lstrip s = s -> lstrip (rstrip s) = rstrip s.
Proof.
  destruct s as [| c t]; [reflexivity |]. cbn [lstrip].
  destruct (Str.is_space c) eqn:S.
  - intros E. pose proof (lstrip_length t) as L. rewrite E in L.
    cbn [String.length] in L. lia.
  - intros _. cbn [rstrip].
    destruct (rstrip t); [rewrite S |]; cbn [lstrip]; now rewrite S.
Qed.

Lemma strip_twice (s : string) : strip (strip s) = strip s.
Proof.
  unfold strip. rewrite (lstrip_rstrip (lstrip s) (lstrip_twice s)).
  apply rstrip_twice.
Qed.

Lemma normalized_twice (t : dtype) (cells : list cell) :
  normalized t (normalized t cells) = normalized t cells.
Proof.
  destruct t; try reflexivity. unfold normalized. rewrite map_map.
  apply map_ext. intros [q | ts | s |]; try reflexivity.
  f_equal. rewrite strip_title, strip_twice. apply title_from_twice.
Qed.

Lemma rows_ext (w : nat) (rows1 rows2 : list (list cell)) :
  Forall (fun row => List.length row = w) rows1 ->
  Forall (fun row => List.length row = w) rows2 ->
  List.length rows1 = List.length rows2 ->
  (forall j, (j < w)%nat -> column_cells j rows1 = column_cells j rows2) ->
  rows1 = rows2.
Proof.
  intros W1. revert rows2.
  induction W1 as [| r1 rows1 L1 W1 IH]; intros [| r2 rows2] W2 L C;
    try discriminate; [reflexivity |].
  inversion W2 as [| ? ? L2 W2']; subst. f_equal.
  - apply (nth_ext _ _ CNull CNull); [congruence |].
    intros j J. specialize (C j J). now injection C.
  - apply IH; [exact W2' | now injection L |].
    intros j J. specialize (C j J). now injection C.
Qed.

(** Two frames with the same columns, distinctly named, the same number
    of rows and the same cells in every column are the same frame. *)
Lemma frame_ext (d1 d2 : DataFrame) :
  uniform d1 -> uniform d2 -> NoDup (column_names d1) ->
  df_columns d2 = df_columns d1 ->
  List.length (df_rows d2) = List.length (df_rows d1) ->
  (forall col t cells, frame_getitem d1 col = inr (t, cells) ->
                       frame_getitem d2 col = inr (t, cells)) ->
  d2 = d1.
Proof.
  destruct d1 as [cols rows1], d2 as [cols2 rows2].
  unfold uniform, column_names, frame_getitem. cbn [df_columns df_rows].
  intros U1 U2 ND -> L G. f_equal.
  apply (rows_ext (List.length cols)); auto.
  intros j J.
  destruct (nth_error cols j) as [[name t] |] eqn:N;
    [| apply nth_error_None in N; lia].
  destruct (find_column_unique name t cols 0 ND (nth_error_In _ _ N))
    as [i F].
  destruct (find_column_at _ _ _ _ F) as [N' _].
  assert (i = j).
  { apply (proj1 (NoDup_nth_error (map fst cols)) ND);
      [rewrite length_map; apply nth_error_Some; congruence |].
    now rewrite !nth_error_map, N, N'. }
  subst i. specialize (G name t (column_cells j rows1)).
  rewrite F in G. specialize (G eq_refl). now injection G.
Qed.

Lemma normalize_text_columns (d : DataFrame) :
  uniform d -> NoDup (column_names d) ->
  exists cleaned,
    value_normalize_text d
    = inr (cleaned,
           Count (Z.of_nat (List.length (select_dtypes DObject d))))
    /\ df_columns cleaned = df_columns d
    /\ uniform cleaned
    /\ List.length (df_rows cleaned) = List.length (df_rows d)
    /\ forall col t cells,
        frame_getitem d col = inr (t, cells) ->
        frame_getitem cleaned col = inr (t, normalized t cells).
Proof.
  intros U ND.
  destruct (select_dtypes_spec DObject d ND) as (ND1 & K1 & M1).
  destruct (rewrites_fold DObject _ _ (select_dtypes DObject d) d
              (rewrites_then DObject _ _ _ _ (str_column_rewrites strip)
                             (str_column_rewrites title)) U ND1 K1)
    as (d1 & F1 & C1 & U1 & L1 & G1).
  exists d1. unfold value_normalize_text. rewrite F1. cbn [ebind].
  split; [reflexivity |]. split; [exact C1 |]. split; [exact U1 |].
  split; [exact L1 |].
  intros col t cells G. rewrite G1, G, (M1 col t cells G).
  destruct t; cbn [dtype_eqb normalized]; try reflexivity.
  rewrite map_map. do 2 f_equal. apply map_ext.
  now intros [q | ts | s |].
Qed.

Lemma title_char_ascii (b : bool) (c : ascii) :
  is_ascii c = true ->
  is_ascii (if b then Str.lower_char c else upper_char c) = true.
Proof.
  destruct b, c as [[] [] [] [] [] [] [] []]; vm_compute; congruence.
Qed.

Lemma title_from_ascii (b : bool) (s : string) :
  all_chars is_ascii s = true -> all_chars is_ascii (title_from b s) = true.
Proof.
  revert b. induction s as [| c t IH]; intros b; [reflexivity |].
  cbn [title_from all_chars]. intros H. apply andb_true_iff in H as [Hc Ht].
  now rewrite (title_char_ascii b c Hc), IH.
Qed.

Lemma lstrip_all_chars (p : ascii -> bool) (s : string) :
  all_chars p s = true -> all_chars p (lstrip s) = true.
Proof.
  induction s as [| c t IH]; [reflexivity |]. cbn [lstrip].
  destruct (Str.is_space c); [| auto].
  cbn [all_chars]. intros H. apply andb_true_iff in H. now apply IH.
Qed.

Lemma rstrip_all_chars (p : ascii -> bool) (s : string) :
  all_chars p s = true -> all_chars p (rstrip s) = true.
Proof.
  induction s as [| c t IH]; [reflexivity |]. rewrite rstrip_cons.
  cbn [all_chars]. intros H. apply andb_true_iff in H as [Hc Ht].
  specialize (IH Ht). destruct (rstrip t) as [| c' t'].
  - destruct (Str.is_space c); cbn [all_chars]; [reflexivity | now rewrite Hc].
  - change (p c && all_chars p (String c' t') = true). now rewrite Hc, IH.
Qed.

Lemma ascii_texts_spec (d : DataFrame) :
  ascii_texts d = true
  <-> forall row s, In row (df_rows d) -> In (CText s) row ->
                    all_chars is_ascii s = true.
Proof.
  unfold ascii_texts. rewrite forallb_forall. split.
  - intros H row s Ir Ic. specialize (H row Ir).
    rewrite forallb_forall in H. exact (H (CText s) Ic).
  - intros H row Ir. apply forallb_forall. intros [q | ts | s |] Ic; auto.
    exact (H row s Ir Ic).
Qed.

Lemma normalized_ascii (t : dtype) (cells : list cell) (p : nat) (s : string) :
  (forall s0, In (CText s0) cells -> all_chars is_ascii s0 = true) ->
  nth_error (normalized t cells) p = Some (CText s) ->
  all_chars is_ascii s = true.
Proof.
  intros A N.
  assert (Kept : nth_error cells p = Some (CText s) ->
                 all_chars is_ascii s = true)
    by (intros K; exact (A s (nth_error_In _ _ K))).
  destruct t; cbn [normalized] in N; try exact (Kept N).
  rewrite nth_error_map in N.
  destruct (nth_error cells p) as [[q | ts | s0 |] |] eqn:C;
    cbn [option_map] in N; try discriminate.
  injection N as <-. unfold title, strip.
  apply title_from_ascii, rstrip_all_chars, lstrip_all_chars.
  exact (A s0 (nth_error_In _ _ C)).
Qed.

(** A frame whose columns are those of an ASCII frame, normalized, is an
    ASCII frame. *)
Lemma normalized_frame_ascii (d cleaned : DataFrame) :
  NoDup (column_names d) -> ascii_texts d = true ->
  df_columns cleaned = df_columns d -> uniform cleaned ->
  (forall col t cells,
      frame_getitem d col = inr (t, cells) ->
      frame_getitem cleaned col = inr (t, normalized t cells)) ->
  ascii_texts cleaned = true.
Proof.
  intros ND A C U1 G. apply ascii_texts_spec. intros row s Ir Ic.
  pose proof (proj1 (ascii_texts_spec d) A) as A'.
  assert (W : List.length row = List.length (df_columns d)).
  { rewrite <- C. exact (proj1 (Forall_forall _ _) U1 row Ir). }
  apply In_nth_error in Ir as [p Np]. apply In_nth_error in Ic as [j Nj].
  assert (J : (j < List.length (df_columns d))%nat).
  { rewrite <- W. apply nth_error_Some. congruence. }
  destruct (nth_error (df_columns d) j) as [[name t] |] eqn:N;
    [| apply nth_error_None in N; lia].
  pose proof (find_column_position name t _ 0 j ND N) as F.
  cbn [Nat.add] in F.
  assert (G0 : frame_getitem d name = inr (t, column_cells j (df_rows d)))
    by (unfold frame_getitem; now rewrite F).
  pose proof (G _ _ _ G0) as G1. unfold frame_getitem in G1.
  rewrite C, F in G1. injection G1 as G1.
  apply (normalized_ascii t (column_cells j (df_rows d)) p s).
  - intros s0 I. unfold column_cells in I.
    apply in_map_iff in I as (row0 & E & I0). apply (A' row0 s0 I0).
    destruct (nth_in_or_default j row0 CNull) as [I | D];
      [now rewrite E in I | congruence].
  - rewrite <- G1. unfold column_cells. rewrite nth_error_map, Np.
    cbn [option_map]. f_equal. now apply nth_error_nth.
Qed.

(** X20.  [normalize_text] on a frame with distinct column names, one
    cell per column in every row and texts written in ASCII succeeds and
    keeps the columns and the number of rows; in every text column a text
    is stripped of the white space around it and put in title case, and
    the other columns are left as they are; the count reported is the
    number of text columns, not of texts changed; the texts of the result
    are ASCII again, and a second pass changes nothing. *)
Theorem normalize_text_is_idempotent (d : DataFrame) :
  uniform d -> NoDup (column_names d) -> ascii_texts d = true ->
  exists cleaned,
    let text_columns :=
      Count (Z.of_nat (List.length (select_dtypes DObject d))) in
    value_normalize_text d = inr (cleaned, text_columns)
    /\ df_columns cleaned = df_columns d
    /\ List.length (df_rows cleaned) = List.length (df_rows d)
    /\ (forall col t cells,
           frame_getitem d col = inr (t, cells) ->
           frame_getitem cleaned col = inr (t, normalized t cells))
    /\ ascii_texts cleaned = true
    /\ value_normalize_text cleaned = inr (cleaned, text_columns).
Proof.
  intros U ND A.
  destruct (normalize_text_columns d U ND) as (d1 & V1 & C1 & U1 & L1 & G1).
  assert (ND1 : NoDup (column_names d1))
    by (unfold column_names; now rewrite C1).
  destruct (normalize_text_columns d1 U1 ND1)
    as (d2 & V2 & C2 & U2 & L2 & G2).
  exists d1. cbv zeta.
  split; [exact V1 |]. split; [exact C1 |]. split; [exact L1 |].
  split; [exact G1 |].
  split; [exact (normalized_frame_ascii d d1 ND A C1 U1 G1) |].
  assert (Same : d2 = d1).
  { apply frame_ext; auto. intros col t cells G.
    assert (Old : exists old, frame_getitem d col = inr (t, old)).
    { unfold frame_getitem in *. rewrite C1 in G.
      destruct (find_column col (df_columns d) 0) as [[i t'] |];
        [| discriminate].
      injection G as -> _. eauto. }
    destruct Old as [old G0]. pose proof (G1 col t old G0) as G1c.
    rewrite G in G1c. injection G1c as ->.
    rewrite (G2 col t _ G). now rewrite normalized_twice. }
  rewrite V2, Same. unfold select_dtypes. now rewrite C1.
Qed.

Lemma normalize_text_is_idempotent_witness :
  exists cleaned,
    frame_getitem cleaned "Customer"
    = inr (DObject, [CText "Alice Smith"; CText "Bob";
                     CText "Alice Smith"; CNull])
    /\ ascii_texts cleaned = true
    /\ value_normalize_text cleaned = inr (cleaned, Count 1).
Proof.
  assert (U : uniform ledger) by (repeat constructor).
  assert (ND : NoDup (column_names ledger)).
  { repeat constructor; cbn; intuition discriminate. }
  destruct (normalize_text_is_idempotent ledger U ND eq_refl)
    as (cleaned & _ & _ & _ & Cells & Ascii & Again).
  exists cleaned. split; [| split; [exact Ascii | exact Again]].
  exact (Cells "Customer" DObject _ eq_refl).
Defined.

(** ** Outliers *)

Lemma select_rows_and {A} (above below : list bool) (rows : list A) (r : A) :
  In r (select_rows (map (fun '(x, y) => x && y) (combine above below)) rows) ->
  In r (select_rows above rows).
Proof.
  revert above below.
  induction rows as [| r0 rows IH]; intros [| x above] [| y below];
    cbn [combine map select_rows]; try contradiction.
  destruct x, y; cbn [andb]; intros I.
  - destruct I as [<- | I]; [now left | right; exact (IH _ _ I)].
  - right. exact (IH _ _ I).
  - exact (IH _ _ I).
  - exact (IH _ _ I).
Qed.

Lemma compared_is_a_number (t : dtype) (op : cmp_op) (v : Q) (c : cell) :
  compare_series t op v [c] = inr [true] -> exists q, c = CNum q.
Proof.
  unfold compare_series.
  destruct t, op, c as [q | ts | s |]; cbn; try discriminate; eauto.
Qed.

(** One turn of the outlier loop: the rows kept are rows of the frame,
    and each holds a number in the column. *)
Lemma within_bounds_spec (col : string) (d d1 : DataFrame) :
  within_bounds col d = inr d1 ->
  kept d d1
  /\ (List.length (df_rows d1) <= List.length (df_rows d))%nat
  /\ forall i t, find_column col (df_columns d) 0 = Some (i, t) ->
                 forall row, In row (df_rows d1) ->
                             exists q, nth i row CNull = CNum q.
Proof.
  unfold within_bounds, frame_getitem.
  destruct (find_column col (df_columns d) 0) as [[i t] |];
    cbn [ebind snd fst]; [| discriminate].
  destruct (iqr_bounds _) as [[lower_bound upper_bound] |]; unfold between;
    cbn [fst snd].
  - destruct (compare_series t OpGe lower_bound _) as [e | above] eqn:A;
      cbn [ebind]; [discriminate |].
    destruct (compare_series t OpLe upper_bound _) as [e | below];
      cbn [ebind]; [discriminate |].
    intros [= <-]. split; [apply kept_select, kept_refl |].
    split; [apply select_rows_length |].
    intros i' t' [= <- <-] row I. cbn [frame_select df_rows] in I.
    apply select_rows_and in I.
    unfold column_cells in A.
    rewrite (compare_series_select _ _ _ _ _ _ A) in I.
    apply filter_In in I as [_ I].
    destruct (compare_series t OpGe lower_bound [nth i row CNull])
      as [e | [| [] []]] eqn:C; try discriminate.
    exact (compared_is_a_number _ _ _ _ C).
  - cbn [ebind]. intros [= <-]. cbn [frame_select df_rows].
    unfold column_cells. rewrite select_rows_none.
    split; [apply kept_select, kept_refl |].
    split; [cbn; lia | intros i' t' _ row []].
Qed.

Lemma outlier_loop_spec (cols : list string) (d cleaned : DataFrame)
      (removed total : Z) :
  efold (fun (st : DataFrame * Z) col =>
           ebind (within_bounds col (fst st))
                 (fun kept_rows =>
                    inr (kept_rows,
                         (snd st + rows_lost (fst st) kept_rows)%Z)))
        cols (d, removed) = inr (cleaned, total) ->
  kept d cleaned
  /\ (List.length (df_rows cleaned) <= List.length (df_rows d))%nat
  /\ total = (removed + rows_lost d cleaned)%Z
  /\ forall col i t,
      In col cols -> find_column col (df_columns d) 0 = Some (i, t) ->
      forall row, In row (df_rows cleaned) ->
                  exists q, nth i row CNull = CNum q.
Proof.
  revert d removed. induction cols as [| c cols IH]; intros d removed;
    cbn [efold fst snd].
  - intros [= <- <-]. split; [apply kept_refl |]. split; [lia |].
    split; [unfold rows_lost; lia | intros col i t []].
  - destruct (within_bounds c d) as [e | d1] eqn:W; cbn [ebind];
      [discriminate |].
    intros Rest. apply within_bounds_spec in W as ([C1 R1] & L1 & N1).
    apply IH in Rest as ([C2 R2] & L2 & T & N2).
    split; [split; [congruence | auto] |]. split; [lia |].
    split; [unfold rows_lost in *; lia |].
    intros col i t [<- | I] F row Row.
    + exact (N1 i t F row (R2 row Row)).
    + rewrite <- C1 in F. exact (N2 col i t I F row Row).
Qed.

Lemma well_typed_kept (d fd : DataFrame) :
  well_typed d = true -> kept d fd -> well_typed fd = true.
Proof.
  unfold well_typed. intros W [C R]. rewrite C.
  apply forallb_forall. intros row I.
  exact (proj1 (forallb_forall _ _) W row (R row I)).
Qed.

Lemma outlier_loop_ok (cols : list string) (d fd : DataFrame) (removed : Z) :
  well_typed d = true -> kept d fd ->
  (forall col, In col cols -> is_numeric_column d col = true) ->
  exists st,
    efold (fun (st : DataFrame * Z) col =>
             ebind (within_bounds col (fst st))
                   (fun kept_rows =>
                      inr (kept_rows,
                           (snd st + rows_lost (fst st) kept_rows)%Z)))
          cols (fd, removed) = inr st.
Proof.
  intros W. revert fd removed.
  induction cols as [| c cols IH]; intros fd removed K N;
    cbn [efold fst snd]; [eauto |].
  assert (Step : exists d1, within_bounds c fd = inr d1 /\ kept d d1).
  { pose proof (N c (or_introl eq_refl)) as Nc.
    unfold within_bounds, frame_getitem.
    destruct (find_column c (df_columns fd) 0) as [[i t] |] eqn:F.
    2:{ destruct (numeric_compare_ok d fd c OpGe (PInt 0) W K Nc)
          as [mask M]. unfold frame_compare in M. now rewrite F in M. }
    cbn [ebind fst snd].
    destruct (iqr_bounds _) as [[lower_bound upper_bound] |];
      unfold between; cbn [fst snd ebind].
    - destruct (numeric_compare_ok d fd c OpGe (PFloat lower_bound) W K Nc)
        as [above A].
      destruct (numeric_compare_ok d fd c OpLe (PFloat upper_bound) W K Nc)
        as [below B].
      unfold frame_compare in A, B. rewrite F in A, B. cbn [pyval_Q] in A, B.
      rewrite A. cbn [ebind]. rewrite B. cbn [ebind].
      eexists. split; [reflexivity | now apply kept_select].
    - eexists. split; [reflexivity | now apply kept_select]. }
  destruct Step as (d1 & -> & K1). cbn [ebind fst snd].
  apply IH; [exact K1 |]. intros col I. apply N. now right.
Qed.

(** X21.  When [remove_outliers] succeeds, the frame has the columns it
    had and rows it had, the count reported is the number of rows lost,
    and every row kept holds a number in every numeric column: a row
    with a missing value in a numeric column is removed along with the
    outliers.  On a frame whose cells agree with the kinds of its
    columns, with distinct column names, it does succeed. *)
Theorem remove_outliers_drops_rows_without_a_number (d : DataFrame) :
  (forall cleaned removed,
      value_remove_outliers d = inr (cleaned, removed) ->
      kept d cleaned
      /\ removed = Count (rows_lost d cleaned)
      /\ (0 <= rows_lost d cleaned)%Z
      /\ forall col i t,
          In col (select_dtypes DNumeric d) ->
          find_column col (df_columns d) 0 = Some (i, t) ->
          forall row, In row (df_rows cleaned) ->
                      exists q, nth i row CNull = CNum q)
  /\ (well_typed d = true -> NoDup (column_names d) ->
      exists cleaned removed,
        value_remove_outliers d = inr (cleaned, removed)).
Proof.
  unfold value_remove_outliers. split.
  - intros cleaned removed.
    destruct (efold _ (select_dtypes DNumeric d) (d, 0%Z))
      as [e | [d1 total]] eqn:F; cbn [ebind fst snd]; [discriminate |].
    intros [= <- <-]. apply outlier_loop_spec in F as (K & L & T & N).
    split; [exact K |]. split; [now rewrite T |].
    split; [unfold rows_lost; lia | exact N].
  - intros W ND.
    destruct (outlier_loop_ok (select_dtypes DNumeric d) d d 0 W
                              (kept_refl d)) as [[d1 total] ->].
    + intros col I. unfold is_numeric_column.
      destruct (select_dtypes_spec DNumeric d ND) as (_ & Kind & _).
      destruct (Kind col I) as [cells G]. unfold frame_getitem in G.
      destruct (find_column col (df_columns d) 0) as [[i t] |];
        [| discriminate].
      now injection G as -> _.
    + cbn [ebind fst snd]. eauto.
Qed.

Lemma remove_outliers_drops_rows_without_a_number_witness :
  exists cleaned,
    value_remove_outliers ledger = inr (cleaned, Count 1)
    /\ forall row, In row (df_rows cleaned) ->
                   exists q, nth 1 row CNull = CNum q.
Proof.
  eexists. split; [reflexivity |].
  exact (proj2 (proj2 (proj2
           (proj1 (remove_outliers_drops_rows_without_a_number ledger)
                  _ _ eq_refl)))
           "Amount" 1%nat DNumeric (or_introl eq_refl) eq_refl).
Defined.

Lemma report_lists_the_recognised_operations_witness :
  exists report preview,
    fst (clean_data (fun _ sr => inr sr) (fun sr => inr sr) (fun sr => sr)
                    (fun sr => inr sr) (fun sr => inr sr)
                    ["Remove_Duplicates, then remove_outliers"; "sort";
                     "NORMALIZE_TEXT"]
                    (Some "Ledger") ledger_bot)
    = inr (Cleaned report preview)
    /\ operations_performed report = ["remove_duplicates"; "normalize_text"].
Proof.
  eexists. eexists. split; [reflexivity |].
  exact (proj1 (report_lists_the_recognised_operations
                  (fun _ sr => inr sr) (fun sr => inr sr) (fun sr => sr)
                  (fun sr => inr sr) (fun sr => inr sr)
                  ledger_bot
                  ["Remove_Duplicates, then remove_outliers"; "sort";
                   "NORMALIZE_TEXT"]
                  (Some "Ledger") _ _ eq_refl)).
Defined.

(** ** Outliers detected and outliers removed *)

Lemma column_typed (d : DataFrame) (col : string) (t : dtype)
      (cells : list cell) :
  well_typed d = true -> frame_getitem d col = inr (t, cells) ->
  forallb (cell_has_dtype t) cells = true.
Proof.
  unfold well_typed, frame_getitem. intros W G.
  destruct (find_column col (df_columns d) 0) as [[i t'] |] eqn:F;
    [| discriminate].
  injection G as -> <-. destruct (find_column_at _ _ _ _ F) as [N _].
  apply forallb_forall. intros c I. unfold column_cells in I.
  apply in_map_iff in I as (row & <- & I).
  apply (row_typed_nth (map snd (df_columns d)) row i t).
  - exact (proj1 (forallb_forall _ _) W row I).
  - now rewrite nth_error_map, N.
Qed.

(** A comparison of a numeric column with a number, cell by cell. *)
Lemma numeric_series_compare (op : cmp_op) (v : Q) (cells : list cell) :
  forallb (cell_has_dtype DNumeric) cells = true ->
  compare_series DNumeric op v cells
  = inr (map (fun c => match c with
                       | CNum q => compare_num op q v
                       | _ => false
                       end) cells).
Proof.
  intros T.
  assert (S : sequence (map (compare_cell op v) cells)
              = inr (map (fun c => match c with
                                   | CNum q => compare_num op q v
                                   | _ => false
                                   end) cells)).
  { induction cells as [| c cells IH]; [reflexivity |].
    cbn [forallb] in T. apply andb_true_iff in T as [Tc T].
    cbn [map sequence]. rewrite (IH T).
    destruct c as [q | ts | s |]; try discriminate; reflexivity. }
  now destruct op.
Qed.

Lemma map_combine_maps {A} (f g : A -> bool) (h : bool * bool -> bool)
      (l : list A) :
  map h (combine (map f l) (map g l)) = map (fun x => h (f x, g x)) l.
Proof.
  induction l as [| x l IH]; [reflexivity |]. cbn [map combine].
  now rewrite IH.
Qed.

Lemma filter_map_length {A B} (p : B -> bool) (g : A -> B) (l : list A) :
  List.length (filter (fun x => p (g x)) l)
  = List.length (filter p (map g l)).
Proof.
  induction l as [| x l IH]; [reflexivity |]. cbn [map filter].
  destruct (p (g x)); cbn [List.length]; now rewrite IH.
Qed.

(** Rows selected by a test on one of their cells are as many as the
    cells that pass it. *)
Lemma select_by_cells {A B} (p : B -> bool) (g : A -> B) (rows : list A) :
  List.length (select_rows (map p (map g rows)) rows)
  = List.length (filter p (map g rows)).
Proof.
  rewrite map_map, select_rows_map. apply filter_map_length.
Qed.

(** A cell of a numeric column is below the lower bound or above the
    upper one, or between them, or null. *)
Lemma outside_within_or_null (lower_bound upper_bound : Q)
      (cells : list cell) :
  forallb (cell_has_dtype DNumeric) cells = true ->
  (List.length
     (filter (fun c => match c with
                       | CNum q => compare_num OpLt q lower_bound
                       | _ => false
                       end
                       || match c with
                          | CNum q => compare_num OpGt q upper_bound
                          | _ => false
                          end) cells)
   + List.length
       (filter (fun c => match c with
                         | CNum q => compare_num OpGe q lower_bound
                         | _ => false
                         end
                         && match c with
                            | CNum q => compare_num OpLe q upper_bound
                            | _ => false
                            end) cells)
   + List.length (filter is_null cells))%nat
  = List.length cells.
Proof.
  induction cells as [| c cells IH]; [reflexivity |].
  cbn [forallb]. intros T. apply andb_true_iff in T as [Tc T].
  specialize (IH T). cbn [filter].
  destruct c as [q | ts | s |]; try discriminate; cbn [is_null orb andb].
  - unfold compare_num in *.
    destruct (Qle_bool lower_bound q), (Qle_bool q upper_bound);
      cbn [negb orb andb List.length]; lia.
  - cbn [List.length]. lia.
Qed.

Lemma insert_asc_not_empty (x : Q) (l : list Q) : insert_asc x l <> [].
Proof. destruct l as [| y l]; cbn; [| destruct (Qle_bool x y)]; discriminate. Qed.

Lemma no_bounds_all_null (cells : list cell) :
  forallb (cell_has_dtype DNumeric) cells = true ->
  iqr_bounds cells = None ->
  List.length (filter is_null cells) = List.length cells.
Proof.
  intros T B.
  assert (N : numbers cells = []).
  { unfold iqr_bounds, quantile in B.
    destruct (numbers cells) as [| x xs]; [reflexivity |].
    cbn [sort_asc fold_right] in B.
    pose proof (insert_asc_not_empty x (fold_right insert_asc [] xs)) as NE.
    destruct (insert_asc x (fold_right insert_asc [] xs));
      [contradiction | discriminate]. }
  clear B. induction cells as [| c cells IH]; [reflexivity |].
  cbn [forallb] in T. apply andb_true_iff in T as [Tc T].
  destruct c as [q | ts | s |]; try discriminate.
  cbn [filter is_null List.length]. f_equal. apply IH; [exact T |].
  exact N.
Qed.

(** X22.  What [remove_outliers] removes and what [_detect_outliers]
    reports.  On a frame whose cells agree with the kinds of its columns
    and whose only numeric column is [col], not empty, [_detect_outliers]
    reports as outliers cells of the column that hold a value, and
    [remove_outliers] removes as many rows as outliers are reported and,
    beyond them, every row whose cell in the column is null: the rows
    left, the outliers reported and the nulls add up to the rows of the
    frame. *)
Theorem remove_outliers_removes_detected_and_missing
        (d : DataFrame) (col : string) (cells : list cell) :
  well_typed d = true ->
  select_dtypes DNumeric d = [col] ->
  frame_getitem d col = inr (DNumeric, cells) ->
  cells <> [] ->
  exists report cleaned,
    _detect_outliers (DNumeric, cells) = inr report
    /\ outlier_count report = List.length (outlier_values report)
    /\ (forall c, In c (outlier_values report) ->
                  In c cells /\ is_null c = false)
    /\ value_remove_outliers d
       = inr (cleaned,
              Count (Z.of_nat (outlier_count report
                               + List.length (filter is_null cells))))
    /\ (List.length (df_rows cleaned) + outlier_count report
        + List.length (filter is_null cells)
        = List.length (df_rows d))%nat.
Proof.
  intros W Sel G NE.
  pose proof (column_typed d col DNumeric cells W G) as T.
  assert (Rows : cells = map (fun row => nth
                                           match find_column col (df_columns d) 0 with
                                           | Some (i, _) => i
                                           | None => 0%nat
                                           end row CNull) (df_rows d)).
  { unfold frame_getitem in G.
    destruct (find_column col (df_columns d) 0) as [[i t] |];
      [| discriminate].
    now injection G as _ <-. }
  set (i := match find_column col (df_columns d) 0 with
            | Some (i, _) => i
            | None => 0%nat
            end) in Rows.
  assert (Len : List.length cells = List.length (df_rows d))
    by (rewrite Rows; apply length_map).
  unfold _detect_outliers, value_remove_outliers, within_bounds.
  rewrite Sel. cbn [efold ebind fst snd]. rewrite G. cbn [ebind fst snd].
  unfold outside, between. cbn [fst snd].
  destruct (iqr_bounds cells) as [[lower_bound upper_bound] |] eqn:B.
  - rewrite !numeric_series_compare by exact T. cbn [ebind].
    rewrite !map_combine_maps, select_rows_map.
    pose proof (outside_within_or_null lower_bound upper_bound cells T)
      as Parts.
    destruct (List.length cells) as [| n] eqn:L;
      [destruct cells; [congruence | discriminate] |].
    eexists. eexists. cbn [ebind fst snd].
    split; [reflexivity |]. cbn [outlier_count outlier_values].
    split; [reflexivity |]. split.
    { intros c I. apply filter_In in I as [I O]. split; [exact I |].
      now destruct c. }
    assert (Kept : List.length
                     (select_rows
                        (map (fun x => match x with
                                       | CNum q => compare_num OpGe q lower_bound
                                       | _ => false
                                       end
                                       && match x with
                                          | CNum q =>
                                              compare_num OpLe q upper_bound
                                          | _ => false
                                          end) cells) (df_rows d))
                   = List.length
                       (filter (fun c => match c with
                                         | CNum q =>
                                             compare_num OpGe q lower_bound
                                         | _ => false
                                         end
                                         && match c with
                                            | CNum q =>
                                                compare_num OpLe q upper_bound
                                            | _ => false
                                            end) cells)).
    { rewrite Rows. apply select_by_cells. }
    unfold rows_lost, frame_select. cbn [df_rows].
    split.
    + apply f_equal, f_equal2; [reflexivity |]. f_equal. rewrite Kept. lia.
    + cbn [df_rows]. rewrite Kept. lia.
  - cbn [ebind]. rewrite !select_rows_none.
    pose proof (no_bounds_all_null cells T B) as Nulls.
    destruct (List.length cells) as [| n] eqn:L;
      [destruct cells; [congruence | discriminate] |].
    eexists. eexists. cbn [ebind fst snd].
    split; [reflexivity |]. cbn [outlier_count outlier_values List.length].
    split; [reflexivity |]. split; [intros c [] |].
    unfold rows_lost, frame_select. cbn [df_rows].
    rewrite select_rows_none. cbn [List.length].
    split.
    + apply f_equal, f_equal2; [reflexivity |]. f_equal. lia.
    + cbn [df_rows List.length]. lia.
Qed.

Lemma remove_outliers_removes_detected_and_missing_witness :
  exists report cleaned,
    _detect_outliers (DNumeric, [CNum 10; CNull; CNum 10; CNum 30])
    = inr report
    /\ outlier_count report = 0%nat
    /\ value_remove_outliers ledger = inr (cleaned, Count 1).
Proof.
  assert (NE : [CNum 10; CNull; CNum 10; CNum 30] <> []) by discriminate.
  destruct (remove_outliers_removes_detected_and_missing
              ledger "Amount" _ eq_refl eq_refl eq_refl NE)
    as (report & cleaned & D & _ & _ & R & _).
  exists report, cleaned. split; [exact D |].
  assert (C : outlier_count report = 0%nat).
  { vm_compute in D. now injection D as <-. }
  split; [exact C |]. rewrite C in R. exact R.
Defined.

(** * Properties of the validation *)

Section ValidationProperties.

Variable pattern_mismatch : string -> Series -> exn + list bool.

Lemma apply_rule_keeps (sr : Series) (cv cv' : ColValidation) (rule : Rule) :
  apply_rule pattern_mismatch sr cv rule = inr cv' ->
  column cv' = column cv /\ total_rows cv' = total_rows cv.
Proof.
  unfold apply_rule.
  destruct (rule_mask pattern_mismatch sr rule) as [e | [[mask message] |]];
    cbn [ebind]; [discriminate | |].
  - destruct (0 <? count_true mask)%nat; intros [= <-]; auto.
  - intros [= <-]. auto.
Qed.

Lemma apply_rules_keep (sr : Series) (rules : list Rule)
      (cv cv' : ColValidation) :
  efold (apply_rule pattern_mismatch sr) rules cv = inr cv' ->
  column cv' = column cv /\ total_rows cv' = total_rows cv.
Proof.
  revert cv. induction rules as [| rule rules IH]; intros cv; cbn [efold].
  - intros [= <-]. auto.
  - destruct (apply_rule pattern_mismatch sr cv rule) as [e | cv1] eqn:A;
      cbn [ebind]; [discriminate |].
    intros Rest. apply IH in Rest as [C T].
    apply apply_rule_keeps in A as [C1 T1]. split; congruence.
Qed.

Lemma validate_column_shape (d : DataFrame) (col : string)
      (rules : list Rule) (cv : ColValidation) :
  validate_column pattern_mismatch d col rules = inr cv ->
  column cv = col
  /\ total_rows cv = List.length (df_rows d)
  /\ valid_rows cv = (Z.of_nat (total_rows cv) - Z.of_nat (invalid_rows cv))%Z.
Proof.
  unfold validate_column.
  destruct (frame_getitem d col) as [e | sr]; cbn [ebind]; [discriminate |].
  destruct (efold _ rules _) as [e | cv1] eqn:F; cbn [ebind];
    [discriminate |].
  intros [= <-]. apply apply_rules_keep in F as [C T].
  cbn [column total_rows valid_rows invalid_rows] in *. auto.
Qed.

Lemma summary_set_keys (k : string) (v : ColValidation)
      (m : list (string * ColValidation)) (x : string) :
  In x (map fst (summary_set k v m)) <-> x = k \/ In x (map fst m).
Proof.
  induction m as [| [k' v'] m IH]; cbn [summary_set map fst In].
  - intuition.
  - destruct (String.eqb_spec k k') as [-> | Ne]; cbn [map fst In].
    + intuition.
    + rewrite IH. intuition.
Qed.

Lemma summary_set_values (k : string) (v : ColValidation)
      (m : list (string * ColValidation)) (x : string) (w : ColValidation) :
  In (x, w) (summary_set k v m) -> (x = k /\ w = v) \/ In (x, w) m.
Proof.
  induction m as [| [k' v'] m IH]; cbn [summary_set In].
  - intros [[= <- <-] | []]. now left.
  - destruct (String.eqb k k'); cbn [In].
    + intros [[= <- <-] | I]; [now left | right; now right].
    + intros [E | I]; [right; now left |].
      destruct (IH I) as [L | R]; [now left | right; now right].
Qed.

(** The loop over the columns, started with results in which [passed]
    says that there is no error. *)
Lemma validate_rules_spec (d : DataFrame)
      (validation_rules : list (string * list Rule))
      (start results : ValidationResults) :
  efold (validate_rules pattern_mismatch d) validation_rules start
  = inr results ->
  (passed start = true <-> errors start = []) ->
  (passed results = true <-> errors results = [])
  /\ (forall col,
         In col (map fst (summary results))
         <-> In col (map fst (summary start))
             \/ (In col (map fst validation_rules)
                 /\ mem col (column_names d) = true))
  /\ (forall col cv,
         In (col, cv) (summary results) ->
         In (col, cv) (summary start)
         \/ (column cv = col
             /\ total_rows cv = List.length (df_rows d)
             /\ valid_rows cv = (Z.of_nat (total_rows cv)
                                 - Z.of_nat (invalid_rows cv))%Z))
  /\ warnings results = warnings start.
Proof.
  revert start.
  induction validation_rules as [| [col rules] rest IH]; intros start;
    cbn [efold map fst In].
  - intros [= <-] P. split; [exact P |]. split; [intuition |].
    split; [auto | reflexivity].
  - destruct (validate_rules pattern_mismatch d start (col, rules))
      as [e | next] eqn:Step; cbn [ebind]; [discriminate |].
    intros Rest P. unfold validate_rules in Step.
    destruct (mem col (column_names d)) eqn:M; cbn [negb] in Step.
    + destruct (validate_column pattern_mismatch d col rules) as [e | cv] eqn:V;
        cbn [ebind] in Step; [discriminate |].
      injection Step as <-.
      apply IH in Rest as (P' & K & S & W).
      * cbn [summary warnings] in *. split; [exact P' |].
        split; [| split; [| exact W]].
        -- intros c. rewrite K, summary_set_keys.
           split; [| intros [H | [[<- | H] Mc]]; auto].
           intros [[-> | H] | [H Mc]]; auto.
        -- intros c w I. apply S in I as [I | I]; [| now right].
           apply summary_set_values in I as [[-> ->] | I]; [| now left].
           right. exact (validate_column_shape d col rules cv V).
      * cbn [passed errors].
        destruct (col_errors cv) as [| e es].
        -- now rewrite app_nil_r.
        -- split; [discriminate |]. intros E.
           apply app_eq_nil in E as [_ E]. discriminate.
    + injection Step as <-.
      apply IH in Rest as (P' & K & S & W).
      * cbn [summary warnings] in *. split; [exact P' |].
        split; [| split; [exact S | exact W]].
        intros c. rewrite K.
        split; [intros [H | [H Mc]]; auto |].
        intros [H | [[<- | H] Mc]]; auto. congruence.
      * cbn [passed errors]. split; [discriminate |]. intros E.
        apply app_eq_nil in E as [_ E]. discriminate.
Qed.

(** X23.  When a validation returns its results, [passed] is true exactly
    when no error is listed; the summary has one entry for each column of
    the rules that the frame has, and none for the others; each entry
    carries the name of its column and the number of rows of the frame,
    with [valid_rows] the rows that are left when [invalid_rows] is taken
    off; and no warning is ever given. *)
Theorem validation_passes_iff_no_error
        (d : DataFrame) (validation_rules : list (string * list Rule))
        (results : ValidationResults) :
  validate_frame pattern_mismatch d validation_rules = inr results ->
  (passed results = true <-> errors results = [])
  /\ (forall col,
         In col (map fst (summary results))
         <-> In col (map fst validation_rules)
             /\ mem col (column_names d) = true)
  /\ (forall col cv,
         In (col, cv) (summary results) ->
         column cv = col
         /\ total_rows cv = List.length (df_rows d)
         /\ valid_rows cv = (Z.of_nat (total_rows cv)
                             - Z.of_nat (invalid_rows cv))%Z)
  /\ warnings results = [].
Proof.
  intros V. apply validate_rules_spec in V as (P & K & S & W);
    [| cbn; tauto].
  cbn [summary warnings map In] in *. split; [exact P |].
  split; [| split; [| exact W]].
  - intros col. rewrite K. tauto.
  - intros col cv I. destruct (S col cv I) as [[] | H]. exact H.
Qed.

End ValidationProperties.

(** ** What the counts of a validation count *)

Lemma filter_or_length {A} (f g : A -> bool) (l : list A) :
  (List.length (filter (fun x => f x || g x) l)
   <= List.length (filter f l) + List.length (filter g l))%nat.
Proof.
  induction l as [| x l IH]; cbn [filter List.length]; [lia |].
  destruct (f x), (g x); cbn [orb List.length]; lia.
Qed.

Lemma filter_negb_length {A} (f : A -> bool) (l : list A) :
  (List.length (filter (fun x => negb (f x)) l) + List.length (filter f l))%nat
  = List.length l.
Proof.
  induction l as [| x l IH]; cbn [filter List.length]; [lia |].
  destruct (f x); cbn [negb List.length]; lia.
Qed.

(** The positions a mask marks, among the first [n], are at most as many
    as the cells it marks. *)
Lemma marked_positions (mask : list bool) (n : nat) :
  (List.length (filter (fun k => nth k mask false) (seq 0 n))
   <= count_true mask)%nat.
Proof.
  unfold count_true. revert n.
  induction mask as [| b mask IH]; intros n.
  - rewrite (filter_nothing (fun k => nth k [] false) (seq 0 n)); [cbn; lia |].
    intros k _. now destruct k.
  - destruct n as [| n]; [cbn; lia |].
    cbn [seq filter nth]. rewrite <- seq_shift.
    assert (E : List.length
                  (filter (fun k => match k with
                                    | O => b
                                    | S m => nth m mask false
                                    end) (map S (seq 0 n)))
                = List.length (filter (fun k => nth k mask false) (seq 0 n))).
    { symmetry.
      exact (filter_map_length (fun k => match k with
                                         | O => b
                                         | S m => nth m mask false
                                         end) S (seq 0 n)). }
    specialize (IH n). destruct b; cbn [List.length]; rewrite E; lia.
Qed.

Section ValidationCounts.

Variable pattern_mismatch : string -> Series -> exn + list bool.

(** The rows a list of rules counts, each once, are at most as many as the
    rules add to [invalid_rows]. *)
Lemma apply_rules_count (sr : Series) (rules : list Rule)
      (cv cv' : ColValidation) (n : nat) :
  efold (apply_rule pattern_mismatch sr) rules cv = inr cv' ->
  (invalid_rows cv
   + List.length
       (filter (fun k => existsb (fun rule => breaks pattern_mismatch sr rule k)
                                 rules) (seq 0 n))
   <= invalid_rows cv')%nat.
Proof.
  revert cv. induction rules as [| rule rules IH]; intros cv;
    cbn [efold existsb].
  - intros [= <-]. rewrite (filter_nothing (fun _ => false)); [cbn; lia |].
    reflexivity.
  - destruct (apply_rule pattern_mismatch sr cv rule) as [e | cv1] eqn:A;
      cbn [ebind]; [discriminate |].
    intros Rest. specialize (IH cv1 Rest).
    pose proof (filter_or_length
                  (fun k => breaks pattern_mismatch sr rule k)
                  (fun k => existsb
                              (fun rule => breaks pattern_mismatch sr rule k)
                              rules) (seq 0 n)) as Or.
    assert (Step : (invalid_rows cv
                    + List.length
                        (filter (fun k => breaks pattern_mismatch sr rule k)
                                (seq 0 n))
                    <= invalid_rows cv1)%nat).
    { unfold apply_rule in A. unfold breaks.
      destruct (rule_mask pattern_mismatch sr rule)
        as [e | [[mask message] |]]; cbn [ebind] in A; [discriminate | |].
      - pose proof (marked_positions mask n) as Marked.
        destruct (0 <? count_true mask)%nat eqn:Pos; injection A as <-;
          cbn [invalid_rows]; [lia |].
        apply Nat.ltb_ge in Pos. lia.
      - injection A as <-.
        rewrite (filter_nothing (fun _ => false)); [cbn; lia | reflexivity]. }
    lia.
Qed.

(** X24.  [valid_rows] never overstates: for a column the frame has,
    whatever the rules, the rows that no rule counts are at least
    [valid_rows].  They can be more, because a row that several rules
    count is taken off [valid_rows] several times, which can even make it
    negative. *)
Theorem valid_rows_is_a_lower_bound
        (d : DataFrame) (col : string) (rules : list Rule)
        (sr : Series) (cv : ColValidation) :
  frame_getitem d col = inr sr ->
  validate_column pattern_mismatch d col rules = inr cv ->
  (valid_rows cv
   <= Z.of_nat (List.length (passing_rows pattern_mismatch sr rules
                                          (List.length (df_rows d)))))%Z.
Proof.
  intros G V. unfold validate_column in V. rewrite G in V. cbn [ebind] in V.
  destruct (efold _ rules _) as [e | cv1] eqn:F; cbn [ebind] in V;
    [discriminate |].
  injection V as <-. cbn [valid_rows].
  pose proof (apply_rules_keep pattern_mismatch sr rules _ cv1 F) as [_ T].
  pose proof (apply_rules_count sr rules _ cv1 (List.length (df_rows d)) F)
    as Count.
  cbn [total_rows invalid_rows] in T, Count. unfold passing_rows.
  pose proof (filter_negb_length
                (fun k => existsb
                            (fun rule => breaks pattern_mismatch sr rule k)
                            rules)
                (seq 0 (List.length (df_rows d)))) as Parts.
  rewrite length_seq in Parts. lia.
Qed.

End ValidationCounts.

Lemma validation_passes_iff_no_error_witness :
  exists results,
    validate_frame (fun _ sr => inr (map (fun _ => false) (snd sr))) ledger
                   [("Amount", [Required true; MinRule (PInt 20)]);
                    ("Region", [Required true])]
    = inr results
    /\ passed results = false
    /\ In "Amount" (map fst (summary results))
    /\ ~ In "Region" (map fst (summary results)).
Proof.
  eexists. split; [reflexivity |]. split; [reflexivity |].
  pose proof (validation_passes_iff_no_error
                (fun _ sr => inr (map (fun _ => false) (snd sr))) ledger
                [("Amount", [Required true; MinRule (PInt 20)]);
                 ("Region", [Required true])] _ eq_refl)
    as (_ & Keys & _).
  split.
  - apply (proj2 (Keys "Amount")). split; [now left | reflexivity].
  - intros I. apply (proj1 (Keys "Region")) in I as [_ M]. discriminate M.
Defined.

Lemma valid_rows_is_a_lower_bound_witness :
  exists cv,
    validate_column (fun _ sr => inr (map (fun _ => false) (snd sr))) ledger
                    "Amount" [MinRule (PInt 20); InRangeRule (PInt 20) (PInt 100)]
    = inr cv
    /\ valid_rows cv = 0%Z
    /\ (valid_rows cv
        <= Z.of_nat
             (List.length
                (passing_rows (fun _ sr => inr (map (fun _ => false) (snd sr)))
                              (DNumeric, [CNum 10; CNull; CNum 10; CNum 30])
                              [MinRule (PInt 20);
                               InRangeRule (PInt 20) (PInt 100)] 4)))%Z.
Proof.
  eexists. split; [reflexivity |]. split; [reflexivity |].
  exact (valid_rows_is_a_lower_bound
           (fun _ sr => inr (map (fun _ => false) (snd sr))) ledger "Amount"
           [MinRule (PInt 20); InRangeRule (PInt 20) (PInt 100)]
           _ _ eq_refl eq_refl).
Defined.

(** ** A range and its two ends *)

Lemma sequence_map_values {A} (f : A -> exn + bool) (l : list A)
      (r : list bool) :
  sequence (map f l) = inr r ->
  r = map (fun x => match f x with inr b => b | inl _ => false end) l.
Proof.
  revert r. induction l as [| x l IH]; intros r; cbn [map sequence].
  - now intros [= <-].
  - destruct (f x) as [e | b]; [discriminate |].
    destruct (sequence (map f l)) as [e | r']; [discriminate |].
    intros [= <-]. now rewrite (IH r' eq_refl).
Qed.

Lemma count_true_or {A} (f g : A -> bool) (l : list A) :
  (forall x, In x l -> f x && g x = false) ->
  count_true (map (fun x => f x || g x) l)
  = (count_true (map f l) + count_true (map g l))%nat.
Proof.
  unfold count_true. induction l as [| x l IH]; intros D; [reflexivity |].
  cbn [map filter]. pose proof (D x (or_introl eq_refl)) as Dx.
  assert (Rest : forall y, In y l -> f y && g y = false)
    by (intros y I; apply D; now right).
  specialize (IH Rest).
  destruct (f x), (g x); cbn [orb andb List.length] in *; try discriminate;
    lia.
Qed.

Section ValidationRanges.

Variable pattern_mismatch : string -> Series -> exn + list bool.

(** X25.  On a column the frame has, the rule [in_range: [low, high]]
    with [low <= high] counts the rows that the rules [min: low] and
    [max: high] count together: the two validations give the same
    [invalid_rows] and [valid_rows], and the one lists an error exactly
    when the other does.  (With [low > high] a value between the two is
    counted once by the range and twice by its ends.) *)
Theorem in_range_counts_as_min_and_max
        (d : DataFrame) (col : string) (low high : pyval)
        (cv_range cv_ends : ColValidation) :
  pyval_Q low <= pyval_Q high ->
  validate_column pattern_mismatch d col [InRangeRule low high]
  = inr cv_range ->
  validate_column pattern_mismatch d col [MinRule low; MaxRule high]
  = inr cv_ends ->
  invalid_rows cv_range = invalid_rows cv_ends
  /\ valid_rows cv_range = valid_rows cv_ends
  /\ (col_errors cv_range = [] <-> col_errors cv_ends = []).
Proof.
  intros Order. unfold validate_column.
  destruct (frame_getitem d col) as [e | [t cells]]; cbn [ebind];
    [discriminate |].
  cbn [efold]. unfold apply_rule, rule_mask. cbn [fst snd].
  destruct t; cbn [dtype_eqb ebind];
    try (intros [= <-] [= <-]; cbn; tauto).
  unfold outside. cbn [fst snd compare_series].
  destruct (sequence (map (compare_cell OpLt (pyval_Q low)) cells))
    as [e | below] eqn:B; cbn [ebind]; [discriminate |].
  destruct (sequence (map (compare_cell OpGt (pyval_Q high)) cells))
    as [e | above] eqn:A; cbn [ebind]; [discriminate |].
  apply sequence_map_values in B, A. subst below above.
  rewrite map_combine_maps.
  rewrite (count_true_or
             (fun x => match compare_cell OpLt (pyval_Q low) x with
                       | inr b => b
                       | inl _ => false
                       end)
             (fun x => match compare_cell OpGt (pyval_Q high) x with
                       | inr b => b
                       | inl _ => false
                       end)).
  2:{ intros [q | ts | s |] _; try reflexivity. cbn [compare_cell compare_num].
      destruct (Qle_bool (pyval_Q low) q) eqn:L; [reflexivity |].
      destruct (Qle_bool q (pyval_Q high)) eqn:H; [apply andb_false_r |].
      exfalso.
      assert (NL : ~ pyval_Q low <= q)
        by (intros C; apply Qle_bool_iff in C; congruence).
      assert (NH : ~ q <= pyval_Q high)
        by (intros C; apply Qle_bool_iff in C; congruence).
      apply Qnot_le_lt in NL, NH.
      apply (Qlt_irrefl q).
      apply (Qlt_le_trans _ (pyval_Q low)); [exact NL |].
      apply (Qle_trans _ (pyval_Q high)); [exact Order |].
      now apply Qlt_le_weak. }
  set (a := count_true (map _ cells)).
  set (b := count_true (map _ cells)).
  destruct (0 <? a + b)%nat eqn:Pab, (0 <? a)%nat eqn:Pa;
    cbn [ebind column total_rows valid_rows invalid_rows col_errors];
    destruct (0 <? b)%nat eqn:Pb;
    cbn [ebind column total_rows valid_rows invalid_rows col_errors app];
    intros [= <-] [= <-];
    cbn [column total_rows valid_rows invalid_rows col_errors];
    apply Nat.ltb_lt in Pab || apply Nat.ltb_ge in Pab;
    apply Nat.ltb_lt in Pa || apply Nat.ltb_ge in Pa;
    apply Nat.ltb_lt in Pb || apply Nat.ltb_ge in Pb;
    (split; [lia | split; [lia |]]);
    try (split; intros; (discriminate || reflexivity || lia)).
Qed.

End ValidationRanges.

Lemma in_range_counts_as_min_and_max_witness :
  exists cv_range cv_ends,
    validate_column (fun _ sr => inr (map (fun _ => false) (snd sr))) ledger
                    "Amount" [InRangeRule (PInt 20) (PInt 100)]
    = inr cv_range
    /\ validate_column (fun _ sr => inr (map (fun _ => false) (snd sr)))
                       ledger "Amount"
                       [MinRule (PInt 20); MaxRule (PInt 100)]
       = inr cv_ends
    /\ invalid_rows cv_range = 2%nat
    /\ invalid_rows cv_range = invalid_rows cv_ends.
Proof.
  eexists. eexists. split; [reflexivity |]. split; [reflexivity |].
  split; [reflexivity |].
  assert (Order : pyval_Q (PInt 20) <= pyval_Q (PInt 100))
    by (unfold Qle; simpl; lia).
  exact (proj1 (in_range_counts_as_min_and_max
                  (fun _ sr => inr (map (fun _ => false) (snd sr))) ledger
                  "Amount" (PInt 20) (PInt 100) _ _ Order eq_refl eq_refl)).
Defined.
